(** * Chitfund backend: bookkeeping rules of the Mongoose models and the
      Express controllers, embedded as executable Rocq definitions.

    Conventions of the embedding.
    - A JavaScript [Number] is an exact rational ([Qc]); counters and
      millisecond timestamps are integers ([Z]).  Rounding of IEEE doubles is
      not modelled.
    - A Mongoose collection is the list of its documents in creation order
      (ascending [createdAt]); [_id] values are natural numbers.
    - An [async] handler is a function from the store to a response and the
      store it leaves behind.  A rejected promise inside [try { ... }] is the
      [inl] of a sum and is turned into the response of the [catch] block.
    - [new Date()] is one instant [now] per request.
    - The messages of errors raised by Mongoose or by the runtime are
      abbreviated; the messages written in the handlers are kept.
    - The records hold the paths the schemas declare and the handlers read;
      [createdAt], [updatedAt] and [__v], which every save touches, are not
      among them, and no statement below speaks about them.
    - Counters and the numbers behind the generated ids stay below [2^53],
      where a double counts exactly. *)

From stdpp Require Import base numbers list strings gmap.
From Stdlib Require Import Ascii ZArith QArith Qcanon Qround Lia.

Local Open Scope Z_scope.

(** ** JavaScript string primitives used by the id generators *)

Module Js.

Definition digitChar (d : Z) : ascii := ascii_of_nat (48 + Z.to_nat d).

Definition digitValue (c : ascii) : option Z :=
  let n := Z.of_nat (nat_of_ascii c) in
  if (48 <=? n) && (n <=? 57) then Some (n - 48) else None.

(** Decimal digits of a non-negative integer, most significant first. *)
Fixpoint decimalDigits (fuel : nat) (n : Z) (acc : string) : string :=
  match fuel with
  | O => acc
  | S fuel' =>
      let acc' := String (digitChar (n mod 10)) acc in
      if n / 10 =? 0 then acc' else decimalDigits fuel' (n / 10) acc'
  end.

Definition decimal (n : Z) : string := decimalDigits (S (Z.to_nat n)) n "".

(** [String(x)] for an integer-valued number; [None] is [NaN]. *)
Definition toString (x : option Z) : string :=
  match x with
  | None => "NaN"
  | Some n => if n <? 0 then String "-" (decimal (- n)) else decimal n
  end.

(** [x + 1] on a number that may be [NaN]. *)
Definition succ (x : option Z) : option Z :=
  match x with None => None | Some n => Some (n + 1) end.

Fixpoint repeatChar (k : nat) (c : ascii) : string :=
  match k with O => "" | S k' => String c (repeatChar k' c) end.

(** [s.padStart(w, c)] *)
Definition padStart (w : nat) (c : ascii) (s : string) : string :=
  repeatChar (w - String.length s) c +:+ s.

Fixpoint startsWith (p s : string) : bool :=
  match p, s with
  | EmptyString, _ => true
  | String a p', String b s' => if Ascii.eqb a b then startsWith p' s' else false
  | String _ _, EmptyString => false
  end.

Fixpoint dropChars (k : nat) (s : string) : string :=
  match k, s with
  | O, _ => s
  | S k', String _ s' => dropChars k' s'
  | S _, EmptyString => ""
  end.

Fixpoint takeChars (k : nat) (s : string) : string :=
  match k, s with
  | O, _ => ""
  | S k', String c s' => String c (takeChars k' s')
  | S _, EmptyString => ""
  end.

(** [s.replace(pat, rep)] with a string pattern: the first occurrence only. *)
Fixpoint replace (pat rep s : string) : string :=
  if startsWith pat s then rep +:+ dropChars (String.length pat) s
  else match s with
       | EmptyString => ""
       | String c s' => String c (replace pat rep s')
       end.

(** [s.slice(-k)] for [k > 0]: the last [k] characters. *)
Definition sliceLast (k : nat) (s : string) : string :=
  dropChars (String.length s - k) s.

Definition isWhiteSpace (c : ascii) : bool :=
  let n := nat_of_ascii c in
  (n =? 32)%nat || ((9 <=? n)%nat && (n <=? 13)%nat).

Fixpoint trimStart (s : string) : string :=
  match s with
  | String c s' => if isWhiteSpace c then trimStart s' else s
  | EmptyString => ""
  end.

(** The digits at the front of [s], read in base ten; [acc] is [None] until
    the first digit has been seen. *)
Fixpoint parseDigits (s : string) (acc : option Z) : option Z :=
  match s with
  | String c s' =>
      match digitValue c with
      | Some d => parseDigits s' (Some (10 * default 0 acc + d))
      | None => acc
      end
  | EmptyString => acc
  end.

(** [parseInt(s, 10)]; [None] is [NaN]. *)
Definition parseInt (s : string) : option Z :=
  match trimStart s with
  | String "-" r => Z.opp <$> parseDigits r None
  | String "+" r => parseDigits r None
  | r => parseDigits r None
  end.

End Js.

(** ** Sequential human-readable ids *)

(** [Model.findOne({}, {}, { sort: { <id field>: -1 } })], projected on the id
    field: the greatest id string of the collection in code-unit order. *)
Definition findLastId (ids : list string) : option string :=
  foldr (fun i acc =>
           match acc with
           | None => Some i
           | Some j => if String.ltb j i then Some i else Some j
           end) None ids.

(** The body shared by the [pre('save')] hooks of Member, Ledger, Scheme,
    Group, Installment and Receipt, which differ only in the prefix. *)
Definition nextSequentialId (prefix : string) (ids : list string) : string :=
  match findLastId ids with
  | Some lastId =>
      if bool_decide (lastId = "") then prefix +:+ "001"
      else
        let lastIdNumber := Js.parseInt (Js.replace prefix "" lastId) in
        prefix +:+ Js.padStart 3 "0" (Js.toString (Js.succ lastIdNumber))
  | None => prefix +:+ "001"
  end.

(** [if (!this.isNew || this.<id>) return next();] followed by the body. *)
Definition preSaveId (prefix : string) (ids : list string)
    (isNew : bool) (current : string) : string :=
  if negb isNew || negb (bool_decide (current = "")) then current
  else nextSequentialId prefix ids.

Definition MemberSchema_preSave := preSaveId "MEM".
Definition LedgerSchema_preSave := preSaveId "LGR".

(** The [unique: true] index on the id field. *)
Definition insertUnique (ids : list string) (newId : string) : string + list string :=
  if bool_decide (newId ∈ ids) then inl "E11000 duplicate key error"
  else inr (ids ++ [newId]).

(** [Model.create({...})] without an explicit id, seen on the id column. *)
Definition createWithId (prefix : string) (ids : list string) : string + list string :=
  insertUnique ids (preSaveId prefix ids true "").

(** [n] creations in a row, stopping at the first failure. *)
Fixpoint createMany (prefix : string) (n : nat) (ids : list string) : string + list string :=
  match n with
  | O => inr ids
  | S n' =>
      match createWithId prefix ids with
      | inl e => inl e
      | inr ids' => createMany prefix n' ids'
      end
  end.

(** The [pre('save')] hook of Transaction: the id embeds the last two digits
    of the current year, [year] being [new Date().getFullYear()]. *)
Definition yearSuffix (year : Z) : string :=
  Js.sliceLast 2 (Js.toString (Some year)).

Definition TransactionSchema_preSave (year : Z) (ids : list string)
    (isNew : bool) (current : string) : string :=
  if negb isNew || negb (bool_decide (current = "")) then current
  else
    let yearSuffix := yearSuffix year in
    let newId := "TXN" +:+ yearSuffix +:+ "001" in
    match findLastId ids with
    | Some lastId =>
        if bool_decide (lastId = "") then newId
        else
          let lastIdPrefix := Js.takeChars 5 lastId in
          let lastIdNumber := Js.parseInt (Js.dropChars 5 lastId) in
          (* Reset counter if year changed *)
          if negb (bool_decide (lastIdPrefix = "TXN" +:+ yearSuffix))
          then "TXN" +:+ yearSuffix +:+ "001"
          else "TXN" +:+ yearSuffix
                 +:+ Js.padStart 3 "0" (Js.toString (Js.succ lastIdNumber))
    | None => newId
    end.

(** ** Documents *)

Abbreviation ObjectId := nat (only parsing).
Abbreviation Number := Qc (only parsing).
Abbreviation Date := Z (only parsing).

Definition num (z : Z) : Number := Qc_of_Z z.

(** [req.params.id]: the handlers look a document up by
    [{ $or: [{ _id: id }, { <code field>: id }] }].  The parameter is either
    the 24 hexadecimal characters of an ObjectId, or any other string, such
    as a code ([INS001]); no code has the form of an ObjectId. *)
Inductive IdParam :=
| ByObjectId (oid : ObjectId)
| ByCode (code : string).

(** A value of a JSON request body that a handler computes with before
    Mongoose casts it: a number or a string.  [JOther] stands for [null],
    booleans, arrays and objects, which are not interpreted here. *)
Inductive Json :=
| JNum (x : Number)
| JStr (s : string)
| JOther.

(** JavaScript's conversions between numbers and strings, on the values
    interpreted here: integers and strings of decimal digits.  [None] means
    that the value is outside of them. *)
Module JsValue.

Fixpoint digits (s : string) : bool :=
  match s with
  | EmptyString => true
  | String c s' => bool_decide (is_Some (Js.digitValue c)) && digits s'
  end.

(** [Number(s)], which is also how Mongoose casts a string to a Number
    path: a string of digits, with or without a minus sign. *)
Definition toNumber (s : string) : option Number :=
  match s with
  | String "-" r =>
      if digits r then (fun n => num (- n)) <$> Js.parseDigits r None else None
  | _ => if digits s then num <$> Js.parseDigits s None else None
  end.

(** [String(x)] for an integer. *)
Definition toString (x : Number) : option string :=
  if bool_decide (x = num (Qnum (this x))) then Some (Js.toString (Some (Qnum (this x))))
  else None.

(** [v || 0] *)
Definition orZero (v : option Json) : option Json :=
  match v with
  | None => Some (JNum 0)
  | Some (JNum x) => Some (JNum x)
  | Some (JStr s) => if bool_decide (s = "") then Some (JNum 0) else Some (JStr s)
  | Some JOther => None
  end.

(** [a + v] for a number [a]: the sum, or the concatenation with a string. *)
Definition plus (a : Number) (v : Json) : option Json :=
  match v with
  | JNum x => Some (JNum (a + x)%Qc)
  | JStr s => (fun a' => JStr (a' +:+ s)) <$> toString a
  | JOther => None
  end.

(** A value where JavaScript wants a number (the operands of [-], [<=],
    [>=]), and a value cast by Mongoose to a Number path. *)
Definition number (v : Json) : option Number :=
  match v with
  | JNum x => Some x
  | JStr s => toNumber s
  | JOther => None
  end.

End JsValue.

Inductive PaymentMode := Cash | Cheque | Online | BankTransfer.
#[global] Instance PaymentMode_eq_dec : EqDecision PaymentMode.
Proof. solve_decision. Defined.

Module Branch.
Record t := mk { _id : ObjectId; branch_id : string; bname : string }.
End Branch.

Module Employee.
Record t := mk { _id : ObjectId; emp_id : string }.
End Employee.

(** Only the paths of a member that the bookkeeping handlers read. *)
Module Member.
Record t := mk {
  _id : ObjectId;
  member_id : string;
  branch_id : ObjectId;
  mem_name : string
}.
End Member.

Module Scheme.
Inductive Frequency := Monthly | Weekly | Biweekly.

(** SchemeSchema declares no [late_fee_rate]: a scheme document has no such
    path, whatever the body it was created from carried. *)
Record t := mk {
  _id : ObjectId;
  scheme_id : string;
  duration_months : Number;
  min_members : Number;
  max_members : Number;
  auction_frequency : Frequency
}.
End Scheme.

Module Group.
Inductive Status := Forming | Active | Completed.
#[global] Instance Status_eq_dec : EqDecision Status.
Proof. solve_decision. Defined.

Record member := mkMember {
  member_id : ObjectId;
  join_date : Date;
  payout_month : Number;
  payout_received : bool
}.

Record t := mk {
  _id : ObjectId;
  group_id : string;
  branch_id : ObjectId;
  scheme_id : ObjectId;
  start_date : Date;
  status : Status;
  members : list member;
  current_month : Number
}.
End Group.

Module Transaction.
Inductive Type_ :=
  Deposit | Withdrawal | Installment | Auction | Commission | Penalty | Other.
#[global] Instance Type_eq_dec : EqDecision Type_.
Proof. solve_decision. Defined.

Inductive Status := Pending | Completed | Failed | Reversed.
#[global] Instance Status_eq_dec : EqDecision Status.
Proof. solve_decision. Defined.

Record t := mk {
  _id : ObjectId;
  transaction_id : string;
  branch_id : ObjectId;
  member_id : option ObjectId;
  group_id : option ObjectId;
  transaction_type : Type_;
  amount : Number;
  transaction_date : Date;
  description : option string;
  payment_mode : PaymentMode;
  reference_id : option string;
  recorded_by : ObjectId;
  status : Status;
  related_transaction : option ObjectId
}.
End Transaction.

Module Ledger.
Record t := mk {
  _id : ObjectId;
  ledger_id : string;
  branch_id : ObjectId;
  member_id : ObjectId;
  group_id : option ObjectId;
  transaction_id : ObjectId;
  date : Date;
  debit : Number;
  credit : Number;
  balance : Number;
  description : option string;
  reference : option string
}.
End Ledger.

Module Installment.
Inductive Status := Pending | Paid | Partial | Late.
#[global] Instance Status_eq_dec : EqDecision Status.
Proof. solve_decision. Defined.

Record t := mk {
  _id : ObjectId;
  installment_id : string;
  group_id : ObjectId;
  member_id : ObjectId;
  scheme_id : ObjectId;
  installment_number : option Z;
  installment_period : option string;
  due_date : Date;
  amount : Number;
  paid_date : option Date;
  paid_amount : Number;
  pending_amount : Number;
  status : Status;
  late_fee : Number;
  collected_by : option ObjectId;
  payment_mode : option PaymentMode;
  transaction_id : option string
}.
End Installment.

Module Receipt.
Inductive Status := Pending | Completed | Cancelled.

(** [receipt_no] (the per-branch counter) is left out: no handler below
    reads it. *)
Record t := mk {
  _id : ObjectId;
  receipt_id : string;
  branch_id : ObjectId;
  member_id : ObjectId;
  group_id : option ObjectId;
  receipt_date : Date;
  receipt_amount : Number;
  payment_mode : PaymentMode;
  received_by : ObjectId;
  remarks : string;
  status : Status
}.
End Receipt.

(** ** The document store *)

Record Store := mkStore {
  branches : list Branch.t;
  employees : list Employee.t;
  members : list Member.t;
  schemes : list Scheme.t;
  groups : list Group.t;
  transactions : list Transaction.t;
  ledgers : list Ledger.t;
  installments : list Installment.t;
  receipts : list Receipt.t;
  nextObjectId : ObjectId
}.

(** [res.status(code).json({ success, message, data })] *)
Record Response (A : Type) := mkResponse {
  statusCode : nat;
  success : bool;
  message : option string;
  data : option A
}.
Arguments mkResponse {A}.
Arguments statusCode {A}.
Arguments success {A}.
Arguments message {A}.
Arguments data {A}.

Definition ok {A} (code : nat) (d : A) : Response A :=
  mkResponse code true None (Some d).
Definition okMsg {A} (code : nat) (d : A) (m : string) : Response A :=
  mkResponse code true (Some m) (Some d).
Definition fail {A} (code : nat) (m : string) : Response A :=
  mkResponse code false (Some m) None.

(** A promise inside [try]: rejected with [error.message], or resolved. *)
Definition Thrown (A : Type) : Type := string + A.

#[global] Instance Thrown_bind : MBind Thrown :=
  fun A B f x => match x with inl e => inl e | inr a => f a end.

(** [Model.findById(id)] *)
Definition findById {D} (oid : D -> ObjectId) (id : ObjectId) (c : list D) : option D :=
  List.find (fun d => bool_decide (oid d = id)) c.

(** The cast of [{ $or: [{ _id: p }, { <code>: p }] }]: Mongoose casts [p]
    to an ObjectId for the [_id] branch, and a parameter that is not one
    makes the query throw a CastError before it is sent. *)
Definition castParam (p : IdParam) : Thrown ObjectId :=
  match p with
  | ByObjectId i => inr i
  | ByCode _ => inl "Cast to ObjectId failed at path `_id`"
  end.

(** [Model.findOne({ $or: [{ _id: p }, { <code>: p }] })] *)
Definition findOneByParam {D} (oid : D -> ObjectId) (p : IdParam) (c : list D)
    : Thrown (option D) :=
  i ← castParam p; inr (findById oid i c).

(** Writing a loaded document back: the stored document with the same [_id]
    is replaced in place. *)
Definition replaceDoc {D} (oid : D -> ObjectId) (d : D) (c : list D) : list D :=
  (fun x => if bool_decide (oid x = oid d) then d else x) <$> c.

(** [a || b] on an optional value. *)
Definition orElse {A} (a : option A) (b : A) : A := default b a.

(** [new Date()] and [new Date().getFullYear()] at the time of the request. *)
Record Clock := mkClock { now : Date; fullYear : Z }.

(** ** Ledger controller *)

Module LedgerController.

(** [req.body] of [POST /api/ledgers] after destructuring.  [debit] and
    [credit] are the values as sent: the handler computes with them before
    Mongoose casts them. *)
Record CreateBody := mkCreateBody {
  branch_id : option ObjectId;
  member_id : option ObjectId;
  group_id : option ObjectId;
  transaction_id : option ObjectId;
  debit : option Json;
  credit : option Json;
  description : option string;
  reference : option string
}.

(** [lastBalance + (credit || 0) - (debit || 0)]: [+] concatenates when
    [credit] is a string, [-] always subtracts numbers. *)
Definition newBalance (lastBalance : Number) (credit debit : option Json)
    : option Number :=
  c ← JsValue.orZero credit;
  d ← JsValue.orZero debit;
  l ← JsValue.plus lastBalance c;
  l' ← JsValue.number l;
  d' ← JsValue.number d;
  Some (l' - d')%Qc.

(** A [debit] or [credit] as [Ledger.create] stores it: the default [0] when
    absent, else the value cast to a Number. *)
Definition castAmount (v : option Json) : option Number :=
  match v with
  | None => Some 0%Qc
  | Some v' => JsValue.number v'
  end.

(** [Ledger.findOne({ member_id }).sort({ createdAt: -1 }).limit(1)] *)
Definition lastEntryOf (m : ObjectId) (c : list Ledger.t) : option Ledger.t :=
  last (filter (fun e => Ledger.member_id e = m) c).

(** [Ledger.create({...})] on cast values: the id hook and the unique
    index. *)
Definition Ledger_create (s : Store) (branch member : ObjectId)
    (group : option ObjectId) (txn : ObjectId) (date : Date)
    (debit credit balance : Number)
    (description reference : option string) : Thrown (Ledger.t * Store) :=
  let ids := Ledger.ledger_id <$> ledgers s in
  let newId := LedgerSchema_preSave ids true "" in
  if bool_decide (newId ∈ ids) then inl "E11000 duplicate key error"
  else
    let doc := Ledger.mk (nextObjectId s) newId branch member group txn date
                 debit credit balance description reference in
    inr (doc, mkStore (branches s) (employees s) (members s) (schemes s)
                (groups s) (transactions s) (ledgers s ++ [doc])
                (installments s) (receipts s) (S (nextObjectId s))).

(** The body of the [try] block; [None] when [debit] or [credit] is a value
    that is not interpreted here. *)
Definition createLedgerEntry_try (clk : Clock) (b : CreateBody) (s : Store)
    : option (Thrown (Response Ledger.t * Store)) :=
  match branch_id b, member_id b, transaction_id b with
  | Some branch_id, Some member_id, Some transaction_id =>
      (* Validate references exist *)
      let branch := findById Branch._id branch_id (branches s) in
      let member := findById Member._id member_id (members s) in
      let transaction := findById Transaction._id transaction_id (transactions s) in
      let group := group_id b ≫= fun g => findById Group._id g (groups s) in
      if bool_decide (branch = None) then Some (inl "Branch not found")
      else if bool_decide (member = None) then Some (inl "Member not found")
      else if bool_decide (transaction = None) then Some (inl "Transaction not found")
      else if bool_decide (group_id b ≠ None) && bool_decide (group = None)
           then Some (inl "Group not found")
      else
        (* Get the last balance for this member *)
        let lastEntry := lastEntryOf member_id (ledgers s) in
        let lastBalance :=
          match lastEntry with Some e => Ledger.balance e | None => 0%Qc end in
        balance ← newBalance lastBalance (credit b) (debit b);
        debit ← castAmount (debit b);
        credit ← castAmount (credit b);
        Some
          match Ledger_create s branch_id member_id (group_id b) transaction_id
                  (now clk) debit credit balance (description b) (reference b) with
          | inl e => inl e
          | inr (ledgerEntry, s') => inr (ok 201 ledgerEntry, s')
          end
  | _, _, _ =>
      Some (inr (fail 400 "Branch ID, Member ID and Transaction ID are required", s))
  end.

Definition createLedgerEntry (clk : Clock) (b : CreateBody) (s : Store)
    : option (Response Ledger.t * Store) :=
  r ← createLedgerEntry_try clk b s;
  Some
    match r with
    | inr r => r
    | inl error_message => (fail 400 error_message, s)
    end.

(** A sequence of [createLedgerEntry] requests, one after the other. *)
Fixpoint createLedgerEntries (reqs : list (Clock * CreateBody)) (s : Store)
    : option Store :=
  match reqs with
  | [] => Some s
  | (clk, b) :: reqs' =>
      r ← createLedgerEntry clk b s; createLedgerEntries reqs' r.2
  end.

(** [.sort({ date: 1, createdAt: 1 })] on a list in creation order. *)
Fixpoint insertByDate (e : Ledger.t) (l : list Ledger.t) : list Ledger.t :=
  match l with
  | [] => [e]
  | x :: l' =>
      if Ledger.date e <=? Ledger.date x then e :: l else x :: insertByDate e l'
  end.

Definition sortByDate (l : list Ledger.t) : list Ledger.t :=
  foldr insertByDate [] l.

(** The date filter built from [req.query]. *)
Definition inRange (startDate endDate : option Date) (e : Ledger.t) : bool :=
  match startDate with Some d => d <=? Ledger.date e | None => true end
  && match endDate with Some d => Ledger.date e <=? d | None => true end.

Record Statement := mkStatement {
  st_member_id : string;
  st_mem_name : string;
  opening_balance : Number;
  closing_balance : Number;
  st_transactions : list Ledger.t;
  st_count : nat
}.

(** [res.json] of a ledger entry that was populated with
    [.populate('transaction_id', 'transaction_id description')].
    TransactionSchema serialises its virtuals ([toJSON: { virtuals: true }])
    and [formatted_amount] reads [this.amount], which was not selected: the
    serialisation throws a TypeError, unless the transaction no longer exists
    and the path was populated with [null]. *)
Definition serialises (s : Store) (e : Ledger.t) : bool :=
  bool_decide (findById Transaction._id (Ledger.transaction_id e) (transactions s) = None).

(** [GET /api/members/:member_id/ledger] *)
Definition getMemberLedger (p : IdParam) (startDate endDate : option Date)
    (s : Store) : Response Statement :=
  match findOneByParam Member._id p (members s) with
  | inl error_message => fail 500 error_message
  | inr None => fail 404 "Member not found"
  | inr (Some member) =>
      let ofMember :=
        filter (fun e => Ledger.member_id e = Member._id member) (ledgers s) in
      let ledgerEntries :=
        sortByDate (List.filter (inRange startDate endDate) ofMember) in
      (* Calculate opening and closing balances *)
      let '(openingBalance, closingBalance) :=
        match last ledgerEntries with
        | Some lastInRange =>
            match head (sortByDate ofMember) with
            | Some firstEntry =>
                ((Ledger.balance firstEntry - Ledger.credit firstEntry
                  + Ledger.debit firstEntry)%Qc,
                 Ledger.balance lastInRange)
            | None => (0%Qc, 0%Qc)
            end
        | None => (0%Qc, 0%Qc)
        end in
      if forallb (serialises s) ledgerEntries then
        ok 200 (mkStatement (Member.member_id member) (Member.mem_name member)
                  openingBalance closingBalance ledgerEntries
                  (length ledgerEntries))
      else fail 500 "Cannot read properties of undefined (reading 'toLocaleString')"
  end.

(** A value of a JSON request body, tagged with the schema type Mongoose
    casts it to. *)
#[warnings="-register-all"] Inductive Value :=
| VNum (n : Number)
| VStr (str : string)
| VId (oid : ObjectId)
| VDate (d : Date)
| VObj (fields : gmap string Value).

Definition asNum (v : Value) : option Number :=
  match v with VNum n => Some n | _ => None end.
Definition asStr (v : Value) : option string :=
  match v with VStr x => Some x | _ => None end.
Definition asId (v : Value) : option ObjectId :=
  match v with VId x => Some x | _ => None end.
Definition asDate (v : Value) : option Date :=
  match v with VDate x => Some x | _ => None end.

(** One schema path of an update: absent, or the value cast to the type of
    the path; a value of the wrong type is a [CastError]. *)
Definition castPath {A} (cast : Value -> option A) (v : option Value)
    : Thrown (option A) :=
  match v with
  | None => inr None
  | Some x => match cast x with Some a => inr (Some a) | None => inl "CastError" end
  end.

Definition isOperator (k : string) : bool := Js.startsWith "$" k.

(** The update document as Mongoose sends it: top-level keys that are not
    operators are sugar for [$set] and take precedence over the entries of
    an explicit [$set].  [None] when the update uses an operator other than
    [$set], or a [$set] that is not an object: those are outside this
    model. *)
Definition castUpdate (update : gmap string Value) : option (gmap string Value) :=
  let plain := filter (fun kv => isOperator kv.1 = false) update in
  let operators := filter (fun kv => isOperator kv.1 = true) (delete "$set" update) in
  if bool_decide (operators = ∅) then
    match update !! "$set" with
    | None => Some plain
    | Some (VObj fields) => Some (plain ∪ fields)
    | Some _ => None
    end
  else None.

(** The [$set] of an update after casting under the (strict) LedgerSchema:
    one optional value per schema path; keys that are not schema paths are
    dropped. *)
Record LedgerSet := mkLedgerSet {
  set_ledger_id : option string;
  set_branch_id : option ObjectId;
  set_member_id : option ObjectId;
  set_group_id : option ObjectId;
  set_transaction_id : option ObjectId;
  set_date : option Date;
  set_debit : option Number;
  set_credit : option Number;
  set_balance : option Number;
  set_description : option string;
  set_reference : option string
}.

Definition castSet (sets : gmap string Value) : Thrown LedgerSet :=
  ledger_id ← castPath asStr (sets !! "ledger_id");
  branch_id ← castPath asId (sets !! "branch_id");
  member_id ← castPath asId (sets !! "member_id");
  group_id ← castPath asId (sets !! "group_id");
  transaction_id ← castPath asId (sets !! "transaction_id");
  date ← castPath asDate (sets !! "date");
  debit ← castPath asNum (sets !! "debit");
  credit ← castPath asNum (sets !! "credit");
  balance ← castPath asNum (sets !! "balance");
  description ← castPath asStr (sets !! "description");
  reference ← castPath asStr (sets !! "reference");
  inr (mkLedgerSet ledger_id branch_id member_id group_id transaction_id date
         debit credit balance description reference).

(** The cast [$set] applied to the matched document. *)
Definition applySet (u : LedgerSet) (e : Ledger.t) : Ledger.t :=
  Ledger.mk (Ledger._id e)
    (default (Ledger.ledger_id e) (set_ledger_id u))
    (default (Ledger.branch_id e) (set_branch_id u))
    (default (Ledger.member_id e) (set_member_id u))
    (match set_group_id u with Some g => Some g | None => Ledger.group_id e end)
    (default (Ledger.transaction_id e) (set_transaction_id u))
    (default (Ledger.date e) (set_date u))
    (default (Ledger.debit e) (set_debit u))
    (default (Ledger.credit e) (set_credit u))
    (default (Ledger.balance e) (set_balance u))
    (match set_description u with Some d => Some d | None => Ledger.description e end)
    (match set_reference u with Some r => Some r | None => Ledger.reference e end).

Definition setLedgers (s : Store) (l : list Ledger.t) : Store :=
  mkStore (branches s) (employees s) (members s) (schemes s) (groups s)
    (transactions s) l (installments s) (receipts s) (nextObjectId s).

(** [PUT /api/ledgers/:id].  The update is written by [findOneAndUpdate];
    the answer is then serialised with the populated transaction, and an
    error there reaches the [catch] block with the write already done. *)
Definition updateLedgerEntry (p : IdParam) (body : gmap string Value) (s : Store)
    : option (Response Ledger.t * Store) :=
  (* Prevent updating certain fields *)
  let updateData :=
    delete "balance" (delete "transaction_id" (delete "member_id"
      (delete "branch_id" (delete "ledger_id" body)))) in
  sets ← castUpdate updateData;
  Some
    match castSet sets with
    | inl error_message => (fail 400 error_message, s)
    | inr update =>
        match findOneByParam Ledger._id p (ledgers s) with
        | inl error_message => (fail 400 error_message, s)
        | inr None => (fail 404 "Ledger entry not found", s)
        | inr (Some found) =>
            let ledgerEntry := applySet update found in
            let s' := setLedgers s (replaceDoc Ledger._id ledgerEntry (ledgers s)) in
            if serialises s' ledgerEntry then (ok 200 ledgerEntry, s')
            else
              (fail 400 "Cannot read properties of undefined (reading 'toLocaleString')",
               s')
        end
    end.

End LedgerController.

(** ** Transaction model and controller *)

Module TransactionController.
Import Transaction.

Definition blank (x : option string) : bool :=
  bool_decide (x = None) || bool_decide (x = Some "").

(** The [required] paths of TransactionSchema, conditions included. *)
Definition requiredPaths (t : Transaction.t) : Thrown unit :=
  if bool_decide (member_id t = None)
     && negb (bool_decide (transaction_type t ∈ [Commission; Other]))
  then inl "Transaction validation failed: member_id: Path `member_id` is required."
  else if bool_decide (group_id t = None)
          && bool_decide (transaction_type t ∈ [Installment; Auction])
  then inl "Transaction validation failed: group_id: Path `group_id` is required."
  else if blank (description t) && bool_decide (transaction_type t = Other)
  then inl "Transaction validation failed: description: Path `description` is required."
  else if blank (reference_id t)
          && bool_decide (payment_mode t ∈ [Cheque; Online; BankTransfer])
  then inl "Transaction validation failed: reference_id: Path `reference_id` is required."
  else inr ().

(** [min: 0.01] and the custom validator of [amount]. *)
Definition validateAmount (t : Transaction.t) : Thrown unit :=
  if bool_decide (amount t < Q2Qc (1 # 100))%Qc
  then inl "Transaction validation failed: amount: Path `amount` is less than minimum allowed value (0.01)."
  else if bool_decide (transaction_type t ∈ [Withdrawal; Deposit])
          && negb (bool_decide (0 < amount t)%Qc)
  then inl "Transaction validation failed: amount: Amount must be positive for withdrawals and deposits"
  else inr ().

Definition validateDate (clk : Clock) (t : Transaction.t) : Thrown unit :=
  if transaction_date t <=? now clk then inr ()
  else inl "Transaction validation failed: transaction_date: Transaction date cannot be in the future".

(** Validate payment reference for non-cash transactions *)
Definition preSaveReference (t : Transaction.t) : Thrown unit :=
  if negb (bool_decide (payment_mode t = Cash)) && blank (reference_id t)
  then inl "Reference ID is required for non-cash payments"
  else inr ().

Definition setTransactions (s : Store) (l : list Transaction.t) (next : ObjectId) : Store :=
  mkStore (branches s) (employees s) (members s) (schemes s) (groups s)
    l (ledgers s) (installments s) (receipts s) next.

(** [Transaction.create(fields)] where [fields] carries neither [_id] nor
    [transaction_id]: validation, the two [pre('save')] hooks, then the
    insertion under the unique index. *)
Definition Transaction_create (clk : Clock) (s : Store) (fields : Transaction.t)
    : Thrown (Transaction.t * Store) :=
  _ ← requiredPaths fields;
  _ ← validateAmount fields;
  _ ← validateDate clk fields;
  let ids := transaction_id <$> transactions s in
  let newId := TransactionSchema_preSave (fullYear clk) ids true "" in
  _ ← preSaveReference fields;
  if bool_decide (newId ∈ ids) then inl "E11000 duplicate key error"
  else
    let doc :=
      mk (nextObjectId s) newId (branch_id fields) (member_id fields)
        (group_id fields) (transaction_type fields) (amount fields)
        (transaction_date fields) (description fields) (payment_mode fields)
        (reference_id fields) (recorded_by fields) (status fields)
        (related_transaction fields) in
    inr (doc, setTransactions s (transactions s ++ [doc]) (S (nextObjectId s))).

(** [doc.save()] on a loaded transaction whose [status] and
    [related_transaction] were assigned: the validators of all paths run
    again, then the hooks. *)
Definition Transaction_save (clk : Clock) (s : Store) (t : Transaction.t)
    : Thrown Store :=
  _ ← requiredPaths t;
  _ ← validateAmount t;
  _ ← validateDate clk t;
  _ ← preSaveReference t;
  inr (setTransactions s (replaceDoc _id t (transactions s)) (nextObjectId s)).

Record ReversalPair := mkReversalPair { original : Transaction.t; reversal : Transaction.t }.

(** [POST /api/transactions/:id/reverse] *)
Definition reverseTransaction (clk : Clock) (p : IdParam) (s : Store)
    : Response ReversalPair * Store :=
  match findOneByParam _id p (transactions s) with
  | inl error_message => (fail 400 error_message, s)
  | inr None => (fail 404 "Transaction not found", s)
  | inr (Some original) =>
      if bool_decide (status original = Reversed)
      then (fail 400 "Transaction already reversed", s)
      else
        (* Create reversal transaction *)
        let fields :=
          mk 0%nat "" (branch_id original) (member_id original)
            (group_id original) (transaction_type original)
            (- amount original)%Qc (transaction_date original)
            (Some ("Reversal of " +:+ transaction_id original))
            (payment_mode original) (reference_id original)
            (recorded_by original) Completed (Some (_id original)) in
        match Transaction_create clk s fields with
        | inl error_message => (fail 400 error_message, s)
        | inr (reversal, s1) =>
            (* Update original transaction *)
            let original' :=
              mk (_id original) (transaction_id original) (branch_id original)
                (member_id original) (group_id original)
                (transaction_type original) (amount original)
                (transaction_date original) (description original)
                (payment_mode original) (reference_id original)
                (recorded_by original) Reversed (Some (_id reversal)) in
            match Transaction_save clk s1 original' with
            | inl error_message => (fail 400 error_message, s1)
            | inr s2 =>
                (okMsg 201 (mkReversalPair original' reversal)
                   "Transaction reversed successfully", s2)
            end
        end
  end.

End TransactionController.

(** ** Installment model and controller *)

Module InstallmentController.
Import Installment.

Definition falsyNumber (x : option Z) : bool :=
  bool_decide (x = None) || bool_decide (x = Some 0).

(** The greatest [installment_number] among [l]; a missing number sorts
    lowest. *)
Definition lastByNumber (l : list Installment.t) : option Installment.t :=
  foldr (fun d acc =>
           match acc with
           | None => Some d
           | Some m =>
               match installment_number m, installment_number d with
               | Some a, Some b => if a <? b then Some d else Some m
               | None, Some _ => Some d
               | _, None => Some m
               end
           end) None l.

(** The status assignments of the hook, on the paths they read. *)
Definition deriveStatus (now due_date : Date) (amount paid_amount pending_amount : Number)
    (status : Status) : Status :=
  (* Set status based on payment *)
  let status :=
    if negb (bool_decide (paid_amount = 0%Qc)) && bool_decide (0 < paid_amount)%Qc then
      if bool_decide (pending_amount ≤ 0)%Qc then Paid
      else if bool_decide (paid_amount < amount)%Qc then Partial
      else status
    else status in
  (* If due date has passed and not fully paid, mark as Late *)
  if (due_date <? now) && bool_decide (0 < pending_amount)%Qc then Late
  else status.

Definition periodLabel (f : Scheme.Frequency) (n : option Z) : string :=
  match f with
  | Scheme.Monthly => "Month " +:+ Js.toString n
  | Scheme.Weekly => "Week " +:+ Js.toString n
  | Scheme.Biweekly => "Biweek " +:+ Js.toString n
  end.

(** [InstallmentSchema.pre('save')] *)
Definition InstallmentSchema_preSave (clk : Clock) (s : Store) (isNew : bool)
    (this : Installment.t) : Installment.t :=
  (* Generate installment_id if it's a new document *)
  let installment_id :=
    if isNew && bool_decide (installment_id this = "")
    then nextSequentialId "INS" (Installment.installment_id <$> installments s)
    else installment_id this in
  (* Auto-increment installment_number for this member in this group *)
  let installment_number :=
    if isNew && falsyNumber (installment_number this) then
      match lastByNumber
              (List.filter (fun d => bool_decide (group_id d = group_id this)
                                && bool_decide (member_id d = member_id this))
                 (installments s)) with
      | Some lastInstallment => Js.succ (Installment.installment_number lastInstallment)
      | None => Some 1
      end
    else installment_number this in
  (* Calculate pending amount *)
  let pending_amount := (amount this - paid_amount this)%Qc in
  let status :=
    deriveStatus (now clk) (due_date this) (amount this) (paid_amount this)
      pending_amount (status this) in
  (* Generate installment period based on scheme and installment number *)
  let installment_period :=
    if isNew && TransactionController.blank (installment_period this) then
      match findById Scheme._id (scheme_id this) (schemes s) with
      | Some scheme =>
          Some (periodLabel (Scheme.auction_frequency scheme) installment_number)
      | None => installment_period this
      end
    else installment_period this in
  mk (_id this) installment_id (group_id this) (member_id this) (scheme_id this)
    installment_number installment_period (due_date this) (amount this)
    (paid_date this) (paid_amount this) pending_amount status (late_fee this)
    (collected_by this) (payment_mode this) (transaction_id this).

Definition setInstallments (s : Store) (l : list Installment.t) : Store :=
  mkStore (branches s) (employees s) (members s) (schemes s) (groups s)
    (transactions s) (ledgers s) l (receipts s) (nextObjectId s).

(** [installment.save()] on a loaded document. *)
Definition Installment_save (clk : Clock) (s : Store) (d : Installment.t)
    : Installment.t * Store :=
  let d' := InstallmentSchema_preSave clk s false d in
  (d', setInstallments s (replaceDoc _id d' (installments s))).

(** [Receipt.create({...})]: the [RCP] id, the branch lookup of the hook
    and the unique index. *)
Definition Receipt_create (clk : Clock) (s : Store) (branch member : ObjectId)
    (group : option ObjectId) (amount : Number) (mode : option PaymentMode)
    (received_by : ObjectId) (remarks : string) : Thrown (Receipt.t * Store) :=
  let ids := Receipt.receipt_id <$> receipts s in
  let newId := nextSequentialId "RCP" ids in
  match findById Branch._id branch (branches s) with
  | None => inl "Cannot read properties of null (reading 'bname')"
  | Some _ =>
      if bool_decide (newId ∈ ids) then inl "E11000 duplicate key error"
      else
        let doc := Receipt.mk (nextObjectId s) newId branch member group (now clk)
                     amount (orElse mode Cash) received_by remarks
                     Receipt.Completed in
        inr (doc, mkStore (branches s) (employees s) (members s) (schemes s)
                    (groups s) (transactions s) (ledgers s) (installments s)
                    (receipts s ++ [doc]) (S (nextObjectId s)))
  end.

Definition msPerDay : Z := 1000 * 60 * 60 * 24.

(** [Math.ceil(a / b)] on integers, [b > 0]. *)
Definition ceilDiv (a b : Z) : Z := - ((- a) / b).

(** [scheme?.late_fee_rate || 0.02]: no scheme document has a
    [late_fee_rate], so the left operand is [undefined] whether or not the
    scheme was found. *)
Definition lateFeeRate (scheme : option Scheme.t) : Number := Q2Qc (2 # 100).

(** Calculate late fee if payment is late *)
Definition computeLateFee (clk : Clock) (s : Store) (installment : Installment.t) : Number :=
  if due_date installment <? now clk then
    let daysLate := ceilDiv (now clk - due_date installment) msPerDay in
    (* Get scheme to determine late fee rate *)
    let scheme := findById Scheme._id (scheme_id installment) (schemes s) in
    (amount installment * lateFeeRate scheme * num daysLate)%Qc
  else 0%Qc.

(** [req.body] of [POST /api/installments/:id/pay]; [paid_amount] is the
    value as sent, absent when [None]. *)
Record PayBody := mkPayBody {
  body_paid_amount : option Json;
  body_payment_mode : option PaymentMode;
  body_collected_by : option ObjectId;
  receipt_remarks : option string
}.

Record Payment := mkPayment { paid_installment : Installment.t; paid_receipt : Receipt.t }.

(** [(installment.paid_amount || 0) + paid_amount], assigned to a Number
    path. *)
Definition addPayment (paid : Number) (v : Json) : option Number :=
  JsValue.plus paid v ≫= JsValue.number.

(** [POST /api/installments/:id/pay]; [employee] is [req.employee._id].
    [None] when the request reaches the arithmetic with a [paid_amount] that
    is not interpreted here. *)
Definition recordPayment (clk : Clock) (employee : ObjectId) (p : IdParam)
    (b : PayBody) (s : Store) : option (Response Payment * Store) :=
  match findOneByParam _id p (installments s) with
  | inl error_message => Some (fail 400 error_message, s)
  | inr None => Some (fail 404 "Installment not found", s)
  | inr (Some installment) =>
      if bool_decide (status installment = Installment.Paid)
         && bool_decide (pending_amount installment ≤ 0)%Qc
      then Some (fail 400 "Installment already fully paid", s)
      else
        let lateFee := computeLateFee clk s installment in
        raw ← body_paid_amount b;
        (* Update installment *)
        paid_amount' ← addPayment (paid_amount installment) raw;
        received ← JsValue.number raw;
        let status' :=
          if bool_decide (pending_amount installment ≤ received)%Qc
          then Installment.Paid
          else if bool_decide (0 < paid_amount')%Qc then Partial else Pending in
        let collector := orElse (body_collected_by b) employee in
        let updated :=
          mk (_id installment) (installment_id installment)
            (group_id installment) (member_id installment)
            (scheme_id installment) (installment_number installment)
            (installment_period installment) (due_date installment)
            (amount installment) (Some (now clk)) paid_amount'
            (pending_amount installment) status' lateFee (Some collector)
            (body_payment_mode b) (transaction_id installment) in
        let '(saved, s1) := Installment_save clk s updated in
        (* Create receipt *)
        Some
          match findById Member._id (member_id saved) (members s1) with
          | None => (fail 400 "Cannot read properties of null (reading 'branch_id')", s1)
          | Some member =>
              let remarks :=
                match receipt_remarks b with
                | Some r => if bool_decide (r = "") then None else Some r
                | None => None
                end in
              match Receipt_create clk s1 (Member.branch_id member)
                      (member_id saved) (Some (group_id saved))
                      received (body_payment_mode b) collector
                      (orElse remarks
                         ("Payment for "
                          +:+ orElse (installment_period saved) "undefined"
                          +:+ " installment")) with
              | inl error_message => (fail 400 error_message, s1)
              | inr (receipt, s2) =>
                  (okMsg 200 (mkPayment saved receipt) "Payment recorded successfully", s2)
              end
          end
  end.

End InstallmentController.

(** ** Group model and controller *)

(** The Member collection, under a name that [Group.members] does not hide. *)
Definition memberDocs (s : Store) : list Member.t := members s.

Module GroupController.
Import Group.

(** Validation of the [members] sub-documents: [payout_month] has [min: 1]. *)
Definition validateMembers (g : Group.t) : Thrown unit :=
  if forallb (fun m => bool_decide (1 ≤ payout_month m)%Qc) (members g) then inr ()
  else inl "Group validation failed: payout_month is less than minimum allowed value (1).".

(** Validation to ensure unique payout months and check against scheme
    duration ([groupSchema.pre('save')]). *)
Definition preSavePayoutMonths (s : Store) (g : Group.t) : Thrown unit :=
  let payoutMonths := payout_month <$> members g in
  if negb (bool_decide (NoDup payoutMonths))
  then inl "Duplicate payout months not allowed"
  else
    match findById Scheme._id (scheme_id g) (schemes s) with
    | None => inl "Referenced scheme not found"
    | Some scheme =>
        if forallb (fun m => negb (bool_decide
                                    (Scheme.duration_months scheme < payout_month m)%Qc))
             (members g)
        then inr ()
        else inl "Payout month exceeds scheme duration"
    end.

Definition setGroups (s : Store) (l : list Group.t) : Store :=
  mkStore (branches s) (employees s) (memberDocs s) (schemes s) l
    (transactions s) (ledgers s) (installments s) (receipts s) (nextObjectId s).

(** [group.save()] on a loaded group. *)
Definition Group_save (s : Store) (g : Group.t) : Thrown Store :=
  _ ← validateMembers g;
  _ ← preSavePayoutMonths s g;
  inr (setGroups s (replaceDoc _id g (groups s))).

Record AddBody := mkAddBody {
  body_member_id : ObjectId;
  body_payout_month : option Number
}.

(** [POST /api/groups/:id/members] *)
Definition addGroupMember (clk : Clock) (p : IdParam) (b : AddBody) (s : Store)
    : Response Group.t * Store :=
  (* Validate member exists *)
  match findById Member._id (body_member_id b) (memberDocs s) with
  | None => (fail 404 "Member not found", s)
  | Some _ =>
      match findOneByParam _id p (groups s) with
      | inl error_message => (fail 400 error_message, s)
      | inr None => (fail 404 "Group not found", s)
      | inr (Some group) =>
          (* Check if member already in group *)
          if existsb (fun m => bool_decide (member_id m = body_member_id b)) (members group)
          then (fail 400 "Member already in group", s)
          (* Check if payout month is available *)
          else if existsb (fun m => bool_decide (Some (payout_month m) = body_payout_month b))
                    (members group)
          then (fail 400 "Payout month already assigned", s)
          else
            (* Update status if reaching minimum members *)
            match findById Scheme._id (scheme_id group) (schemes s) with
            | None => (fail 400 "Cannot read properties of null (reading 'min_members')", s)
            | Some scheme =>
                match body_payout_month b with
                | None =>
                    (fail 400 "Group validation failed: payout_month: Path `payout_month` is required.", s)
                | Some month =>
                    (* Add member to group *)
                    let members' :=
                      members group ++ [mkMember (body_member_id b) (now clk) month false] in
                    let status' :=
                      if bool_decide (Scheme.min_members scheme ≤ num (Z.of_nat (length members')))%Qc
                         && bool_decide (status group = Forming)
                      then Active else status group in
                    let group' :=
                      mk (_id group) (group_id group) (branch_id group)
                        (scheme_id group) (start_date group) status' members'
                        (current_month group) in
                    match Group_save s group' with
                    | inl error_message => (fail 400 error_message, s)
                    | inr s' => (ok 201 group', s')
                    end
                end
            end
      end
  end.

End GroupController.

(** ** Decidable equality of the documents *)

#[global] Instance Branch_eq_dec : EqDecision Branch.t.
Proof. solve_decision. Defined.
#[global] Instance Employee_eq_dec : EqDecision Employee.t.
Proof. solve_decision. Defined.
#[global] Instance Member_eq_dec : EqDecision Member.t.
Proof. solve_decision. Defined.
#[global] Instance Frequency_eq_dec : EqDecision Scheme.Frequency.
Proof. solve_decision. Defined.
#[global] Instance Scheme_eq_dec : EqDecision Scheme.t.
Proof. solve_decision. Defined.
#[global] Instance GroupMember_eq_dec : EqDecision Group.member.
Proof. solve_decision. Defined.
#[global] Instance Group_eq_dec : EqDecision Group.t.
Proof. solve_decision. Defined.
#[global] Instance Transaction_eq_dec : EqDecision Transaction.t.
Proof. solve_decision. Defined.
#[global] Instance Ledger_eq_dec : EqDecision Ledger.t.
Proof. solve_decision. Defined.
#[global] Instance Installment_eq_dec : EqDecision Installment.t.
Proof. solve_decision. Defined.
#[global] Instance ReceiptStatus_eq_dec : EqDecision Receipt.Status.
Proof. solve_decision. Defined.
#[global] Instance Receipt_eq_dec : EqDecision Receipt.t.
Proof. solve_decision. Defined.
#[global] Instance Store_eq_dec : EqDecision Store.
Proof. solve_decision. Defined.
#[global] Instance Response_eq_dec {A} `{EqDecision A} : EqDecision (Response A).
Proof. solve_decision. Defined.

(** ** Vocabulary of the statements *)

(** The stored document that carries the code [x].  This names a document
    in a statement; no handler finds a document by its code. *)
Definition findByCode {D} (code : D -> string) (x : string) (c : list D) : option D :=
  List.find (fun d => bool_decide (code d = x)) c.

(** The ledger entries of member [m], in creation order. *)
Definition entriesOf (m : ObjectId) (s : Store) : list Ledger.t :=
  filter (fun e => Ledger.member_id e = m) (ledgers s).

(** The balance before the [i]-th entry of [es]: that of the entry created
    just before it, [0] before the first. *)
Definition balanceBefore (es : list Ledger.t) (i : nat) : Number :=
  match i with
  | O => 0%Qc
  | S j => default 0%Qc (Ledger.balance <$> es !! j)
  end.

Fixpoint balanceChain (prev : Number) (es : list Ledger.t) : Prop :=
  match es with
  | [] => True
  | e :: es' =>
      Ledger.balance e = (prev + Ledger.credit e - Ledger.debit e)%Qc
      /\ balanceChain (Ledger.balance e) es'
  end.

(** The five paths of a ledger entry that [updateLedgerEntry] means to
    protect. *)
Definition sameProtected (e e' : Ledger.t) : Prop :=
  Ledger.ledger_id e' = Ledger.ledger_id e
  /\ Ledger.branch_id e' = Ledger.branch_id e
  /\ Ledger.member_id e' = Ledger.member_id e
  /\ Ledger.transaction_id e' = Ledger.transaction_id e
  /\ Ledger.balance e' = Ledger.balance e.

(** A [debit] or [credit] sent as a JSON number, or left out. *)
Definition sentAsNumber (v : option Json) : Prop :=
  match v with
  | None | Some (JNum _) => True
  | _ => False
  end.

(** The balance an entry started from. *)
Definition preEntryBalance (e : Ledger.t) : Number :=
  (Ledger.balance e - Ledger.credit e + Ledger.debit e)%Qc.

Fixpoint allDigits (s : string) : bool :=
  match s with
  | EmptyString => true
  | String c s' => bool_decide (is_Some (Js.digitValue c)) && allDigits s'
  end.

(** The ids [<PREFIX>001 .. <PREFIX>k] in creation order. *)
Definition idsUpTo (prefix : string) (k : nat) : list string :=
  (fun i => prefix +:+ Js.padStart 3 "0" (Js.decimal (Z.of_nat i))) <$> seq 1 k.

(** ** A small branch used by the examples *)

Module Demo.

Definition day (k : Z) : Date := k * InstallmentController.msPerDay.

Definition store : Store :=
  mkStore
    [Branch.mk 1 "BRN001" "Main"]
    [Employee.mk 9 "EMP001"]
    [Member.mk 2 "MEM001" 1 "Asha"; Member.mk 3 "MEM002" 1 "Ravi";
     Member.mk 5 "MEM003" 1 "Devi"]
    [Scheme.mk 6 "SCH001" (num 10) (num 2) (num 10) Scheme.Monthly]
    [Group.mk 7 "GRP001" 1 6 0 Group.Forming
       [Group.mkMember 2 0 (num 1) false] (num 1)]
    [Transaction.mk 4 "TXN25001" 1 (Some 2%nat) None Transaction.Deposit
       (num 100) 0 None Cash None 9 Transaction.Completed None]
    []
    [Installment.mk 8 "INS001" 7 2 6 (Some 1) (Some "Month 1") (day 10)
       (num 1000) None 0 (num 1000) Installment.Pending 0 None None None;
     Installment.mk 11 "INS002" 7 2 6 (Some 2) (Some "Month 2") (day 40)
       (num 1000) (Some (day 35)) (num 1000) 0 Installment.Paid 0
       (Some 9%nat) (Some Cash) None]
    []
    20.

Definition deposit (m : ObjectId) (debit credit : option Json)
    : LedgerController.CreateBody :=
  LedgerController.mkCreateBody (Some 1%nat) (Some m) None (Some 4%nat)
    debit credit None None.

(** Three postings: 100 in for Asha, 70 in for Ravi, 30 out for Asha. *)
Definition postings : list (Clock * LedgerController.CreateBody) :=
  [(mkClock (day 1) 2025, deposit 2 None (Some (JNum (num 100))));
   (mkClock (day 2) 2025, deposit 3 None (Some (JNum (num 70))));
   (mkClock (day 3) 2025, deposit 2 (Some (JNum (num 30))) None)].

Definition posted : Store :=
  default store (LedgerController.createLedgerEntries postings store).

(** The same ledger once the transaction behind the postings has been
    deleted. *)
Definition postedUnreferenced : Store :=
  TransactionController.setTransactions posted [] (nextObjectId posted).

(** A fourth posting for Asha, whose credit of 50 is sent as the JSON string
    ["50"]. *)
Definition creditAsString : LedgerController.CreateBody :=
  deposit 2 None (Some (JStr "50")).

(** [{ "$set": { "balance": 0 } }] *)
Definition setBalanceBody : gmap string LedgerController.Value :=
  {[ "$set" := LedgerController.VObj {[ "balance" := LedgerController.VNum 0 ]} ]}.

(** A zero-amount installment as [Installment.create] builds it. *)
Definition zeroInstallment : Installment.t :=
  Installment.mk 20 "" 7 2 6 None None (day 90) 0 None 0 0
    Installment.Pending 0 (Some 9%nat) None None.

End Demo.

(** ** Group controller: creation, removal of a member, monthly advance *)

Module GroupLifecycle.
Import Group GroupController.

(** One element of [req.body.members]. *)
Record BodyMember := mkBodyMember {
  bm_member_id : ObjectId;
  bm_payout_month : option Number;
  bm_join_date : option Date;
  bm_payout_received : option bool
}.

(** [req.body] of [POST /api/groups]. *)
Record CreateBody := mkCreateBody {
  body_group_id : option string;
  body_branch_id : option ObjectId;
  body_scheme_id : option ObjectId;
  body_start_date : option Date;
  body_status : option Status;
  body_members : option (list BodyMember);
  body_current_month : option Number
}.

(** [Member.countDocuments({ _id: { $in: memberIds } })] *)
Definition countMembersIn (memberIds : list ObjectId) (s : Store) : nat :=
  length (filter (fun m => Member._id m ∈ memberIds) (memberDocs s)).

(** Helper function to validate references *)
Definition validateReferences (branchId schemeId : option ObjectId)
    (memberIds : list ObjectId) (s : Store) : Thrown unit :=
  if bool_decide (branchId ≫= (fun i => findById Branch._id i (branches s)) = None)
  then inl "Branch not found"
  else if bool_decide (schemeId ≫= (fun i => findById Scheme._id i (schemes s)) = None)
  then inl "Scheme not found"
  else if bool_decide (0 < length memberIds)%nat
          && negb (bool_decide (countMembersIn memberIds s = length memberIds))
  then inl "One or more members not found"
  else inr ().

(** The [members] array of a new group after casting: a sub-document
    without [payout_month] fails validation. *)
Fixpoint castMembers (now : Date) (l : list BodyMember) : Thrown (list member) :=
  match l with
  | [] => inr []
  | m :: l' =>
      match bm_payout_month m with
      | None => inl "Group validation failed: payout_month: Path `payout_month` is required."
      | Some month =>
          rest ← castMembers now l';
          inr (mkMember (bm_member_id m) (orElse (bm_join_date m) now) month
                 (orElse (bm_payout_received m) false) :: rest)
      end
  end.

(** [Group.create({...})]: validation, the two [pre('save')] hooks and the
    unique index on [group_id]. *)
Definition Group_create (clk : Clock) (s : Store) (b : CreateBody)
    (branch scheme : ObjectId) : Thrown (Group.t * Store) :=
  match body_start_date b with
  | None => inl "Group validation failed: start_date: Path `start_date` is required."
  | Some start =>
      members ← castMembers (now clk) (orElse (body_members b) []);
      let ids := group_id <$> groups s in
      let newId := preSaveId "GRP" ids true (orElse (body_group_id b) "") in
      let doc := mk (nextObjectId s) newId branch scheme start
                   (orElse (body_status b) Forming) members
                   (orElse (body_current_month b) 1%Qc) in
      _ ← validateMembers doc;
      _ ← preSavePayoutMonths s doc;
      if bool_decide (newId ∈ ids) then inl "E11000 duplicate key error"
      else inr (doc, mkStore (branches s) (employees s) (memberDocs s) (schemes s)
                       (groups s ++ [doc]) (transactions s) (ledgers s)
                       (installments s) (receipts s) (S (nextObjectId s)))
  end.

(** [POST /api/groups] *)
Definition createGroup (clk : Clock) (b : CreateBody) (s : Store)
    : Response Group.t * Store :=
  let memberIds := bm_member_id <$> orElse (body_members b) [] in
  match validateReferences (body_branch_id b) (body_scheme_id b) memberIds s with
  | inl error_message => (fail 400 error_message, s)
  | inr _ =>
      match body_branch_id b, body_scheme_id b with
      | Some branch, Some scheme =>
          match Group_create clk s b branch scheme with
          | inl error_message => (fail 400 error_message, s)
          | inr (group, s') => (ok 201 group, s')
          end
      | _, _ => (fail 400 "Branch not found", s)
      end
  end.

(** [DELETE /api/groups/:id/members/:memberId] *)
Definition removeGroupMember (p : IdParam) (memberId : ObjectId) (s : Store)
    : Response Group.t * Store :=
  match findOneByParam _id p (groups s) with
  | inl error_message => (fail 400 error_message, s)
  | inr None => (fail 404 "Group not found", s)
  | inr (Some group) =>
      (* Find member index *)
      match list_find (fun m => member_id m = memberId) (members group) with
      | None => (fail 404 "Member not found in group", s)
      | Some (memberIndex, _) =>
          (* Remove member *)
          let members' := delete memberIndex (members group) in
          (* Update status if below minimum members *)
          match findById Scheme._id (scheme_id group) (schemes s) with
          | None => (fail 400 "Cannot read properties of null (reading 'min_members')", s)
          | Some scheme =>
              let status' :=
                if bool_decide (num (Z.of_nat (length members')) < Scheme.min_members scheme)%Qc
                   && bool_decide (status group = Active)
                then Forming else status group in
              let group' :=
                mk (_id group) (group_id group) (branch_id group) (scheme_id group)
                  (start_date group) status' members' (current_month group) in
              match Group_save s group' with
              | inl error_message => (fail 400 error_message, s)
              | inr s' => (ok 200 group', s')
              end
          end
      end
  end.

(** [POST /api/groups/:id/advance]; the message of the second success
    response interpolates the month and is left out. *)
Definition advanceGroupMonth (p : IdParam) (s : Store) : Response Group.t * Store :=
  match findOneByParam _id p (groups s) with
  | inl error_message => (fail 400 error_message, s)
  | inr None => (fail 404 "Group not found", s)
  | inr (Some group) =>
      if negb (bool_decide (status group = Active))
      then (fail 400 "Group is not active", s)
      else
        (* [.populate('scheme_id', 'duration_months')] *)
        match findById Scheme._id (scheme_id group) (schemes s) with
        | None => (fail 400 "Cannot read properties of null (reading 'duration_months')", s)
        | Some scheme =>
            (* Check if already completed *)
            if bool_decide (Scheme.duration_months scheme ≤ current_month group)%Qc then
              let group' :=
                mk (_id group) (group_id group) (branch_id group) (scheme_id group)
                  (start_date group) Completed (members group) (current_month group) in
              match Group_save s group' with
              | inl error_message => (fail 400 error_message, s)
              | inr s' => (okMsg 200 group' "Group has completed its duration", s')
              end
            else
              (* Advance to next month *)
              let group' :=
                mk (_id group) (group_id group) (branch_id group) (scheme_id group)
                  (start_date group) (status group) (members group)
                  (current_month group + 1)%Qc in
              match Group_save s group' with
              | inl error_message => (fail 400 error_message, s)
              | inr s' => (ok 200 group', s')
              end
        end
  end.

(** The requests that write groups through [save]. *)
Inductive Request :=
| CreateGroup (clk : Clock) (b : CreateBody)
| AddGroupMember (clk : Clock) (p : IdParam) (b : AddBody)
| RemoveGroupMember (p : IdParam) (memberId : ObjectId)
| AdvanceGroupMonth (p : IdParam).

Definition handle (r : Request) (s : Store) : Store :=
  match r with
  | CreateGroup clk b => (createGroup clk b s).2
  | AddGroupMember clk p b => (addGroupMember clk p b s).2
  | RemoveGroupMember p memberId => (removeGroupMember p memberId s).2
  | AdvanceGroupMonth p => (advanceGroupMonth p s).2
  end.

Definition handleAll (rs : list Request) (s : Store) : Store :=
  foldl (fun s r => handle r s) s rs.

(** [n] consecutive [advanceGroupMonth] requests. *)
Definition advanceTimes (n : nat) (p : IdParam) (s : Store) : Store :=
  handleAll (replicate n (AdvanceGroupMonth p)) s.

End GroupLifecycle.

(** ** Installment controller: creation *)

Module InstallmentCreation.
Import Installment InstallmentController.

(** [req.body] of [POST /api/installments]. *)
Record CreateBody := mkCreateBody {
  body_group_id : option ObjectId;
  body_member_id : option ObjectId;
  body_scheme_id : option ObjectId;
  body_collected_by : option ObjectId;
  body_installment_id : option string;
  body_installment_number : option Z;
  body_installment_period : option string;
  body_due_date : option Date;
  body_amount : option Number;
  body_paid_date : option Date;
  body_paid_amount : option Number;
  body_status : option Status;
  body_late_fee : option Number;
  body_payment_mode : option PaymentMode;
  body_transaction_id : option string
}.

(** Helper function to validate references *)
Definition validateReferences (groupId memberId schemeId : option ObjectId)
    (collectedById : ObjectId) (s : Store) : Thrown (Group.t * Member.t) :=
  match groupId ≫= (fun i => findById Group._id i (groups s)) with
  | None => inl "Group not found"
  | Some group =>
      match memberId ≫= (fun i => findById Member._id i (members s)) with
      | None => inl "Member not found"
      | Some member =>
          if bool_decide (schemeId ≫= (fun i => findById Scheme._id i (schemes s)) = None)
          then inl "Scheme not found"
          else if bool_decide (findById Employee._id collectedById (employees s) = None)
          then inl "Collecting employee not found"
          else inr (group, member)
      end
  end.

(** [Installment.create({...})]: the required paths, the defaults, the
    [pre('save')] hook and the unique index on [installment_id]. *)
Definition Installment_create (clk : Clock) (s : Store) (b : CreateBody)
    (group member scheme collector : ObjectId) : Thrown (Installment.t * Store) :=
  match body_due_date b, body_amount b with
  | None, _ => inl "Installment validation failed: due_date: Path `due_date` is required."
  | _, None => inl "Installment validation failed: amount: Path `amount` is required."
  | Some due, Some amount =>
      let paid := orElse (body_paid_amount b) 0%Qc in
      let doc :=
        InstallmentSchema_preSave clk s true
          (mk (nextObjectId s) (orElse (body_installment_id b) "") group member
             scheme (body_installment_number b) (body_installment_period b) due
             amount (body_paid_date b) paid (amount - paid)%Qc
             (orElse (body_status b) Pending) (orElse (body_late_fee b) 0%Qc)
             (Some collector) (Some (orElse (body_payment_mode b) Cash))
             (body_transaction_id b)) in
      if bool_decide (installment_id doc ∈ (installment_id <$> installments s))
      then inl "E11000 duplicate key error"
      else inr (doc, mkStore (branches s) (employees s) (members s) (schemes s)
                       (groups s) (transactions s) (ledgers s)
                       (installments s ++ [doc]) (receipts s) (S (nextObjectId s)))
  end.

(** [POST /api/installments]; [employee] is [req.employee._id]. *)
Definition createInstallment (clk : Clock) (employee : ObjectId) (b : CreateBody)
    (s : Store) : Response Installment.t * Store :=
  let collector := orElse (body_collected_by b) employee in
  match validateReferences (body_group_id b) (body_member_id b) (body_scheme_id b)
          collector s with
  | inl error_message => (fail 400 error_message, s)
  | inr (group, member) =>
      (* Verify member belongs to group *)
      if negb (existsb (fun m => bool_decide (Some (Group.member_id m) = body_member_id b))
                 (Group.members group))
      then (fail 400 "Member does not belong to this group", s)
      else
        match body_scheme_id b with
        | None => (fail 400 "Scheme not found", s)
        | Some scheme =>
            match Installment_create clk s b (Group._id group) (Member._id member)
                    scheme collector with
            | inl error_message => (fail 400 error_message, s)
            | inr (installment, s') => (ok 201 installment, s')
            end
        end
  end.


End InstallmentCreation.

(** ** Creating transactions *)

Module TransactionCreation.
Import Transaction TransactionController.

(** [req.body] of [POST /api/transactions]; an absent key is [None]. *)
Record CreateBody := mkCreateBody {
  body__id : option ObjectId;
  body_transaction_id : option string;
  body_branch_id : option ObjectId;
  body_member_id : option ObjectId;
  body_group_id : option ObjectId;
  body_recorded_by : option ObjectId;
  body_transaction_type : option Type_;
  body_amount : option Number;
  body_transaction_date : option Date;
  body_description : option string;
  body_payment_mode : option PaymentMode;
  body_reference_id : option string;
  body_status : option Status;
  body_related_transaction : option ObjectId
}.

(** Helper to validate references *)
Definition validateReferences (s : Store) (branchId memberId groupId : option ObjectId)
    (employeeId : ObjectId) : Thrown unit :=
  if bool_decide (is_Some branchId)
     && bool_decide ((branchId ≫= fun i => findById Branch._id i (branches s)) = None)
  then inl "Branch not found"
  else if bool_decide (is_Some memberId)
          && bool_decide ((memberId ≫= fun i => findById Member._id i (members s)) = None)
  then inl "Member not found"
  else if bool_decide (is_Some groupId)
          && bool_decide ((groupId ≫= fun i => findById Group._id i (groups s)) = None)
  then inl "Group not found"
  else if bool_decide (findById Employee._id employeeId (employees s) = None)
  then inl "Employee not found"
  else inr ().

(** [Transaction.create(body)] for a body that may carry [_id] and
    [transaction_id]: the [required: true] paths, the defaults, then the
    validators and hooks of the schema and the two unique indexes. *)
Definition Transaction_createFrom (clk : Clock) (s : Store) (b : CreateBody)
    (recorder : ObjectId) : Thrown (Transaction.t * Store) :=
  match body_branch_id b, body_transaction_type b, body_amount b with
  | Some branch, Some type, Some value =>
      let fields :=
        mk (orElse (body__id b) (nextObjectId s))
          (orElse (body_transaction_id b) "") branch (body_member_id b)
          (body_group_id b) type value
          (orElse (body_transaction_date b) (now clk)) (body_description b)
          (orElse (body_payment_mode b) Cash) (body_reference_id b)
          recorder (orElse (body_status b) Completed)
          (body_related_transaction b) in
      _ ← requiredPaths fields;
      _ ← validateAmount fields;
      _ ← validateDate clk fields;
      let ids := transaction_id <$> transactions s in
      let newId :=
        TransactionSchema_preSave (fullYear clk) ids true (transaction_id fields) in
      _ ← preSaveReference fields;
      if bool_decide (newId ∈ ids)
         || bool_decide (_id fields ∈ _id <$> transactions s)
      then inl "E11000 duplicate key error"
      else
        let doc :=
          mk (_id fields) newId (branch_id fields) (member_id fields)
            (group_id fields) (transaction_type fields) (amount fields)
            (transaction_date fields) (description fields) (payment_mode fields)
            (reference_id fields) (recorded_by fields) (status fields)
            (related_transaction fields) in
        inr (doc, setTransactions s (transactions s ++ [doc]) (S (nextObjectId s)))
  | None, _, _ =>
      inl "Transaction validation failed: branch_id: Path `branch_id` is required."
  | _, None, _ =>
      inl "Transaction validation failed: transaction_type: Path `transaction_type` is required."
  | _, _, None =>
      inl "Transaction validation failed: amount: Path `amount` is required."
  end.

(** [POST /api/transactions]; [employee] is [req.employee._id]. *)
Definition createTransaction (clk : Clock) (employee : ObjectId) (b : CreateBody)
    (s : Store) : Response Transaction.t * Store :=
  let recorder := orElse (body_recorded_by b) employee in
  let attempt : Thrown (Transaction.t * Store) :=
    (* Validate references *)
    _ ← validateReferences s (body_branch_id b) (body_member_id b)
          (body_group_id b) recorder;
    (* Additional validation based on transaction type *)
    if bool_decide (body_transaction_type b = Some Installment)
       && bool_decide (body_group_id b = None)
    then inl "Group ID is required for installment transactions"
    else if bool_decide (body_transaction_type b ∈ [Some Deposit; Some Withdrawal])
            && bool_decide (body_member_id b = None)
    then inl "Member ID is required for deposit/withdrawal transactions"
    else Transaction_createFrom clk s b recorder in
  match attempt with
  | inl error_message => (fail 400 error_message, s)
  | inr (transaction, s') => (ok 201 transaction, s')
  end.

(** The two requests that write transactions. *)
Inductive Request :=
| CreateTransaction (clk : Clock) (employee : ObjectId) (b : CreateBody)
| ReverseTransaction (clk : Clock) (p : IdParam).

Definition isCreate (r : Request) : bool :=
  match r with CreateTransaction _ _ _ => true | ReverseTransaction _ _ => false end.

(** The status code answered and the store left behind. *)
Definition handle (r : Request) (s : Store) : nat * Store :=
  match r with
  | CreateTransaction clk employee b =>
      let '(res, s') := createTransaction clk employee b s in (statusCode res, s')
  | ReverseTransaction clk p =>
      let '(res, s') := reverseTransaction clk p s in (statusCode res, s')
  end.

(** The requests [rs] one after the other: the codes answered, in order,
    and the final store. *)
Definition handleAll (rs : list Request) (s : Store) : list nat * Store :=
  foldl (fun acc r => let '(code, s') := handle r acc.2 in (acc.1 ++ [code], s'))
    ([], s) rs.

End TransactionCreation.

(** ** Updates behind a filter, and the receipt controller *)

(** [Model.findOneAndUpdate(filter, update, { new: true })]: the first
    document that passes the filter is replaced by its update, which is
    returned with the collection. *)
Fixpoint findOneAndUpdate {D} (filter : D -> bool) (update : D -> D) (c : list D)
    : option (D * list D) :=
  match c with
  | [] => None
  | d :: c' =>
      if filter d then Some (update d, update d :: c')
      else
        match findOneAndUpdate filter update c' with
        | Some (d', c'') => Some (d', d :: c'')
        | None => None
        end
  end.

Module ReceiptController.
Import Receipt.

(** [req.body] of [POST /api/receipts]; an absent key is [None].
    [body_cheque_no] is [cheque_details?.cheque_no]. *)
Record CreateBody := mkCreateBody {
  body__id : option ObjectId;
  body_branch_id : option ObjectId;
  body_member_id : option ObjectId;
  body_group_id : option ObjectId;
  body_transaction_id : option ObjectId;
  body_received_by : option ObjectId;
  body_receipt_date : option Date;
  body_receipt_amount : option Number;
  body_payment_mode : option PaymentMode;
  body_cheque_no : option string;
  body_remarks : option string;
  body_status : option Status
}.

(** Helper function to validate references *)
Definition validateReferences (s : Store) (branchId memberId groupId : option ObjectId)
    (receivedById : ObjectId) (transactionId : option ObjectId) : Thrown unit :=
  if bool_decide ((branchId ≫= fun i => findById Branch._id i (branches s)) = None)
  then inl "Branch not found"
  else if bool_decide ((memberId ≫= fun i => findById Member._id i (members s)) = None)
  then inl "Member not found"
  else if bool_decide (is_Some groupId)
          && bool_decide ((groupId ≫= fun i => findById Group._id i (groups s)) = None)
  then inl "Group not found"
  else if bool_decide (findById Employee._id receivedById (employees s) = None)
  then inl "Receiving employee not found"
  else if bool_decide (is_Some transactionId)
          && bool_decide ((transactionId
                           ≫= fun i => findById Transaction._id i (transactions s)) = None)
  then inl "Transaction not found"
  else inr ().

Definition setReceipts (s : Store) (l : list Receipt.t) (next : ObjectId) : Store :=
  mkStore (branches s) (employees s) (members s) (schemes s) (groups s)
    (transactions s) (ledgers s) (installments s) l next.

(** [Receipt.create(body)]: the [required: true] paths, the defaults, the
    hook (which numbers every new receipt, whatever id the body carries, and
    reads the branch) and the unique indexes.  [Receipt.t] keeps [remarks]
    as a string: an absent one is kept as the empty string. *)
Definition Receipt_createFrom (clk : Clock) (s : Store) (b : CreateBody)
    (receiver : ObjectId) : Thrown (Receipt.t * Store) :=
  match body_branch_id b, body_member_id b, body_receipt_amount b with
  | Some branch, Some member, Some value =>
      let ids := receipt_id <$> receipts s in
      let newId := nextSequentialId "RCP" ids in
      let oid := orElse (body__id b) (nextObjectId s) in
      match findById Branch._id branch (branches s) with
      | None => inl "Cannot read properties of null (reading 'bname')"
      | Some _ =>
          if bool_decide (newId ∈ ids) || bool_decide (oid ∈ _id <$> receipts s)
          then inl "E11000 duplicate key error"
          else
            let doc :=
              mk oid newId branch member (body_group_id b)
                (orElse (body_receipt_date b) (now clk)) value
                (orElse (body_payment_mode b) Cash) receiver
                (orElse (body_remarks b) "") (orElse (body_status b) Completed) in
            inr (doc, setReceipts s (receipts s ++ [doc]) (S (nextObjectId s)))
      end
  | None, _, _ => inl "Receipt validation failed: branch_id: Path `branch_id` is required."
  | _, None, _ => inl "Receipt validation failed: member_id: Path `member_id` is required."
  | _, _, None =>
      inl "Receipt validation failed: receipt_amount: Path `receipt_amount` is required."
  end.

(** [POST /api/receipts]; [employee] is [req.employee._id]. *)
Definition createReceipt (clk : Clock) (employee : ObjectId) (b : CreateBody)
    (s : Store) : Response Receipt.t * Store :=
  let receiver := orElse (body_received_by b) employee in
  (* [transaction_id] was destructured out of the body: [receiptData] has
     no such key *)
  let receiptData_transaction_id : option ObjectId := None in
  let attempt : Thrown (Receipt.t * Store) :=
    (* Validate references *)
    _ ← validateReferences s (body_branch_id b) (body_member_id b)
          (body_group_id b) receiver (body_transaction_id b);
    (* Validate cheque details if payment mode is Cheque *)
    if bool_decide (body_payment_mode b = Some Cheque)
       && TransactionController.blank (body_cheque_no b)
    then inl "Cheque details are required for cheque payments"
    (* Validate online/bank transfer references *)
    else if bool_decide (body_payment_mode b ∈ [Some Online; Some BankTransfer])
            && bool_decide (receiptData_transaction_id = None)
    then inl "Transaction reference is required for online/bank transfer payments"
    else Receipt_createFrom clk s b receiver in
  match attempt with
  | inl error_message => (fail 400 error_message, s)
  | inr (receipt, s') => (ok 201 receipt, s')
  end.

(** [PATCH /api/receipts/:id/cancel]; [remarks] is [req.body.remarks].  The
    answer carries the [receipt_id] and the [status] of the receipt. *)
Definition cancelReceipt (p : IdParam) (remarks : option string) (s : Store)
    : Response (string * Status) * Store :=
  match castParam p with
  | inl error_message => (fail 400 error_message, s)
  | inr i =>
      match findOneAndUpdate
              (fun d => bool_decide (_id d = i)
                        && negb (bool_decide (status d = Cancelled)))
              (fun d =>
                 mk (_id d) (receipt_id d) (branch_id d) (member_id d) (group_id d)
                   (receipt_date d) (receipt_amount d) (payment_mode d)
                   (received_by d)
                   (if TransactionController.blank remarks then "Receipt cancelled"
                    else orElse remarks "")
                   Cancelled)
              (receipts s) with
      | None => (fail 404 "Receipt not found or already cancelled", s)
      | Some (receipt, l) =>
          (okMsg 200 (receipt_id receipt, status receipt)
             "Receipt cancelled successfully",
           setReceipts s l (nextObjectId s))
      end
  end.

End ReceiptController.

(** ** Payout model and controller *)

Module Payout.
Inductive Status := Pending | Paid | Skipped.
#[global] Instance Status_eq_dec : EqDecision Status.
Proof. solve_decision. Defined.

Record t := mk {
  _id : ObjectId;
  payout_id : string;
  group_id : ObjectId;
  month_number : Number;
  member_id : ObjectId;
  payout_amount : Number;
  processing_fee : Number;
  status : Status;
  payment_date : option Date;
  transaction_id : option ObjectId
}.
End Payout.

Module PayoutController.
Import Payout.

(** The collections of [Store] and the Payout collection. *)
Record PayoutStore := mkPayoutStore { store : Store; payouts : list Payout.t }.

(** [req.body] of [POST /api/payouts]; an absent key is [None]. *)
Record CreateBody := mkCreateBody {
  body__id : option ObjectId;
  body_payout_id : option string;
  body_group_id : option ObjectId;
  body_member_id : option ObjectId;
  body_month_number : option Number;
  body_payout_amount : option Number;
  body_processing_fee : option Number;
  body_status : option Status;
  body_payment_date : option Date;
  body_transaction_id : option ObjectId
}.

(** Helper function to validate references *)
Definition validateReferences (s : Store) (group_id member_id : option ObjectId)
    : Thrown (Group.t * Member.t) :=
  match group_id ≫= (fun i => findById Group._id i (groups s)),
        member_id ≫= (fun i => findById Member._id i (members s)) with
  | None, _ => inl "Group not found"
  | _, None => inl "Member not found"
  | Some group, Some member => inr (group, member)
  end.

Definition setNextObjectId (s : Store) (next : ObjectId) : Store :=
  mkStore (branches s) (employees s) (members s) (schemes s) (groups s)
    (transactions s) (ledgers s) (installments s) (receipts s) next.

(** [Payout.create({...})]: the [required: true] paths, the defaults, the
    id hook and the unique indexes. *)
Definition Payout_create (ps : PayoutStore) (b : CreateBody) (group member : ObjectId)
    (st : Status) : Thrown (Payout.t * PayoutStore) :=
  match body_month_number b, body_payout_amount b with
  | Some month, Some value =>
      let ids := payout_id <$> payouts ps in
      let newId := preSaveId "PYT" ids true (orElse (body_payout_id b) "") in
      let oid := orElse (body__id b) (nextObjectId (store ps)) in
      if bool_decide (newId ∈ ids) || bool_decide (oid ∈ _id <$> payouts ps)
      then inl "E11000 duplicate key error"
      else
        let doc :=
          mk oid newId group month member value
            (orElse (body_processing_fee b) 0%Qc) st (body_payment_date b)
            (body_transaction_id b) in
        inr (doc, mkPayoutStore
                    (setNextObjectId (store ps) (S (nextObjectId (store ps))))
                    (payouts ps ++ [doc]))
  | None, _ =>
      inl "Payout validation failed: month_number: Path `month_number` is required."
  | _, None =>
      inl "Payout validation failed: payout_amount: Path `payout_amount` is required."
  end.

(** [POST /api/payouts] *)
Definition createPayout (b : CreateBody) (ps : PayoutStore)
    : Response Payout.t * PayoutStore :=
  let attempt : Thrown (Payout.t * PayoutStore) :=
    (* Validate references *)
    '(group, member) ← validateReferences (store ps) (body_group_id b) (body_member_id b);
    (* Verify member belongs to group *)
    if negb (existsb (fun m => bool_decide (Group.member_id m = Member._id member))
               (Group.members group))
    then inl "Member does not belong to this group"
    else
      (* Create the payout *)
      Payout_create ps b (Group._id group) (Member._id member) Pending in
  match attempt with
  | inl error_message => (fail 400 error_message, ps)
  | inr (payout, ps') => (ok 201 payout, ps')
  end.

(** [res.json] of a payout that was populated with
    [.populate('transaction_id', 'transaction_id amount date')].
    TransactionSchema serialises its virtuals and [formatted_date] reads
    [this.transaction_date], which was not selected: the serialisation throws
    a TypeError, unless the path was populated with [null]. *)
Definition serialises (s : Store) (d : Payout.t) : bool :=
  bool_decide
    ((transaction_id d ≫= fun i => findById Transaction._id i (transactions s)) = None).

(** [POST /api/payouts/:id/process]; [transaction_id] is
    [req.body.transaction_id].  The update is written by
    [findOneAndUpdate]; an error in the serialisation of the answer reaches
    the [catch] block with the write already done. *)
Definition processPayout (clk : Clock) (p : IdParam) (transaction_id : option ObjectId)
    (ps : PayoutStore) : Response Payout.t * PayoutStore :=
  (* Validate transaction exists *)
  match transaction_id
        ≫= (fun i => findById Transaction._id i (transactions (store ps))) with
  | None => (fail 400 "Transaction not found", ps)
  | Some _ =>
      match castParam p with
      | inl error_message => (fail 400 error_message, ps)
      | inr i =>
          match findOneAndUpdate
                  (fun d => bool_decide (_id d = i)
                            && bool_decide (status d = Pending))
                  (fun d =>
                     mk (_id d) (payout_id d) (group_id d) (month_number d)
                       (member_id d) (payout_amount d) (processing_fee d)
                       Paid (Some (now clk)) transaction_id)
                  (payouts ps) with
          | None => (fail 404 "Pending payout not found", ps)
          | Some (payout, l) =>
              if serialises (store ps) payout
              then (okMsg 200 payout "Payout processed successfully",
                    mkPayoutStore (store ps) l)
              else
                (fail 400
                   "Cannot read properties of undefined (reading 'toLocaleDateString')",
                 mkPayoutStore (store ps) l)
          end
      end
  end.

(** [POST /api/payouts/:id/skip] *)
Definition skipPayout (clk : Clock) (p : IdParam) (ps : PayoutStore)
    : Response Payout.t * PayoutStore :=
  match castParam p with
  | inl error_message => (fail 400 error_message, ps)
  | inr i =>
      match findOneAndUpdate
              (fun d => bool_decide (_id d = i)
                        && bool_decide (status d = Pending))
              (fun d =>
                 mk (_id d) (payout_id d) (group_id d) (month_number d)
                   (member_id d) (payout_amount d) (processing_fee d)
                   Skipped (Some (now clk)) (transaction_id d))
              (payouts ps) with
      | None => (fail 404 "Pending payout not found", ps)
      | Some (payout, l) =>
          (okMsg 200 payout "Payout skipped successfully", mkPayoutStore (store ps) l)
      end
  end.

(** The requests that write payouts. *)
Inductive Request :=
| CreatePayout (b : CreateBody)
| ProcessPayout (clk : Clock) (p : IdParam) (transaction_id : option ObjectId)
| SkipPayout (clk : Clock) (p : IdParam).

Definition handle (ps : PayoutStore) (r : Request) : PayoutStore :=
  match r with
  | CreatePayout b => (createPayout b ps).2
  | ProcessPayout clk p transaction_id => (processPayout clk p transaction_id ps).2
  | SkipPayout clk p => (skipPayout clk p ps).2
  end.

Definition handleAll (rs : list Request) (ps : PayoutStore) : PayoutStore :=
  foldl handle ps rs.

End PayoutController.

(** ** Authorisation middleware and routers *)

Module AuthMiddleware.

(** The paths of an employee that the middleware reads. *)
Record Account := mkAccount { _id : ObjectId; role : string }.

(** The request as the middleware sees it: the [Authorization] header and
    [req.employee] ([None] while undefined, and when the lookup gave
    [null]). *)
Record Req := mkReq { authorization : option string; employee : option Account }.

(** [jwt.verify(token, secret)]: [None] when it throws, else [decoded.id]
    (which a payload need not carry); and the Employee collection. *)
Record Env := mkEnv {
  verify : string -> option (option ObjectId);
  accounts : list Account
}.

(** [s.split(sep)] for a one-character separator. *)
Fixpoint split (sep : ascii) (s : string) : list string :=
  match s with
  | EmptyString => [""]
  | String c s' =>
      if Ascii.eqb c sep then "" :: split sep s'
      else match split sep s' with
           | w :: ws => String c w :: ws
           | [] => [String c ""]
           end
  end.

Inductive Middleware := protect | admin | manager | employeeOnly.

(** A middleware either calls [next()], possibly after setting
    [req.employee], or answers with a status code. *)
Definition run (env : Env) (mw : Middleware) (req : Req) : Req + nat :=
  match mw with
  | protect =>
      match authorization req with
      | Some header =>
          if Js.startsWith "Bearer" header then
            match split " " header !! 1%nat ≫= verify env with
            | Some decoded_id =>
                inl (mkReq (authorization req)
                       (decoded_id ≫= fun i => findById _id i (accounts env)))
            | None => inr 401%nat
            end
          else inr 401%nat
      | None => inr 401%nat
      end
  | admin =>
      if bool_decide (role <$> employee req = Some "Admin") then inl req
      else inr 403%nat
  | manager =>
      if bool_decide (role <$> employee req = Some "Manager")
         || bool_decide (role <$> employee req = Some "Admin")
      then inl req else inr 403%nat
  | employeeOnly =>
      if bool_decide (role <$> employee req = Some "Employee")
         || bool_decide (role <$> employee req = Some "Manager")
         || bool_decide (role <$> employee req = Some "Admin")
      then inl req else inr 403%nat
  end.

End AuthMiddleware.

Module Express.
Import AuthMiddleware.

Inductive Method := GET | HEAD | POST | PUT | PATCH | DELETE.
#[global] Instance Method_eq_dec : EqDecision Method.
Proof. solve_decision. Defined.

(** A route path, between the slashes: a literal or a [:name] parameter. *)
Inductive Segment := Lit (s : string) | Param (name : string).

Definition lowerChar (c : ascii) : ascii :=
  let n := nat_of_ascii c in
  if (65 <=? n)%nat && (n <=? 90)%nat then ascii_of_nat (n + 32) else c.

Fixpoint toLowerCase (s : string) : string :=
  match s with
  | EmptyString => ""
  | String c s' => String (lowerChar c) (toLowerCase s')
  end.

(** Matching of a request path, given as its segments, against a route
    path, with the router's defaults (case-insensitive, trailing slash
    ignored); the result is [req.params]. *)
Fixpoint matchPath (pattern : list Segment) (path : list string)
    : option (list (string * string)) :=
  match pattern, path with
  | [], [] => Some []
  | Lit s :: pattern', x :: path' =>
      if bool_decide (toLowerCase s = toLowerCase x) then matchPath pattern' path'
      else None
  | Param name :: pattern', x :: path' =>
      if bool_decide (x = "") then None
      else (fun params => (name, x) :: params) <$> matchPath pattern' path'
  | _, _ => None
  end.

(** [router.use(mw)] and [router.<method>(path, ...mws, handler)]. *)
Inductive Layer (H : Type) :=
| Use (mw : Middleware)
| Route (method : Method) (pattern : list Segment) (mws : list Middleware) (handler : H).
Arguments Use {H}.
Arguments Route {H}.

(** A route registered for [GET] also takes [HEAD]. *)
Definition handlesMethod (route request : Method) : bool :=
  bool_decide (route = request)
  || (bool_decide (request = HEAD) && bool_decide (route = GET)).

Inductive Outcome (H : Type) :=
| Refused (mw : Middleware) (code : nat)
| Handled (handler : H) (params : list (string * string)) (req : Req)
| NotFound.
Arguments Refused {H}.
Arguments Handled {H}.
Arguments NotFound {H}.

(** The middleware of a route, in order, then its handler. *)
Fixpoint runRoute {H} (env : Env) (mws : list Middleware) (handler : H)
    (params : list (string * string)) (req : Req) : Outcome H :=
  match mws with
  | [] => Handled handler params req
  | mw :: mws' =>
      match run env mw req with
      | inl req' => runRoute env mws' handler params req'
      | inr code => Refused mw code
      end
  end.

(** The layers of a router in the order of registration: the first route
    that matches handles the request (no handler here calls [next()]). *)
Fixpoint dispatch {H} (env : Env) (router : list (Layer H)) (method : Method)
    (path : list string) (req : Req) : Outcome H :=
  match router with
  | [] => NotFound
  | Use mw :: router' =>
      match run env mw req with
      | inl req' => dispatch env router' method path req'
      | inr code => Refused mw code
      end
  | Route m pattern mws handler :: router' =>
      match (if handlesMethod m method then matchPath pattern path else None) with
      | Some params => runRoute env mws handler params req
      | None => dispatch env router' method path req
      end
  end.

(** routes/Ledger.js *)
Inductive LedgerHandler :=
| getLedgerEntries | createLedgerEntry | getLedgerEntryById | updateLedgerEntry
| getMemberLedger | getLedgerStats.

Definition ledgerRouter : list (Layer LedgerHandler) :=
  [ (* Protected routes *)
    Use protect;
    (* Basic employee routes *)
    Route GET [] [protect] getLedgerEntries;
    Route POST [] [] createLedgerEntry;
    Route GET [Param "id"] [] getLedgerEntryById;
    Route PUT [Param "id"] [] updateLedgerEntry;
    Route GET [Lit "members"; Param "member_id"; Lit "ledger"] [] getMemberLedger;
    (* Manager/admin only routes *)
    Use manager;
    Route GET [Lit "stats"] [] getLedgerStats ].

(** routes/Installment.js *)
Inductive InstallmentHandler :=
| createInstallment | recordPayment | getInstallments | getInstallmentStats
| getInstallmentById | updateInstallment.

Definition installmentRouter : list (Layer InstallmentHandler) :=
  [ (* Manager+ routes *)
    Route POST [] [protect; manager] createInstallment;
    Route POST [Param "id"; Lit "pay"] [protect; manager] recordPayment;
    (* Protected routes *)
    Route GET [] [protect] getInstallments;
    Route GET [Lit "stats"] [protect] getInstallmentStats;
    Route GET [Param "id"] [protect] getInstallmentById;
    Route PUT [Param "id"] [protect; manager] updateInstallment ].

End Express.

(** ** Vocabulary of the statements on groups, installments and ledgers *)

(** A group as the handlers mean to keep it: no member twice, no payout
    month twice, every payout month within [1, duration] of its scheme. *)
Definition groupOK (s : Store) (g : Group.t) : Prop :=
  NoDup (Group.member_id <$> Group.members g)
  /\ NoDup (Group.payout_month <$> Group.members g)
  /\ Forall (fun m => (1 ≤ Group.payout_month m)%Qc) (Group.members g)
  /\ forall scheme,
       findById Scheme._id (Group.scheme_id g) (schemes s) = Some scheme ->
       Forall (fun m => (Group.payout_month m ≤ Scheme.duration_months scheme)%Qc)
         (Group.members g).

(** What [group.save()] checks before writing. *)
Definition groupValid (s : Store) (g : Group.t) : Prop :=
  Forall (fun m => (1 ≤ Group.payout_month m)%Qc) (Group.members g)
  /\ NoDup (Group.payout_month <$> Group.members g)
  /\ exists scheme,
       findById Scheme._id (Group.scheme_id g) (schemes s) = Some scheme
       /\ Forall (fun m => (Group.payout_month m ≤ Scheme.duration_months scheme)%Qc)
            (Group.members g).

(** A group at another point of its life. *)
Definition withProgress (g : Group.t) (st : Group.Status) (month : Number) : Group.t :=
  Group.mk (Group._id g) (Group.group_id g) (Group.branch_id g) (Group.scheme_id g)
    (Group.start_date g) st (Group.members g) month.



(** Total credits minus total debits of the entries [es]. *)
Definition netPostings (es : list Ledger.t) : Number :=
  foldr (fun e acc => (Ledger.credit e - Ledger.debit e + acc)%Qc) 0%Qc es.

(** A body whose keys are field names: no update operator among them. *)
Definition plainBody (body : gmap string LedgerController.Value) : Prop :=
  forall k, is_Some (body !! k) -> LedgerController.isOperator k = false.

(** [PUT /api/ledgers/:id] requests one after the other. *)
Fixpoint updateLedgerEntries (reqs : list (IdParam * gmap string LedgerController.Value))
    (s : Store) : option Store :=
  match reqs with
  | [] => Some s
  | (p, body) :: reqs' =>
      match LedgerController.updateLedgerEntry p body s with
      | Some (_, s') => updateLedgerEntries reqs' s'
      | None => None
      end
  end.

(** ** The branch of the examples, later in its life *)

Module Scenario.

Definition clk : Clock := mkClock (Demo.day 1) 2025.

(** Ravi joins [GRP001] for month 2, which makes the group active. *)
Definition addRavi : GroupController.AddBody :=
  GroupController.mkAddBody 3 (Some (num 2)).

Definition active : Store :=
  (GroupController.addGroupMember clk (ByObjectId 7) addRavi Demo.store).2.




(** The first installment of Asha as stored, and two payments on it. *)
Definition firstInstallment : Installment.t :=
  Installment.mk 8 "INS001" 7 2 6 (Some 1) (Some "Month 1") (Demo.day 10)
    (num 1000) None 0 (num 1000) Installment.Pending 0 None None None.

Definition pay (amount : Z) : InstallmentController.PayBody :=
  InstallmentController.mkPayBody (Some (JNum (num amount))) (Some Cash) None None.

(** The branch after its member documents were deleted. *)
Definition noMembers : Store :=
  mkStore (branches Demo.store) (employees Demo.store) [] (schemes Demo.store)
    (groups Demo.store) (transactions Demo.store) (ledgers Demo.store)
    (installments Demo.store) (receipts Demo.store) (nextObjectId Demo.store).

(** The branch after a first payment of 400, which left a receipt. *)
Definition paid : Store :=
  default Demo.store
    (snd <$> InstallmentController.recordPayment clk 9 (ByObjectId 8) (pay 400)
               Demo.store).

(** A deposit of 50 for Ravi, and a receipt paid online. *)
Definition depositBody : TransactionCreation.CreateBody :=
  TransactionCreation.mkCreateBody None None (Some 1%nat) (Some 3%nat) None None
    (Some Transaction.Deposit) (Some (num 50)) None None None None None None.

Definition onlineReceipt : ReceiptController.CreateBody :=
  ReceiptController.mkCreateBody None (Some 1%nat) (Some 2%nat) None (Some 4%nat)
    None None (Some (num 100)) (Some Online) None None None.

(** Two payouts of [GRP001]: month 1 paid to Asha, month 2 pending for Ravi. *)
Definition payoutStore : PayoutController.PayoutStore :=
  PayoutController.mkPayoutStore active
    [Payout.mk 30 "PYT001" 7 (num 1) 2 (num 9000) 0 Payout.Paid
       (Some (Demo.day 2)) (Some 4%nat);
     Payout.mk 31 "PYT002" 7 (num 2) 3 (num 9000) 0 Payout.Pending None None].

(** A manager whose token is [t1]; the token [t2] verifies but names
    nobody. *)
Definition env : AuthMiddleware.Env :=
  AuthMiddleware.mkEnv
    (fun token =>
       if bool_decide (token = "t1") then Some (Some 9%nat)
       else if bool_decide (token = "t2") then Some None
       else None)
    [AuthMiddleware.mkAccount 9 "Manager"].

(** [{ "balance": 0 }] *)
Definition balanceBody : gmap string LedgerController.Value :=
  {[ "balance" := LedgerController.VNum 0 ]}.

End Scenario.

(** * Theorems *)
(** ** Facts about the string primitives *)

Section JsFacts.
Import Js.
Local Arguments String.append !_ _ / : simpl nomatch.
Local Arguments digitChar : simpl never.
Local Arguments digitValue : simpl never.

Lemma allDigits_cons c s :
  allDigits (String c s) = bool_decide (is_Some (digitValue c)) && allDigits s.
Proof. reflexivity. Qed.

Lemma parseDigits_cons c s acc :
  parseDigits (String c s) acc
  = match digitValue c with
    | Some d => parseDigits s (Some (10 * default 0 acc + d))
    | None => acc
    end.
Proof. reflexivity. Qed.

Lemma decimalDigits_S fuel n acc :
  decimalDigits (S fuel) n acc
  = if n / 10 =? 0 then String (digitChar (n mod 10)) acc
    else decimalDigits fuel (n / 10) (String (digitChar (n mod 10)) acc).
Proof. reflexivity. Qed.

Lemma digitValue_digitChar d : 0 <= d < 10 -> digitValue (digitChar d) = Some d.
Proof.
  intros H.
  assert (d = 0 \/ d = 1 \/ d = 2 \/ d = 3 \/ d = 4 \/ d = 5 \/ d = 6
          \/ d = 7 \/ d = 8 \/ d = 9) as Hd by lia.
  repeat (destruct Hd as [-> | Hd]; [reflexivity |]). subst. reflexivity.
Qed.

Lemma append_assoc (a b c : string) : (a +:+ b) +:+ c = a +:+ (b +:+ c).
Proof. induction a as [|x a IH]; simpl; [done | by f_equal]. Qed.

Lemma append_nil_r (a : string) : a +:+ "" = a.
Proof. induction a as [|x a IH]; simpl; [done | by f_equal]. Qed.

Lemma decimalDigits_acc fuel : forall n acc,
  decimalDigits fuel n acc = decimalDigits fuel n "" +:+ acc.
Proof.
  induction fuel as [|fuel IH]; intros n acc; [done |].
  rewrite !decimalDigits_S.
  destruct (n / 10 =? 0); [done |].
  rewrite (IH _ (String _ acc)), (IH _ (String _ "")).
  by rewrite append_assoc.
Qed.

Lemma allDigits_app a b : allDigits (a +:+ b) = allDigits a && allDigits b.
Proof.
  induction a as [|x a IH]; simpl; [done |]. rewrite IH. by rewrite andb_assoc.
Qed.

Lemma allDigits_decimalDigits fuel : forall n,
  0 <= n -> allDigits (decimalDigits fuel n "") = true.
Proof.
  induction fuel as [|fuel IH]; intros n Hn; [done |].
  rewrite decimalDigits_S.
  assert (allDigits (String (digitChar (n mod 10)) "") = true) as Hd.
  { rewrite allDigits_cons, digitValue_digitChar by (apply Z.mod_pos_bound; lia).
    by rewrite bool_decide_eq_true_2. }
  destruct (n / 10 =? 0); [done |].
  rewrite decimalDigits_acc, allDigits_app, Hd, IH; [done |].
  apply Z.div_pos; lia.
Qed.

Lemma parseDigits_snoc s : forall acc c d,
  allDigits s = true -> digitValue c = Some d ->
  parseDigits (s +:+ String c "") acc
  = Some (10 * default 0 (parseDigits s acc) + d).
Proof.
  induction s as [|x s IH]; intros acc c d Hs Hc.
  - change ("" +:+ String c "") with (String c "").
    by rewrite parseDigits_cons, Hc.
  - rewrite allDigits_cons in Hs. apply andb_true_iff in Hs as [Hx Hs].
    apply bool_decide_eq_true in Hx as [dx Hx].
    change (String x s +:+ String c "") with (String x (s +:+ String c "")).
    rewrite !parseDigits_cons, Hx. by apply IH.
Qed.

(** Reading back the digits of [n] gives [n], whatever was read before as
    long as it was worth zero. *)
Lemma parseDigits_decimalDigits fuel : forall n acc,
  0 <= n -> (Z.to_nat n < fuel)%nat -> default 0 acc = 0 ->
  parseDigits (decimalDigits fuel n "") acc = Some n.
Proof.
  induction fuel as [|fuel IH]; intros n acc Hn Hf Hacc; [lia |].
  rewrite decimalDigits_S.
  assert (0 <= n mod 10 < 10) as Hm by (apply Z.mod_pos_bound; lia).
  destruct (n / 10 =? 0) eqn:Hq.
  - apply Z.eqb_eq in Hq. rewrite parseDigits_cons, digitValue_digitChar by done.
    rewrite Hacc. change (parseDigits "" ?x) with x. f_equal.
    pose proof (Z_div_mod_eq_full n 10) as E. rewrite Hq in E. lia.
  - apply Z.eqb_neq in Hq. rewrite decimalDigits_acc.
    assert (0 <= n / 10) by (apply Z.div_pos; lia).
    assert (0 < n) by (destruct (decide (n = 0)) as [-> |]; [done | lia]).
    assert (n / 10 < n) by (apply Z.div_lt; lia).
    rewrite (parseDigits_snoc _ _ _ (n mod 10)).
    + rewrite IH by (done || lia). unfold default, id. f_equal.
      pose proof (Z_div_mod_eq_full n 10). lia.
    + by apply allDigits_decimalDigits.
    + by apply digitValue_digitChar.
Qed.

Lemma parseDigits_decimal n acc :
  0 <= n -> default 0 acc = 0 -> parseDigits (decimal n) acc = Some n.
Proof. intros. apply parseDigits_decimalDigits; (done || lia). Qed.

Lemma allDigits_decimal n : 0 <= n -> allDigits (decimal n) = true.
Proof. apply allDigits_decimalDigits. Qed.

Lemma decimal_nonempty n : decimal n <> "".
Proof.
  unfold decimal. rewrite decimalDigits_S. destruct (n / 10 =? 0); [done |].
  rewrite decimalDigits_acc. by destruct (decimalDigits _ _ _).
Qed.

Lemma parseDigits_zeros k : forall s acc,
  default 0 acc = 0 ->
  exists acc', default 0 acc' = 0
               /\ parseDigits (repeatChar k "0" +:+ s) acc = parseDigits s acc'.
Proof.
  induction k as [|k IH]; intros s acc Hacc.
  - by exists acc.
  - change (repeatChar (S k) "0" +:+ s) with (String "0" (repeatChar k "0" +:+ s)).
    rewrite parseDigits_cons. change (digitValue "0") with (Some 0).
    rewrite Hacc. apply IH. done.
Qed.

(** [parseInt] on a string that starts with a digit is the plain reading of
    its digits. *)
Lemma parseInt_digit c s :
  is_Some (digitValue c) -> parseInt (String c s) = parseDigits (String c s) None.
Proof.
  intros [d Hd]. unfold parseInt.
  destruct c as [[] [] [] [] [] [] [] []]; try discriminate Hd; reflexivity.
Qed.

Lemma padStart_zeros w s : exists k, padStart w "0" s = repeatChar k "0" +:+ s.
Proof. by eexists. Qed.

Lemma parseInt_padded w n :
  0 <= n -> parseInt (padStart w "0" (decimal n)) = Some n.
Proof.
  intros Hn. unfold padStart.
  assert (exists c s, repeatChar (w - String.length (decimal n)) "0" +:+ decimal n
                      = String c s /\ is_Some (digitValue c)) as (c & s & Heq & Hc).
  { destruct (w - String.length (decimal n))%nat.
    - pose proof (allDigits_decimal n Hn) as Hall.
      pose proof (decimal_nonempty n) as Hne.
      destruct (decimal n) as [|c s]; [done |]. rewrite allDigits_cons in Hall.
      apply andb_true_iff in Hall as [Hc _]. apply bool_decide_eq_true in Hc.
      by exists c, s.
    - eexists _, _. split; [done |]. by eexists. }
  rewrite Heq, parseInt_digit by done. rewrite <- Heq.
  destruct (parseDigits_zeros (w - String.length (decimal n)) (decimal n) None)
    as (acc' & Hacc' & ->); [done |].
  by apply parseDigits_decimal.
Qed.

Lemma startsWith_app p s : startsWith p (p +:+ s) = true.
Proof.
  induction p as [|c p IH]; simpl; [by destruct s |].
  by rewrite Ascii.eqb_refl.
Qed.

Lemma dropChars_app p s : dropChars (String.length p) (p +:+ s) = s.
Proof. induction p as [|c p IH]; simpl; [by destruct s | done]. Qed.

Lemma takeChars_app p s : takeChars (String.length p) (p +:+ s) = p.
Proof. induction p as [|c p IH]; simpl; [by destruct s | by rewrite IH]. Qed.

Lemma replace_prefix p s : replace p "" (p +:+ s) = s.
Proof.
  destruct (p +:+ s) eqn:E; simpl; rewrite <- E.
  - rewrite startsWith_app. simpl. apply dropChars_app.
  - rewrite startsWith_app. simpl. apply dropChars_app.
Qed.

Lemma toString_succ n : 0 <= n -> toString (succ (Some n)) = decimal (n + 1).
Proof.
  intros Hn. unfold succ, toString. destruct (n + 1 <? 0) eqn:E; [|done].
  apply Z.ltb_lt in E. lia.
Qed.

Lemma append_nonempty_r a b : b <> "" -> a +:+ b <> "".
Proof. destruct a; simpl; [done | discriminate]. Qed.

Lemma padStart_nonempty w c n : padStart w c (decimal n) <> "".
Proof. apply append_nonempty_r, decimal_nonempty. Qed.

Lemma append_inj_l p a b : p +:+ a = p +:+ b -> a = b.
Proof. induction p as [|c p IH]; simpl; [done |]. intros [= H]. auto. Qed.

End JsFacts.

(** ** Sequential ids *)

Section SequentialIds.
Import Js.

Lemma ltb_le (a b : string) : String.ltb a b = true -> String.le a b.
Proof.
  unfold String.ltb, String.le, String.leb. intros H.
  destruct (String.compare a b); done.
Qed.

Lemma not_ltb_le (a b : string) : String.ltb a b = false -> String.le b a.
Proof.
  unfold String.ltb, String.le, String.leb. intros H.
  rewrite String.compare_antisym. destruct (String.compare a b); done.
Qed.

(** [findLastId] returns a stored id that no stored id exceeds. *)
Lemma findLastId_greatest ids m :
  findLastId ids = Some m -> m ∈ ids /\ forall i, i ∈ ids -> String.le i m.
Proof.
  revert m. induction ids as [|x ids IH]; intros m; simpl; [done |].
  fold (findLastId ids). destruct (findLastId ids) as [j|] eqn:Hj.
  - destruct (IH j eq_refl) as [Hin Hmax].
    destruct (String.ltb j x) eqn:Hlt; intros [= <-].
    + split; [left |]. intros i [-> | Hi]%elem_of_cons; [done |].
      etrans; [by apply Hmax | by apply ltb_le].
    + split; [by right |]. intros i [-> | Hi]%elem_of_cons; [by apply not_ltb_le | auto].
  - intros [= <-]. split; [left |].
    intros i [-> | Hi]%elem_of_cons; [done |].
    destruct ids as [|y ids]; [by apply elem_of_nil in Hi |]. exfalso.
    simpl in Hj. fold (findLastId ids) in Hj.
    destruct (findLastId ids); [destruct (String.ltb _ _) |]; discriminate.
Qed.

Lemma sequential_id_first prefix : preSaveId prefix [] true "" = prefix +:+ "001".
Proof. reflexivity. Qed.

(** One step of the generator: after a last id [<PREFIX><NNN>] comes
    [<PREFIX>] followed by the padded successor. *)
Lemma sequential_id_step prefix ids n :
  0 <= n ->
  findLastId ids = Some (prefix +:+ padStart 3 "0" (decimal n)) ->
  preSaveId prefix ids true "" = prefix +:+ padStart 3 "0" (decimal (n + 1)).
Proof.
  intros Hn Hlast. unfold preSaveId, nextSequentialId.
  rewrite (bool_decide_eq_true_2 ("" = "")) by done. cbn [negb orb].
  rewrite Hlast.
  rewrite bool_decide_eq_false_2
    by (apply append_nonempty_r, padStart_nonempty).
  rewrite replace_prefix, parseInt_padded, toString_succ by done. done.
Qed.

Lemma createMany_snoc prefix n : forall ids,
  createMany prefix (S n) ids
  = match createMany prefix n ids with
    | inl e => inl e
    | inr ids' => createWithId prefix ids'
    end.
Proof.
  induction n as [|n IH]; intros ids.
  - simpl. by destruct (createWithId prefix ids).
  - change (createMany prefix (S (S n)) ids)
      with (match createWithId prefix ids with
            | inl e => inl e
            | inr ids' => createMany prefix (S n) ids'
            end).
    destruct (createWithId prefix ids) as [e | ids'] eqn:E.
    + simpl. by rewrite E.
    + rewrite IH. simpl. by rewrite E.
Qed.

Lemma member_ids_first_1000 :
  createMany "MEM" (Z.to_nat 1000) [] = inr (idsUpTo "MEM" (Z.to_nat 1000)).
Proof. vm_compute. reflexivity. Qed.

(** C2: after the thousandth member the generator no longer produces the
    successor.  The first thousand creations give [MEM001 .. MEM1000]; the
    greatest id string among them is [MEM999], so the 1001st creation
    computes [MEM1000] again (not [MEM1001]) and the unique index refuses
    it. *)
Theorem member_id_1001_repeats :
  createMany "MEM" (Z.to_nat 1000) [] = inr (idsUpTo "MEM" (Z.to_nat 1000))
  /\ findLastId (idsUpTo "MEM" (Z.to_nat 1000)) = Some "MEM999"
  /\ MemberSchema_preSave (idsUpTo "MEM" (Z.to_nat 1000)) true "" = "MEM1000"
  /\ MemberSchema_preSave (idsUpTo "MEM" (Z.to_nat 1000)) true ""
     <> "MEM" +:+ padStart 3 "0" (decimal 1001)
  /\ createMany "MEM" (Z.to_nat 1001) [] = inl "E11000 duplicate key error".
Proof.
  split; [exact member_ids_first_1000 |].
  split; [vm_compute; reflexivity |].
  split; [vm_compute; reflexivity |].
  split; [vm_compute; discriminate |].
  change (Z.to_nat 1001) with (S (Z.to_nat 1000)).
  rewrite createMany_snoc, member_ids_first_1000.
  vm_compute. reflexivity.
Qed.


Lemma transaction_id_first year :
  TransactionSchema_preSave year [] true "" = "TXN" +:+ yearSuffix year +:+ "001".
Proof. reflexivity. Qed.



End SequentialIds.

(** ** Facts about the store *)

Section StoreFacts.

Lemma findById_elem {D} (oid : D -> ObjectId) i (l : list D) d :
  findById oid i l = Some d -> d ∈ l /\ oid d = i.
Proof.
  unfold findById. intros H. apply find_some in H as [H Hi].
  split; [by apply list_elem_of_In | by apply bool_decide_eq_true in Hi].
Qed.

(** A lookup by request parameter that finds a document was made with the
    [_id] of that document. *)
Lemma findOneByParam_found {D} (oid : D -> ObjectId) p (l : list D) d :
  findOneByParam oid p l = inr (Some d) ->
  p = ByObjectId (oid d) /\ d ∈ l /\ findById oid (oid d) l = Some d.
Proof.
  destruct p as [i | code]; [|done]. unfold findOneByParam. simpl.
  intros [= H]. destruct (findById_elem _ _ _ _ H) as [Hin <-]. done.
Qed.

(** A parameter that is not an ObjectId makes the lookup throw. *)
Lemma findOneByParam_code {D} (oid : D -> ObjectId) code (l : list D) :
  exists e, findOneByParam oid (ByCode code) l = inl e.
Proof. by eexists. Qed.

(** After a write-back, the document is the one found under its [_id]. *)
Lemma findById_replaceDoc {D} (oid : D -> ObjectId) (d x : D) (l : list D) :
  x ∈ l -> oid x = oid d ->
  findById oid (oid d) (replaceDoc oid d l) = Some d.
Proof.
  unfold findById, replaceDoc. intros Hin Hid.
  induction l as [|y l IH]; [by apply elem_of_nil in Hin |].
  simpl. destruct (decide (oid y = oid d)) as [E | E].
  - rewrite (bool_decide_eq_true_2 _ E). by rewrite bool_decide_eq_true_2.
  - rewrite (bool_decide_eq_false_2 _ E). rewrite (bool_decide_eq_false_2 _ E).
    apply IH. apply elem_of_cons in Hin as [-> |]; [done | done].
Qed.

(** After a write-back the same request parameter finds the written
    document. *)
Lemma findOneByParam_replaceDoc {D} (oid : D -> ObjectId) p (l : list D) d0 d :
  findOneByParam oid p l = inr (Some d0) ->
  oid d = oid d0 ->
  findOneByParam oid p (replaceDoc oid d l) = inr (Some d).
Proof.
  intros Hf Hid. destruct (findOneByParam_found _ _ _ _ Hf) as (-> & Hin & _).
  unfold findOneByParam. cbn [castParam mbind Thrown_bind]. rewrite <- Hid.
  by rewrite (findById_replaceDoc oid d d0 l Hin).
Qed.

End StoreFacts.

(** ** Ledger running balance *)

Section LedgerBalance.
Import LedgerController.

Lemma balanceChain_snoc es : forall prev e,
  balanceChain prev (es ++ [e])
  <-> balanceChain prev es
      /\ Ledger.balance e
         = (default prev (Ledger.balance <$> last es)
            + Ledger.credit e - Ledger.debit e)%Qc.
Proof.
  induction es as [|x es IH]; intros prev e; simpl.
  - tauto.
  - rewrite IH. destruct es as [|y es']; simpl; [tauto |].
    destruct (last (y :: es')) eqn:E; [simpl; tauto |].
    by apply last_None in E.
Qed.

Lemma balanceChain_lookup es : forall prev i e,
  balanceChain prev es -> es !! i = Some e ->
  Ledger.balance e
  = (match i with
     | O => prev
     | S j => default 0%Qc (Ledger.balance <$> es !! j)
     end + Ledger.credit e - Ledger.debit e)%Qc.
Proof.
  induction es as [|x es IH]; intros prev i e Hc Hi; [done |].
  destruct Hc as [Hx Hc]. destruct i as [|i]; simpl in Hi.
  - by injection Hi as <-.
  - rewrite (IH _ _ _ Hc Hi). destruct i as [|i]; [done |]. done.
Qed.

(** On numbers the three steps of the handler are a sum and a difference,
    and Mongoose stores the operands as they were sent. *)
Lemma newBalance_numbers lastBalance credit debit :
  sentAsNumber credit -> sentAsNumber debit ->
  exists c d,
    castAmount credit = Some c /\ castAmount debit = Some d
    /\ newBalance lastBalance credit debit = Some (lastBalance + c - d)%Qc.
Proof.
  destruct credit as [[c | |]|], debit as [[d | |]|]; try done; intros _ _;
    eexists _, _; (split; [reflexivity |]); (split; [reflexivity |]);
    reflexivity.
Qed.

(** What one request with numbers does to the Ledger collection: nothing,
    or one entry appended whose balance continues the member's last one. *)
Lemma createLedgerEntry_ledgers clk b s :
  sentAsNumber (credit b) -> sentAsNumber (debit b) ->
  exists r s',
    createLedgerEntry clk b s = Some (r, s')
    /\ (ledgers s' = ledgers s
        \/ exists e,
             ledgers s' = ledgers s ++ [e]
             /\ r = ok 201 e
             /\ Some (Ledger.member_id e) = member_id b
             /\ Ledger.balance e
                = (default 0%Qc
                     (Ledger.balance <$> last (entriesOf (Ledger.member_id e) s))
                   + Ledger.credit e - Ledger.debit e)%Qc).
Proof.
  intros Hc Hd. unfold createLedgerEntry, createLedgerEntry_try.
  destruct (branch_id b) as [br|]; [| eexists _, _; split; [reflexivity | by left]].
  destruct (member_id b) as [m|]; [| eexists _, _; split; [reflexivity | by left]].
  destruct (transaction_id b) as [t|]; [| eexists _, _; split; [reflexivity | by left]].
  repeat (case_bool_decide; [eexists _, _; split; [reflexivity | by left] |]).
  destruct (_ && _); [eexists _, _; split; [reflexivity | by left] |].
  destruct (newBalance_numbers
              match lastEntryOf m (ledgers s) with
              | Some e => Ledger.balance e
              | None => 0%Qc
              end (credit b) (debit b) Hc Hd) as (c & d & -> & -> & ->).
  cbn [mbind option_bind].
  unfold Ledger_create. case_bool_decide;
    [eexists _, _; split; [reflexivity | by left] |].
  eexists _, _. split; [reflexivity |]. right. eexists. simpl.
  split; [reflexivity |]. split; [reflexivity |]. split; [reflexivity |].
  unfold lastEntryOf, entriesOf. by destruct (last _).
Qed.

Lemma createLedgerEntries_chain reqs : forall s,
  Forall (fun r => sentAsNumber (credit r.2) /\ sentAsNumber (debit r.2)) reqs ->
  (forall m, balanceChain 0%Qc (entriesOf m s)) ->
  exists s', createLedgerEntries reqs s = Some s'
             /\ forall m, balanceChain 0%Qc (entriesOf m s').
Proof.
  induction reqs as [|[clk b] reqs IH]; intros s Hn Hc; [by exists s |].
  apply Forall_cons in Hn as [[Hcr Hdb] Hn]. simpl in Hcr, Hdb.
  destruct (createLedgerEntry_ledgers clk b s Hcr Hdb)
    as (r & s1 & Hr & Hl).
  cbn [createLedgerEntries]. rewrite Hr. cbn [mbind option_bind snd].
  apply IH; [done |]. intros m. unfold entriesOf at 1.
  destruct Hl as [-> | (e & -> & _ & _ & Hbal)]; [apply Hc |].
  rewrite filter_app. fold (entriesOf m s).
  destruct (decide (Ledger.member_id e = m)) as [<- | Hne].
  - rewrite filter_cons_True, filter_nil by done.
    apply balanceChain_snoc. split; [apply Hc | done].
  - rewrite filter_cons_False, filter_nil, app_nil_r by done. apply Hc.
Qed.

(** X10: starting from an empty Ledger collection, every sequence of
    [createLedgerEntry] requests whose [debit] and [credit] are JSON numbers
    or left out (for any members, the rejected requests included) is served,
    and the [i]-th entry created for a member then has balance = the balance
    of the entry created just before it for that member (0 before the
    first) + its credit - its debit. *)
Theorem ledger_running_balance (s : Store) (reqs : list (Clock * CreateBody)) :
  ledgers s = [] ->
  Forall (fun r => sentAsNumber (credit r.2) /\ sentAsNumber (debit r.2)) reqs ->
  exists s',
    createLedgerEntries reqs s = Some s'
    /\ forall (m : ObjectId) (i : nat) (e : Ledger.t),
         entriesOf m s' !! i = Some e ->
         Ledger.balance e
         = (balanceBefore (entriesOf m s') i
            + Ledger.credit e - Ledger.debit e)%Qc.
Proof.
  intros Hs Hn.
  destruct (createLedgerEntries_chain reqs s Hn) as (s' & Hs' & Hc).
  { intros m. unfold entriesOf. by rewrite Hs. }
  exists s'. split; [done |]. intros m i e Hi.
  by apply (balanceChain_lookup _ 0%Qc i e).
Qed.

Lemma ledger_running_balance_witness :
  createLedgerEntries Demo.postings Demo.store = Some Demo.posted
  /\ exists e,
       entriesOf 2 Demo.posted !! 1%nat = Some e
       /\ Ledger.balance e = num 70
       /\ Ledger.balance e
          = (balanceBefore (entriesOf 2 Demo.posted) 1
             + Ledger.credit e - Ledger.debit e)%Qc.
Proof.
  destruct (ledger_running_balance Demo.store Demo.postings) as (s' & Hs' & H);
    [reflexivity | repeat constructor |].
  assert (s' = Demo.posted) as -> by (unfold Demo.posted; by rewrite Hs').
  split; [exact Hs' |]. eexists.
  split; [vm_compute; reflexivity |].
  split; [compute_done |].
  apply (H 2%nat 1%nat). vm_compute; reflexivity.
Defined.

End LedgerBalance.

Section LedgerExamples.
Import LedgerController.

(** C1: the balance of a new entry is not always the previous balance plus
    the credit minus the debit.  After the three postings of the example
    Asha's last balance is 70.  A fourth request whose [credit] is the JSON
    string "50" is answered 201: the handler computes 70 + "50" - 0, which
    in JavaScript is "7050" - 0 = 7050, and Mongoose stores the credit as
    the number 50.  The entry holds credit 50, debit 0 and balance 7050,
    not 70 + 50 - 0 = 120. *)
Theorem ledger_credit_sent_as_string_is_concatenated :
  createLedgerEntries Demo.postings Demo.store = Some Demo.posted
  /\ Ledger.balance <$> last (entriesOf 2 Demo.posted) = Some (num 70)
  /\ exists e s',
       createLedgerEntry (mkClock (Demo.day 4) 2025) Demo.creditAsString Demo.posted
       = Some (ok 201 e, s')
       /\ last (entriesOf 2 s') = Some e
       /\ Ledger.credit e = num 50
       /\ Ledger.debit e = 0%Qc
       /\ Ledger.balance e = num 7050
       /\ Ledger.balance e <> (num 70 + Ledger.credit e - Ledger.debit e)%Qc.
Proof.
  split; [vm_compute; reflexivity |]. split; [compute_done |].
  eexists _, _. split; [vm_compute; reflexivity |].
  split; [vm_compute; reflexivity |]. repeat split; compute_done.
Qed.

(** What [getMemberLedger] reports when it answers: the closing balance is
    that of the last entry in range; the opening balance is rebuilt from the
    member's earliest entry overall, whatever the range. *)
Lemma getMemberLedger_balances p startDate endDate s member lastInRange firstEntry :
  findOneByParam Member._id p (members s) = inr (Some member) ->
  last (sortByDate (List.filter (inRange startDate endDate)
                      (entriesOf (Member._id member) s))) = Some lastInRange ->
  head (sortByDate (entriesOf (Member._id member) s)) = Some firstEntry ->
  forallb (serialises s)
    (sortByDate (List.filter (inRange startDate endDate)
                   (entriesOf (Member._id member) s))) = true ->
  exists st,
    data (getMemberLedger p startDate endDate s) = Some st
    /\ closing_balance st = Ledger.balance lastInRange
    /\ opening_balance st = preEntryBalance firstEntry.
Proof.
  intros Hm Hl Hf Hs. unfold getMemberLedger. rewrite Hm.
  fold (entriesOf (Member._id member) s). rewrite Hl, Hf, Hs.
  eexists. split; [reflexivity |]. done.
Qed.

(** C5: statement of Asha (document 2, code MEM001) from day 2 on.  The only
    entry in range is the withdrawal of day 3, entered on a balance of 100.
    On the ledger as posted no statement is returned: the entry is populated
    with its transaction, whose serialisation throws, and the answer is 500;
    asked for by the code MEM001 the answer is 500 as well, the code cannot
    be cast to an ObjectId.  Once the transaction has been deleted the
    statement is returned, and its opening balance is 0, the balance before
    her first entry of day 1, which is outside the range; the closing
    balance, 70, is the balance of the last entry in range. *)
Theorem getMemberLedger_opening_ignores_range :
  Member._id <$> findByCode Member.member_id "MEM001" (members Demo.posted)
  = Some 2%nat
  /\ statusCode (getMemberLedger (ByObjectId 2) (Some (Demo.day 2)) None Demo.posted)
     = 500%nat
  /\ data (getMemberLedger (ByObjectId 2) (Some (Demo.day 2)) None Demo.posted)
     = None
  /\ statusCode (getMemberLedger (ByCode "MEM001") (Some (Demo.day 2)) None Demo.posted)
     = 500%nat
  /\ ledgers Demo.postedUnreferenced = ledgers Demo.posted
  /\ statusCode
       (getMemberLedger (ByObjectId 2) (Some (Demo.day 2)) None
          Demo.postedUnreferenced) = 200%nat
  /\ exists st,
       data (getMemberLedger (ByObjectId 2) (Some (Demo.day 2)) None
               Demo.postedUnreferenced) = Some st
       /\ Ledger.ledger_id <$> st_transactions st = ["LGR003"]
       /\ preEntryBalance <$> head (st_transactions st) = Some (num 100)
       /\ opening_balance st = 0%Qc
       /\ Ledger.balance <$> last (st_transactions st) = Some (num 70)
       /\ closing_balance st = num 70.
Proof.
  split; [vm_compute; reflexivity |].
  split; [vm_compute; reflexivity |].
  split; [vm_compute; reflexivity |].
  split; [vm_compute; reflexivity |].
  split; [reflexivity |].
  split; [vm_compute; reflexivity |].
  eexists. split; [vm_compute; reflexivity |]. repeat split; compute_done.
Qed.

End LedgerExamples.
(** ** Updating a ledger entry *)

Section LedgerUpdate.
Import LedgerController.

Lemma castSet_protected sets u e :
  sets !! "ledger_id" = None -> sets !! "branch_id" = None ->
  sets !! "member_id" = None -> sets !! "transaction_id" = None ->
  sets !! "balance" = None ->
  castSet sets = inr u ->
  sameProtected e (applySet u e) /\ Ledger._id (applySet u e) = Ledger._id e.
Proof.
  intros H1 H2 H3 H4 H5. unfold castSet. rewrite H1, H2, H3, H4, H5.
  unfold mbind, Thrown_bind. simpl.
  repeat match goal with
         | |- context [castPath ?c ?v] => destruct (castPath c v); [done |]
         end.
  intros [= <-]. by repeat split.
Qed.

(** With a body whose keys are plain field names (no update operator), the
    request is served and the protected paths of the targeted entry are
    left as they were, whether the answer is then 200 or, the serialisation
    of the populated transaction failing, 400. *)
Lemma updateLedgerEntry_plain_body p body s found :
  (forall k, is_Some (body !! k) -> isOperator k = false) ->
  findOneByParam Ledger._id p (ledgers s) = inr (Some found) ->
  exists r s',
    updateLedgerEntry p body s = Some (r, s')
    /\ ((statusCode r = 400%nat /\ s' = s)
        \/ exists e', (r = ok 200 e' \/ statusCode r = 400%nat)
                      /\ sameProtected found e'
                      /\ Ledger._id e' = Ledger._id found
                      /\ ledgers s' = replaceDoc Ledger._id e' (ledgers s)).
Proof.
  intros Hplain Hf. unfold updateLedgerEntry.
  set (updateData := delete "balance" _).
  assert (forall k, is_Some (updateData !! k) -> isOperator k = false) as Hup.
  { intros k [v Hk]. apply Hplain. exists v. subst updateData.
    repeat (apply lookup_delete_Some in Hk as [_ Hk]). done. }
  assert (castUpdate updateData = Some updateData) as ->.
  { unfold castUpdate.
    assert (filter (fun kv => isOperator kv.1 = true) (delete "$set" updateData) = ∅) as ->.
    { apply map_empty. intros k. apply map_lookup_filter_None. right.
      intros v Hk. simpl. apply lookup_delete_Some in Hk as [_ Hk].
      rewrite (Hup k) by (by exists v). done. }
    rewrite bool_decide_eq_true_2 by done.
    assert (updateData !! "$set" = None) as ->.
    { destruct (updateData !! "$set") eqn:E; [|done].
      by specialize (Hup "$set" (ltac:(by eexists))). }
    f_equal. apply map_filter_id. intros k v Hk. simpl. apply Hup. by exists v. }
  cbn [mbind option_bind].
  destruct (castSet updateData) as [err | u] eqn:Ha.
  - eexists _, _. split; [done |]. by left.
  - rewrite Hf.
    apply (castSet_protected _ _ found) in Ha as [Hprot Hid];
      try (subst updateData;
           repeat first [ apply lookup_delete_eq
                        | rewrite lookup_delete_ne by done ]).
    destruct (serialises _ _); eexists _, _; (split; [done |]); right;
      eexists; (split; [| done]); [by left | by right].
Qed.

(** C10: the keys are stripped only at the top level of the body.  A body
    that carries the field inside the [$set] operator reaches the update
    untouched.  The withdrawal LGR003 of Asha is document 22 and its balance
    is 70.  [PUT /api/ledgers/22] with [{ "$set": { "balance": 0 } }] writes
    the balance 0; the answer is 400, because the serialisation of the
    populated transaction throws after the write, and 200 once the
    transaction has been deleted.  Addressed by its code LGR003 the entry
    is not found: the request is answered 400 and nothing is written. *)
Theorem updateLedgerEntry_set_operator_overwrites_balance :
  Ledger._id <$> findByCode Ledger.ledger_id "LGR003" (ledgers Demo.posted)
  = Some 22%nat
  /\ Ledger.balance <$> findById Ledger._id 22 (ledgers Demo.posted)
     = Some (num 70)
  /\ (exists r s',
        updateLedgerEntry (ByObjectId 22) Demo.setBalanceBody Demo.posted
        = Some (r, s')
        /\ statusCode r = 400%nat
        /\ data r = None
        /\ Ledger.balance <$> findById Ledger._id 22 (ledgers s') = Some 0%Qc)
  /\ (exists r s',
        updateLedgerEntry (ByObjectId 22) Demo.setBalanceBody
          Demo.postedUnreferenced = Some (r, s')
        /\ statusCode r = 200%nat
        /\ Ledger.balance <$> data r = Some 0%Qc
        /\ Ledger.balance <$> findById Ledger._id 22 (ledgers s') = Some 0%Qc)
  /\ exists r,
       updateLedgerEntry (ByCode "LGR003") Demo.setBalanceBody Demo.posted
       = Some (r, Demo.posted)
       /\ statusCode r = 400%nat.
Proof.
  split; [vm_compute; reflexivity |]. split; [compute_done |].
  split; [| split].
  - eexists _, _. split; [vm_compute; reflexivity |]. repeat split; compute_done.
  - eexists _, _. split; [vm_compute; reflexivity |]. repeat split; compute_done.
  - eexists. split; [vm_compute; reflexivity |]. reflexivity.
Qed.

End LedgerUpdate.
(** ** Reversing a transaction *)

Section Reversal.
Import Transaction TransactionController.

(** Reversing an already reversed transaction is refused and changes
    nothing. *)
Lemma reverseTransaction_already_reversed clk p s t :
  findOneByParam _id p (transactions s) = inr (Some t) ->
  status t = Reversed ->
  reverseTransaction clk p s = (fail 400 "Transaction already reversed", s).
Proof.
  intros Hf Hs. unfold reverseTransaction. rewrite Hf.
  by rewrite bool_decide_eq_true_2.
Qed.

Lemma validateAmount_negated t fields :
  (0 ≤ amount t)%Qc -> amount fields = (- amount t)%Qc ->
  exists e, validateAmount fields = inl e.
Proof.
  intros Hpos Hneg. unfold validateAmount. rewrite Hneg.
  rewrite bool_decide_eq_true_2; [by eexists |].
  apply Qcle_lt_trans with 0%Qc; [|done].
  exact (Qcopp_le_compat _ _ Hpos).
Qed.

(** The reversal copies the original with [amount: -original.amount]; the
    [min: 0.01] validator of the schema refuses it whenever the original
    amount is not negative, so the request fails in the [catch] block and
    nothing is written. *)
Lemma reverseTransaction_rejected_by_min clk p s t :
  findOneByParam _id p (transactions s) = inr (Some t) ->
  status t <> Reversed ->
  (0 ≤ amount t)%Qc ->
  exists e, reverseTransaction clk p s = (fail 400 e, s).
Proof.
  intros Hf Hs Hpos. unfold reverseTransaction. rewrite Hf.
  rewrite bool_decide_eq_false_2 by done.
  unfold Transaction_create.
  destruct (requiredPaths _) as [e | []]; [by exists e |].
  unfold mbind at 1, Thrown_bind at 1.
  edestruct (validateAmount_negated t) as [e ->]; [done | reflexivity |].
  by exists e.
Qed.

(** C3: reversing the completed deposit TXN25001 of 100, which is
    document 4.  [POST /api/transactions/4/reverse] is answered 400 from the
    [catch] block (the validation error of [amount]); the store is left as
    it was: no reversal record exists and the original is still
    [Completed], with no related transaction.  Addressed by its code
    TXN25001 the request is answered 400 as well (the code cannot be cast
    to an ObjectId) and the store is left as it was. *)
Theorem reverseTransaction_completed_deposit_fails :
  let r := reverseTransaction (mkClock (Demo.day 5) 2025) (ByCode "TXN25001") Demo.store in
  let r' := reverseTransaction (mkClock (Demo.day 5) 2025) (ByObjectId 4) Demo.store in
  (amount <$> findByCode transaction_id "TXN25001" (transactions Demo.store)
   = Some (num 100))
  /\ statusCode r.1 = 400%nat
  /\ data r.1 = None
  /\ r.2 = Demo.store
  /\ length (transactions r.2) = 1%nat
  /\ (fun t => (status t, related_transaction t))
       <$> findByCode transaction_id "TXN25001" (transactions r.2)
     = Some (Completed, None)
  /\ findById _id 4 (transactions Demo.store)
     = findByCode transaction_id "TXN25001" (transactions Demo.store)
  /\ statusCode r'.1 = 400%nat
  /\ message r'.1
     = Some "Transaction validation failed: amount: Path `amount` is less than minimum allowed value (0.01)."
  /\ data r'.1 = None
  /\ r'.2 = Demo.store
  /\ length (transactions r'.2) = 1%nat
  /\ (fun t => (status t, related_transaction t))
       <$> findById _id 4 (transactions r'.2)
     = Some (Completed, None).
Proof. cbv zeta. repeat split; compute_done. Qed.

End Reversal.
(** ** Installments *)

Section Installments.
Import Installment InstallmentController.

Lemma Qc_pending_pos_lt (amount paid : Qc) :
  (0 < amount - paid)%Qc -> (paid < amount)%Qc.
Proof.
  intros H. apply Qclt_minus_iff. exact H.
Qed.

Lemma deriveStatus_cases now due amount paid status :
  deriveStatus now due amount paid (amount - paid)%Qc status
  = if (due <? now) && bool_decide (0 < amount - paid)%Qc then Late
    else if bool_decide (0 < paid)%Qc && bool_decide (amount - paid ≤ 0)%Qc then Paid
    else if bool_decide (0 < paid)%Qc then Partial
    else status.
Proof.
  unfold deriveStatus.
  set (pend := (amount - paid)%Qc).
  destruct (decide (0 < paid)%Qc) as [Hp | Hp].
  - rewrite (bool_decide_eq_true_2 (0 < paid)%Qc) by done.
    rewrite (bool_decide_eq_false_2 (paid = 0%Qc))
      by (intros E; by apply (Qclt_not_eq _ _ Hp)).
    destruct (decide (pend ≤ 0)%Qc) as [Hl | Hl].
    + rewrite (bool_decide_eq_true_2 (pend ≤ 0)%Qc) by done.
      rewrite (bool_decide_eq_false_2 (0 < pend)%Qc) by (by apply Qcle_not_lt).
      simpl. by rewrite andb_false_r.
    + rewrite (bool_decide_eq_false_2 (pend ≤ 0)%Qc) by done.
      apply Qcnot_le_lt in Hl.
      rewrite (bool_decide_eq_true_2 (0 < pend)%Qc) by done.
      rewrite (bool_decide_eq_true_2 (paid < amount)%Qc)
        by (by apply Qc_pending_pos_lt).
      simpl. by rewrite andb_true_r.
  - rewrite (bool_decide_eq_false_2 (0 < paid)%Qc) by done.
    by rewrite andb_false_r.
Qed.

(** C4 (as amended): what the hook leaves in [pending_amount] and [status].
    [Late] when the due date has passed and something is pending; otherwise
    [Paid] or [Partial] when something has been paid; otherwise the status
    the document came with. *)
Theorem installment_status_after_save (clk : Clock) (s : Store) (isNew : bool)
    (this : Installment.t) :
  let saved := InstallmentSchema_preSave clk s isNew this in
  pending_amount saved = (amount this - paid_amount this)%Qc
  /\ status saved
     = if (due_date this <? now clk)
          && bool_decide (0 < pending_amount saved)%Qc then Late
       else if bool_decide (0 < paid_amount this)%Qc
               && bool_decide (pending_amount saved ≤ 0)%Qc then Paid
       else if bool_decide (0 < paid_amount this)%Qc then Partial
       else status this.
Proof.
  simpl. split; [done |]. apply deriveStatus_cases.
Qed.

(** A positive payment that covers the amount leaves the installment
    [Paid], overdue or not. *)
Lemma installment_cleared_is_paid clk s isNew this :
  (0 < paid_amount this)%Qc -> (amount this - paid_amount this ≤ 0)%Qc ->
  status (InstallmentSchema_preSave clk s isNew this) = Paid.
Proof.
  intros Hpaid Hfull. simpl. rewrite deriveStatus_cases.
  rewrite (bool_decide_eq_false_2 (0 < _)%Qc) by (by apply Qcle_not_lt).
  rewrite andb_false_r.
  by rewrite !bool_decide_eq_true_2.
Qed.

(** C4, counterexample to the rule "otherwise, if [pending_amount <= 0] the
    status is Paid": a new zero-amount installment, not yet due, is saved
    with [pending_amount = 0] and status [Pending]. *)
Lemma installment_status_counterexample :
  let clk := mkClock (Demo.day 60) 2025 in
  let saved := InstallmentSchema_preSave clk Demo.store true Demo.zeroInstallment in
  installment_id saved = "INS003"
  /\ ~ (due_date saved < now clk /\ (0 < pending_amount saved)%Qc)
  /\ (pending_amount saved ≤ 0)%Qc
  /\ status saved = Pending
  /\ status saved <> Paid.
Proof.
  cbv zeta. repeat split; compute_done.
Qed.

End Installments.

(** ** Recording a payment *)

Section Payments.
Import Installment InstallmentController.

(** C7: a payment against an installment that is [Paid] with nothing
    pending is answered 400, and the store (installments and receipts
    alike) is left as it was. *)
Theorem recordPayment_already_paid (clk : Clock) (employee : ObjectId)
    (p : IdParam) (b : PayBody) (s : Store) (installment : Installment.t) :
  findOneByParam _id p (installments s) = inr (Some installment) ->
  status installment = Paid ->
  (pending_amount installment ≤ 0)%Qc ->
  recordPayment clk employee p b s
  = Some (fail 400 "Installment already fully paid", s).
Proof.
  intros Hf Hs Hp. unfold recordPayment. rewrite Hf.
  rewrite (bool_decide_eq_true_2 _ Hs), (bool_decide_eq_true_2 _ Hp).
  reflexivity.
Qed.

Lemma recordPayment_already_paid_witness :
  (status <$> findById _id 11 (installments Demo.store) = Some Paid)
  /\ recordPayment (mkClock (Demo.day 41) 2025) 9 (ByObjectId 11)
       (mkPayBody (Some (JNum (num 500))) (Some Cash) None None) Demo.store
     = Some (fail 400 "Installment already fully paid", Demo.store).
Proof.
  split; [vm_compute; reflexivity |].
  apply (recordPayment_already_paid _ _ _ _ _
           (Installment.mk 11 "INS002" 7 2 6 (Some 2) (Some "Month 2") (Demo.day 40)
              (num 1000) (Some (Demo.day 35)) (num 1000) 0 Installment.Paid 0
              (Some 9%nat) (Some Cash) None));
    [vm_compute; reflexivity | reflexivity | compute_done].
Defined.

(** [ceilDiv a b] is the least integer [k] with [a <= k * b]. *)
Lemma ceilDiv_spec a b :
  0 < b -> (ceilDiv a b - 1) * b < a <= ceilDiv a b * b.
Proof.
  intros Hb. unfold ceilDiv.
  pose proof (Z_div_mod_eq_full (- a) b) as E.
  pose proof (Z.mod_pos_bound (- a) b Hb) as M. nia.
Qed.

(** What a payment of a JSON number that is not refused writes into the
    installment. *)
Lemma recordPayment_installment clk employee p b s installment x :
  findOneByParam _id p (installments s) = inr (Some installment) ->
  ~ (status installment = Paid /\ (pending_amount installment ≤ 0)%Qc) ->
  body_paid_amount b = Some (JNum x) ->
  exists r s' saved,
    recordPayment clk employee p b s = Some (r, s')
    /\ findById _id (_id installment) (installments s') = Some saved
    /\ late_fee saved = computeLateFee clk s installment
    /\ paid_amount saved = (paid_amount installment + x)%Qc
    /\ pending_amount saved = (amount installment - paid_amount saved)%Qc.
Proof.
  intros Hf Hnot Hb. unfold recordPayment. rewrite Hf, Hb.
  destruct (bool_decide (status installment = Paid)
            && bool_decide (pending_amount installment ≤ 0)%Qc) eqn:Hc.
  { apply andb_true_iff in Hc as [H1 H2].
    apply bool_decide_eq_true in H1, H2. by destruct Hnot. }
  cbn [mbind option_bind addPayment JsValue.plus JsValue.number].
  unfold Installment_save.
  match goal with
  | |- context [InstallmentSchema_preSave clk s false ?u] =>
      set (updated := u); set (saved := InstallmentSchema_preSave clk s false updated)
  end.
  assert (findById _id (_id installment)
            (replaceDoc _id saved (installments s)) = Some saved) as Hfound.
  { apply (findById_replaceDoc _id saved installment);
      [by eapply findOneByParam_found | done]. }
  match goal with
  | |- exists r s' saved0, Some ?X = Some (r, s') /\ _ =>
      exists X.1, X.2, saved; split; [by destruct X |]
  end.
  split; [| by repeat split].
  cbn [setInstallments members installments].
  destruct (findById Member._id _ _); [|done].
  destruct (Receipt_create _ _ _ _ _ _ _ _ _) as [e | [r s2]] eqn:Hr; [done |].
  unfold Receipt_create in Hr. cbn [branches receipts nextObjectId] in Hr.
  destruct (findById Branch._id _ _); [|done].
  case_bool_decide; [done |]. by injection Hr as <- <-.
Qed.

(** C9: a payment that is recorded sets [late_fee] from scratch: after the
    due date to amount x 2% x days late, the days being the milliseconds
    past the due date divided by one day and rounded up; to 0 otherwise.
    The value depends neither on the late fee stored before nor on the
    scheme of the installment: no scheme document holds a [late_fee_rate],
    and the rate is 2% for every scheme. *)
Theorem recordPayment_late_fee (clk : Clock) (employee : ObjectId) (p : IdParam)
    (b : PayBody) (s : Store) (installment : Installment.t) (x : Number) :
  findOneByParam _id p (installments s) = inr (Some installment) ->
  ~ (status installment = Paid /\ (pending_amount installment ≤ 0)%Qc) ->
  body_paid_amount b = Some (JNum x) ->
  exists r s' saved,
    recordPayment clk employee p b s = Some (r, s')
    /\ findById _id (_id installment) (installments s') = Some saved
    /\ late_fee saved
       = if due_date installment <? now clk then
           (amount installment * Q2Qc (2 # 100)
            * num (ceilDiv (now clk - due_date installment) (1000 * 60 * 60 * 24)))%Qc
         else 0%Qc.
Proof.
  intros Hf Hnot Hb.
  destruct (recordPayment_installment clk employee p b s installment x Hf Hnot Hb)
    as (r & s' & saved & Hr & Hs & Hfee & _).
  exists r, s', saved. split; [done |]. split; [done |]. rewrite Hfee. reflexivity.
Qed.

Lemma recordPayment_late_fee_witness :
  exists r s' saved,
    recordPayment (mkClock (Demo.day 12 + 1) 2025) 9 (ByObjectId 8)
      (mkPayBody (Some (JNum (num 400))) (Some Cash) None None) Demo.store
    = Some (r, s')
    /\ findById _id 8%nat (installments s') = Some saved
    /\ late_fee saved = num 60.
Proof.
  destruct (recordPayment_late_fee (mkClock (Demo.day 12 + 1) 2025) 9
              (ByObjectId 8) (mkPayBody (Some (JNum (num 400))) (Some Cash) None None)
              Demo.store
              (Installment.mk 8 "INS001" 7 2 6 (Some 1) (Some "Month 1") (Demo.day 10)
                 (num 1000) None 0 (num 1000) Installment.Pending 0 None None None)
              (num 400))
    as (r & s' & saved & Hr & Hs & Hfee);
    [vm_compute; reflexivity | intros [H _]; discriminate H | reflexivity |].
  exists r, s', saved. split; [exact Hr |]. split; [exact Hs |].
  rewrite Hfee. compute_done.
Defined.

End Payments.
(** ** Adding a member to a group *)

Section Groups.
Import Group GroupController.

(** C8, counterexample to "any request whose payout month is taken is
    answered 400": month 1 of GRP001 (document 7) belongs to Asha; a request
    for month 1 that names an unknown member is answered 404. *)
Lemma addGroupMember_unknown_member_404 :
  let r := addGroupMember (mkClock (Demo.day 1) 2025) (ByObjectId 7)
             (mkAddBody 99 (Some (num 1))) Demo.store in
  (exists g m, findById _id 7 (groups Demo.store) = Some g
               /\ group_id g = "GRP001"
               /\ m ∈ members g /\ member_id m <> 99%nat
               /\ payout_month m = num 1)
  /\ statusCode r.1 = 404%nat
  /\ statusCode r.1 <> 400%nat.
Proof.
  cbv zeta. split; [|split; compute_done].
  eexists _, _. split; [vm_compute; reflexivity |]. split; [reflexivity |].
  split; [apply list_elem_of_here |]. split; [compute_done | compute_done].
Qed.

Lemma existsb_elem {A} (f : A -> bool) (l : list A) x :
  x ∈ l -> f x = true -> existsb f l = true.
Proof.
  intros Hin Hf. apply existsb_exists. exists x. split; [|done].
  by apply list_elem_of_In.
Qed.

(** C8 (as amended): for a request that names an existing member and an
    existing group,
    - a payout month already held by a member of the group is answered 400
      and the store is left as it was;
    - when the member is added (201), the group was [Forming] and its
      members now number at least [scheme.min_members], the stored group is
      [Active]. *)
Theorem addGroupMember_contract (clk : Clock) (p : IdParam) (b : AddBody)
    (s : Store) (newcomer : Member.t) (group : Group.t) :
  findById Member._id (body_member_id b) (memberDocs s) = Some newcomer ->
  findOneByParam _id p (groups s) = inr (Some group) ->
  ((exists m, m ∈ members group /\ Some (payout_month m) = body_payout_month b) ->
   statusCode (addGroupMember clk p b s).1 = 400%nat
   /\ (addGroupMember clk p b s).2 = s)
  /\ (forall group' scheme,
        (addGroupMember clk p b s).1 = ok 201 group' ->
        findById Scheme._id (scheme_id group) (schemes s) = Some scheme ->
        status group = Forming ->
        (Scheme.min_members scheme ≤ num (Z.of_nat (length (members group'))))%Qc ->
        status group' = Active
        /\ length (members group') = S (length (members group))
        /\ findById _id (_id group) (groups (addGroupMember clk p b s).2)
           = Some group').
Proof.
  intros Hm Hg. unfold addGroupMember. rewrite Hm, Hg. split.
  - intros (m & Hin & Hmonth).
    destruct (existsb _ (members group)); [done |].
    rewrite (existsb_elem _ _ m Hin) by (by apply bool_decide_eq_true_2).
    done.
  - intros group' scheme Hok Hsch Hforming Hmin. revert Hok.
    destruct (existsb _ (members group)); [discriminate |].
    destruct (existsb _ (members group)); [discriminate |].
    rewrite Hsch.
    destruct (body_payout_month b) as [month|]; [|discriminate].
    match goal with |- context [Group_save s ?g] => set (gnew := g) end.
    destruct (Group_save s gnew) as [e | s'] eqn:Hsave; [discriminate |].
    simpl. intros [= <-].
    assert (status gnew = Active) as Hactive.
    { subst gnew. simpl in *.
      by rewrite (bool_decide_eq_true_2 _ Hmin), (bool_decide_eq_true_2 _ Hforming). }
    split; [done |]. split; [subst gnew; simpl; rewrite length_app; simpl; lia |].
    unfold Group_save in Hsave.
    destruct (validateMembers gnew) as [? | []]; [discriminate |].
    unfold mbind at 1, Thrown_bind at 1 in Hsave.
    destruct (preSavePayoutMonths s gnew) as [? | []]; [discriminate |].
    unfold mbind, Thrown_bind in Hsave. injection Hsave as <-. simpl.
    apply (findById_replaceDoc _id gnew group); [|done].
    by eapply findOneByParam_found.
Qed.

Lemma addGroupMember_contract_witness :
  (statusCode (addGroupMember (mkClock (Demo.day 1) 2025) (ByObjectId 7)
                 (mkAddBody 3 (Some (num 1))) Demo.store).1 = 400%nat
   /\ (addGroupMember (mkClock (Demo.day 1) 2025) (ByObjectId 7)
         (mkAddBody 3 (Some (num 1))) Demo.store).2 = Demo.store)
  /\ exists group',
       (addGroupMember (mkClock (Demo.day 1) 2025) (ByObjectId 7)
          (mkAddBody 3 (Some (num 2))) Demo.store).1 = ok 201 group'
       /\ status group' = Active
       /\ length (members group') = 2%nat.
Proof.
  pose (clk := mkClock (Demo.day 1) 2025).
  pose (g := Group.mk 7 "GRP001" 1 6 0 Forming [mkMember 2 0 (num 1) false] (num 1)).
  pose (ravi := Member.mk 3 "MEM002" 1 "Ravi").
  split.
  - apply (addGroupMember_contract clk (ByObjectId 7) (mkAddBody 3 (Some (num 1)))
             Demo.store ravi g); [reflexivity | reflexivity |].
    exists (mkMember 2 0 (num 1) false). split; [apply list_elem_of_here | reflexivity].
  - eexists. split; [vm_compute; reflexivity |].
    destruct (addGroupMember_contract clk (ByObjectId 7) (mkAddBody 3 (Some (num 2)))
                Demo.store ravi g) as [_ H]; [reflexivity | reflexivity |].
    edestruct H as (Ha & Hl & _);
      [vm_compute; reflexivity | reflexivity | reflexivity | compute_done |].
    split; [exact Ha | exact Hl].
Defined.

End Groups.

(** ** Groups: what every save keeps *)

Section GroupInvariant.
Import Group GroupController GroupLifecycle.

Lemma Forall_replaceDoc {D} (oid : D -> ObjectId) (P : D -> Prop) d l :
  Forall P l -> P d -> Forall P (replaceDoc oid d l).
Proof.
  intros Hl Hd. unfold replaceDoc. apply Forall_fmap.
  eapply Forall_impl; [exact Hl |]. intros x Hx. simpl. by case_bool_decide.
Qed.

(** What a successful [Group_save] has checked and written. *)
Lemma Group_save_inr s g s' :
  Group_save s g = inr s' ->
  NoDup (payout_month <$> members g)
  /\ Forall (fun m => (1 ≤ payout_month m)%Qc) (members g)
  /\ (exists scheme,
        findById Scheme._id (scheme_id g) (schemes s) = Some scheme
        /\ Forall (fun m => (payout_month m ≤ Scheme.duration_months scheme)%Qc) (members g))
  /\ s' = setGroups s (replaceDoc _id g (groups s)).
Proof.
  intros H. unfold Group_save in H.
  destruct (validateMembers g) as [? | []] eqn:Hv; [discriminate |].
  unfold mbind at 1, Thrown_bind at 1 in H.
  destruct (preSavePayoutMonths s g) as [? | []] eqn:Hp; [discriminate |].
  unfold mbind, Thrown_bind in H. injection H as <-.
  unfold validateMembers in Hv.
  destruct (forallb _ (members g)) eqn:Hmin in Hv; [|discriminate].
  unfold preSavePayoutMonths in Hp.
  destruct (bool_decide (NoDup (payout_month <$> members g))) eqn:Hnd; [|discriminate].
  simpl in Hp. destruct (findById Scheme._id _ _) as [scheme|] eqn:Hs; [|discriminate].
  destruct (forallb _ (members g)) eqn:Hmax in Hp; [|discriminate].
  split; [by apply bool_decide_eq_true in Hnd |].
  split.
  { apply Forall_forall. intros m Hm. rewrite forallb_forall in Hmin.
    apply list_elem_of_In in Hm. by apply Hmin, bool_decide_eq_true in Hm. }
  split; [|done]. exists scheme. split; [done |].
  apply Forall_forall. intros m Hm. rewrite forallb_forall in Hmax.
  apply list_elem_of_In in Hm. apply Hmax in Hm.
  apply negb_true_iff, bool_decide_eq_false in Hm. by apply Qcnot_lt_le.
Qed.

Lemma Group_save_groupOK s g s' :
  Group_save s g = inr s' ->
  NoDup (member_id <$> members g) ->
  groupOK s g.
Proof.
  intros Hsave Hnd.
  destruct (Group_save_inr _ _ _ Hsave) as (Hm & Hmin & (scheme & Hs & Hmax) & _).
  repeat split; try done. intros scheme' Hs'. rewrite Hs in Hs'. by injection Hs' as <-.
Qed.

(** The member ids sent with a new group: all of them are counted among the
    stored members only when they are pairwise distinct. *)
Lemma countMembersIn_NoDup memberIds s :
  NoDup (Member._id <$> memberDocs s) ->
  countMembersIn memberIds s = length memberIds ->
  NoDup memberIds.
Proof.
  intros Hnd Hcount. unfold countMembersIn in Hcount.
  set (found := filter (fun m => Member._id m ∈ memberIds) (memberDocs s)) in *.
  assert (NoDup (Member._id <$> found)) as Hf.
  { eapply sublist_NoDup; [exact Hnd |]. apply fmap_sublist, sublist_filter. }
  assert (Member._id <$> found ⊆+ memberIds) as Hsub.
  { apply NoDup_submseteq; [done |]. intros x Hx.
    apply list_elem_of_fmap in Hx as (m & -> & Hm).
    by apply list_elem_of_filter in Hm as [Hm _]. }
  apply submseteq_length_Permutation in Hsub.
  - by rewrite <- Hsub.
  - rewrite length_fmap. lia.
Qed.

Lemma castMembers_ids now l ms :
  castMembers now l = inr ms -> member_id <$> ms = bm_member_id <$> l.
Proof.
  revert ms. induction l as [|m l IH]; intros ms; simpl.
  - by intros [= <-].
  - destruct (bm_payout_month m); [|discriminate].
    destruct (castMembers now l) as [e | rest]; [discriminate |].
    simpl. intros [= <-]. simpl. f_equal. by apply IH.
Qed.

(** One request: the schemes and the members are not touched, and the
    groups are as before, or one checked group is appended, or one checked
    group is written back. *)
Lemma handle_groups r s :
  NoDup (Member._id <$> memberDocs s) ->
  Forall (groupOK s) (groups s) ->
  schemes (handle r s) = schemes s
  /\ memberDocs (handle r s) = memberDocs s
  /\ Forall (groupOK s) (groups (handle r s)).
Proof.
  intros Hmem Hok. destruct r as [clk b | clk p b | p memberId | p]; simpl.
  - (* createGroup *)
    unfold createGroup.
    destruct (validateReferences _ _ _ s) as [e | []] eqn:Hv; [done |].
    destruct (body_branch_id b) as [branch|]; [|done].
    destruct (body_scheme_id b) as [scheme|]; [|done].
    destruct (Group_create clk s b branch scheme) as [e | [g s']] eqn:Hc; [done |].
    unfold Group_create in Hc.
    destruct (body_start_date b) as [start|]; [|discriminate].
    destruct (castMembers _ _) as [e | ms] eqn:Hcast; [discriminate |].
    unfold mbind at 1, Thrown_bind at 1 in Hc.
    match type of Hc with context [validateMembers ?d] => set (doc := d) in * end.
    assert (exists s0, Group_save s doc = inr s0) as [s0 Hsave].
    { unfold Group_save.
      destruct (validateMembers doc) as [? | []]; [discriminate |].
      unfold mbind at 1, Thrown_bind at 1 in Hc. unfold mbind at 1, Thrown_bind at 1.
      destruct (preSavePayoutMonths s doc) as [? | []]; [discriminate |].
      by eexists. }
    destruct (validateMembers doc) as [? | []]; [discriminate |].
    unfold mbind at 1, Thrown_bind at 1 in Hc.
    destruct (preSavePayoutMonths s doc) as [? | []]; [discriminate |].
    unfold mbind, Thrown_bind in Hc.
    case_bool_decide; [discriminate |]. injection Hc as <- <-. simpl.
    split; [done |]. split; [done |].
    apply Forall_app. split; [done |]. apply Forall_singleton.
    apply (Group_save_groupOK _ _ _ Hsave). subst doc. simpl.
    rewrite (castMembers_ids _ _ _ Hcast).
    unfold validateReferences in Hv.
    repeat (case_bool_decide; [discriminate |]).
    destruct (orElse (body_members b) []) as [|m0 l0] eqn:Hl; [constructor |].
    rewrite <- Hl in *.
    destruct (bool_decide (0 < length _)%nat && _) eqn:Hcnt; [discriminate |].
    apply andb_false_iff in Hcnt as [Hcnt | Hcnt].
    + apply bool_decide_eq_false in Hcnt. rewrite Hl in Hcnt. simpl in Hcnt. lia.
    + apply negb_false_iff, bool_decide_eq_true in Hcnt.
      by apply (countMembersIn_NoDup _ s).
  - (* addGroupMember *)
    unfold addGroupMember.
    destruct (findById Member._id _ _); [|done].
    destruct (findOneByParam _ _ _) as [e | [group|]] eqn:Hg; [done | | done].
    destruct (existsb (fun m => bool_decide (member_id m = body_member_id b))
                (members group)) eqn:Hin; [done |].
    destruct (existsb (fun m => bool_decide (Some (payout_month m) = body_payout_month b))
                (members group)); [done |].
    destruct (findById Scheme._id _ _) as [scheme|]; [|done].
    destruct (body_payout_month b) as [month|]; [|done].
    match goal with |- context [Group_save s ?g] => set (gnew := g) end.
    destruct (Group_save s gnew) as [e | s'] eqn:Hsave; [done |].
    destruct (Group_save_inr _ _ _ Hsave) as (_ & _ & _ & ->). simpl.
    split; [done |]. split; [done |].
    apply Forall_replaceDoc; [done |].
    apply (Group_save_groupOK _ _ _ Hsave). subst gnew. simpl.
    rewrite fmap_app. apply NoDup_app. split.
    { apply findOneByParam_found in Hg as (_ & Hg & _). rewrite Forall_forall in Hok.
      by destruct (Hok _ Hg) as [? _]. }
    split; [|apply NoDup_singleton].
    intros x Hx [->|Hn]%elem_of_cons; [|by apply elem_of_nil in Hn].
    apply list_elem_of_fmap in Hx as (m & Hm & Hmin).
    assert (existsb (fun m => bool_decide (member_id m = body_member_id b)) (members group) = true)
      as Hc; [|congruence].
    apply existsb_exists. exists m. split; [by apply list_elem_of_In |].
    by apply bool_decide_eq_true.
  - (* removeGroupMember *)
    unfold removeGroupMember.
    destruct (findOneByParam _ _ _) as [e | [group|]] eqn:Hg; [done | | done].
    destruct (list_find _ (members group)) as [[i m]|]; [|done].
    destruct (findById Scheme._id _ _) as [scheme|]; [|done].
    match goal with |- context [Group_save s ?g] => set (gnew := g) end.
    destruct (Group_save s gnew) as [e | s'] eqn:Hsave; [done |].
    destruct (Group_save_inr _ _ _ Hsave) as (_ & _ & _ & ->). simpl.
    split; [done |]. split; [done |].
    apply Forall_replaceDoc; [done |].
    apply (Group_save_groupOK _ _ _ Hsave). subst gnew. simpl.
    apply findOneByParam_found in Hg as (_ & Hg & _). rewrite Forall_forall in Hok.
    destruct (Hok _ Hg) as [Hnd _].
    eapply sublist_NoDup; [exact Hnd |]. apply fmap_sublist, sublist_delete.
  - (* advanceGroupMonth *)
    unfold advanceGroupMonth.
    destruct (findOneByParam _ _ _) as [e | [group|]] eqn:Hg; [done | | done].
    destruct (negb _); [done |].
    destruct (findById Scheme._id _ _) as [scheme|]; [|done].
    apply findOneByParam_found in Hg as (_ & Hg & _). rewrite Forall_forall in Hok.
    destruct (Hok _ Hg) as [Hnd _]. rewrite <- Forall_forall in Hok.
    case_bool_decide.
    + match goal with |- context [Group_save s ?g] => set (gnew := g) end.
      destruct (Group_save s gnew) as [e | s'] eqn:Hsave; [done |].
      destruct (Group_save_inr _ _ _ Hsave) as (_ & _ & _ & ->). simpl.
      split; [done |]. split; [done |].
      apply Forall_replaceDoc; [done |]. by apply (Group_save_groupOK _ _ _ Hsave).
    + match goal with |- context [Group_save s ?g] => set (gnew := g) end.
      destruct (Group_save s gnew) as [e | s'] eqn:Hsave; [done |].
      destruct (Group_save_inr _ _ _ Hsave) as (_ & _ & _ & ->). simpl.
      split; [done |]. split; [done |].
      apply Forall_replaceDoc; [done |]. by apply (Group_save_groupOK _ _ _ Hsave).
Qed.

Lemma groupOK_schemes s s' g : schemes s' = schemes s -> groupOK s g -> groupOK s' g.
Proof. unfold groupOK. by intros ->. Qed.

(** X1: whatever sequence of createGroup, addGroupMember, removeGroupMember
    and advanceGroupMonth requests is served, every stored group keeps
    pairwise distinct members, pairwise distinct payout months, and payout
    months between 1 and the duration of its scheme. *)
Theorem group_requests_keep_groups_well_formed (rs : list Request) (s : Store) :
  NoDup (Member._id <$> memberDocs s) ->
  Forall (groupOK s) (groups s) ->
  Forall (groupOK (handleAll rs s)) (groups (handleAll rs s)).
Proof.
  revert s. induction rs as [|r rs IH]; intros s Hmem Hok; [done |].
  unfold handleAll. simpl. fold (handleAll rs (handle r s)).
  destruct (handle_groups r s Hmem Hok) as (Hs & Hm & Hg).
  apply IH.
  - by rewrite Hm.
  - eapply Forall_impl; [exact Hg |]. intros g. by apply groupOK_schemes.
Qed.

Lemma group_requests_keep_groups_well_formed_witness :
  Forall (groupOK (handleAll [AddGroupMember Scenario.clk (ByObjectId 7) Scenario.addRavi;
                              AdvanceGroupMonth (ByObjectId 7);
                              RemoveGroupMember (ByObjectId 7) 2] Demo.store))
    (groups (handleAll [AddGroupMember Scenario.clk (ByObjectId 7) Scenario.addRavi;
                        AdvanceGroupMonth (ByObjectId 7);
                        RemoveGroupMember (ByObjectId 7) 2] Demo.store)).
Proof.
  apply group_requests_keep_groups_well_formed; [compute_done |].
  apply Forall_singleton. split; [compute_done |]. split; [compute_done |].
  split; [compute_done |]. intros scheme Hs. vm_compute in Hs.
  injection Hs as <-. compute_done.
Defined.

End GroupInvariant.

Section GroupRoundTrips.
Import Group GroupController GroupLifecycle.

Lemma Group_save_valid s g :
  groupValid s g ->
  Group_save s g = inr (setGroups s (replaceDoc _id g (groups s))).
Proof.
  intros (Hmin & Hnd & scheme & Hs & Hmax).
  unfold Group_save, validateMembers, preSavePayoutMonths.
  assert (forallb (fun m => bool_decide (1 ≤ payout_month m)%Qc) (members g) = true) as ->.
  { apply forallb_forall. intros m Hm. apply list_elem_of_In in Hm.
    rewrite Forall_forall in Hmin. by apply bool_decide_eq_true, Hmin. }
  unfold mbind at 1, Thrown_bind at 1.
  rewrite (bool_decide_eq_true_2 _ Hnd). simpl. rewrite Hs.
  assert (forallb (fun m => negb (bool_decide
                     (Scheme.duration_months scheme < payout_month m)%Qc))
            (members g) = true) as ->.
  { apply forallb_forall. intros m Hm. apply list_elem_of_In in Hm.
    rewrite Forall_forall in Hmax. apply negb_true_iff, bool_decide_eq_false.
    by apply Qcle_not_lt, Hmax. }
  reflexivity.
Qed.

Lemma Group_save_groupValid s g s' : Group_save s g = inr s' -> groupValid s g.
Proof.
  intros H. destruct (Group_save_inr _ _ _ H) as (Hnd & Hmin & Hsch & _).
  by repeat split.
Qed.

Lemma list_find_snoc_new (l : list member) (x : member) :
  Forall (fun m => member_id m <> member_id x) l ->
  list_find (fun m => member_id m = member_id x) (l ++ [x]) = Some (length l, x).
Proof.
  intros Hl. apply list_find_Some. split; [by apply list_lookup_middle |].
  split; [done |]. intros j y Hj Hlt.
  rewrite lookup_app_l in Hj by done.
  rewrite Forall_forall in Hl. apply Hl. by eapply list_elem_of_lookup_2.
Qed.

Lemma delete_snoc {A} (l : list A) x : delete (length l) (l ++ [x]) = l.
Proof. induction l as [|y l IH]; simpl; [done | by f_equal]. Qed.

(** X2: a member that has just been added can be removed again, and the
    group then has the members it had before, and the [group_id],
    [branch_id], [scheme_id], [start_date] and [current_month] it had.  Its
    status is also back to what it was when that status agreed with the
    member count ([Forming] only below [min_members], [Active] only from
    [min_members] on).  The statement is on the paths GroupSchema declares:
    [updatedAt] and [__v], which every save changes, are not among them. *)
Theorem remove_after_add_restores_group (clk : Clock) (p : IdParam) (b : AddBody)
    (s : Store) (added : Group.t) :
  (addGroupMember clk p b s).1 = ok 201 added ->
  exists group scheme restored,
    findOneByParam _id p (groups s) = inr (Some group)
    /\ findById Scheme._id (scheme_id group) (schemes s) = Some scheme
    /\ (removeGroupMember p (body_member_id b) (addGroupMember clk p b s).2).1
       = ok 200 restored
    /\ findById _id (_id group)
         (groups (removeGroupMember p (body_member_id b)
                    (addGroupMember clk p b s).2).2) = Some restored
    /\ members restored = members group
    /\ _id restored = _id group
    /\ group_id restored = group_id group
    /\ branch_id restored = branch_id group
    /\ scheme_id restored = scheme_id group
    /\ start_date restored = start_date group
    /\ current_month restored = current_month group
    /\ ((status group = Forming ->
         (num (Z.of_nat (length (members group))) < Scheme.min_members scheme)%Qc) ->
        (status group = Active ->
         (Scheme.min_members scheme ≤ num (Z.of_nat (length (members group))))%Qc) ->
        status restored = status group).
Proof.
  unfold addGroupMember.
  destruct (findById Member._id _ _); [|discriminate].
  destruct (findOneByParam _id p (groups s)) as [e | [group|]] eqn:Hg;
    [discriminate | | discriminate].
  destruct (existsb (fun m => bool_decide (member_id m = body_member_id b))
              (members group)) eqn:Hin; [discriminate |].
  destruct (existsb (fun m => bool_decide (Some (payout_month m) = body_payout_month b))
              (members group)); [discriminate |].
  destruct (findById Scheme._id _ _) as [scheme|] eqn:Hs; [|discriminate].
  destruct (body_payout_month b) as [month|]; [|discriminate].
  set (new := mkMember (body_member_id b) (now clk) month false).
  match goal with |- context [Group_save s ?g] => set (gnew := g) end.
  destruct (Group_save s gnew) as [e | s'] eqn:Hsave; [discriminate |].
  simpl. intros [= <-].
  destruct (Group_save_inr _ _ _ Hsave) as (_ & _ & _ & ->).
  pose proof (Group_save_groupValid _ _ _ Hsave) as (Hmin & Hnd & sch & Hsch & Hmax).
  exists group, scheme. eexists. split; [done |]. split; [done |].
  unfold removeGroupMember. simpl.
  rewrite (findOneByParam_replaceDoc _id p (groups s) group gnew) by done.
  subst gnew. simpl.
  assert (Forall (fun m => member_id m <> member_id new) (members group)) as Hnew.
  { apply Forall_forall. intros m Hm Heq.
    assert (existsb (fun m => bool_decide (member_id m = body_member_id b))
              (members group) = true) as Hc; [|congruence].
    apply existsb_exists. exists m. split; [by apply list_elem_of_In |].
    by apply bool_decide_eq_true. }
  assert (list_find (fun m => member_id m = body_member_id b) (members group ++ [new])
          = Some (length (members group), new)) as ->
    by exact (list_find_snoc_new _ _ Hnew).
  rewrite delete_snoc, Hs.
  match goal with |- context [Group_save ?s2 ?g] => set (gold := g); set (s1 := s2) end.
  assert (groupValid s1 gold) as Hvalid.
  { subst gold. simpl in *. rewrite Hs in Hsch. injection Hsch as <-.
    rewrite fmap_app in Hnd. apply NoDup_app in Hnd as [Hnd _].
    apply Forall_app in Hmin as [Hmin _]. apply Forall_app in Hmax as [Hmax _].
    repeat split; try done. exists scheme. by split. }
  rewrite (Group_save_valid _ _ Hvalid). simpl.
  split; [reflexivity |].
  split.
  { match goal with
    | |- findById _ _ (replaceDoc _ ?d (replaceDoc _ ?x ?l)) = _ =>
        apply (findById_replaceDoc _id d x (replaceDoc _id x l)); [| reflexivity]
    end.
    apply list_elem_of_fmap. exists group.
    split; [| by eapply findOneByParam_found].
    simpl. by rewrite (bool_decide_eq_true_2 (_id group = _id group)). }
  do 7 (split; [reflexivity |]).
  intros Hforming Hactive. subst gold. destruct group as [i gid br sc sd st ms cm].
  simpl in *.
  rewrite length_app. simpl.
  destruct st.
  - (* Forming *)
    specialize (Hforming eq_refl). rewrite (bool_decide_eq_true_2 _ Hforming).
    by destruct (bool_decide
                   (Scheme.min_members scheme ≤ num (Z.of_nat (length ms + 1)))%Qc).
  - (* Active *)
    specialize (Hactive eq_refl). simpl. rewrite andb_false_r.
    rewrite (bool_decide_eq_false_2 (_ < _)%Qc); [done |]. by apply Qcle_not_lt.
  - simpl. by rewrite !andb_false_r.
Qed.

Lemma remove_after_add_restores_group_witness :
  exists restored,
    (removeGroupMember (ByObjectId 7) 3 Scenario.active).1 = ok 200 restored
    /\ findById _id 7 (groups (removeGroupMember (ByObjectId 7) 3 Scenario.active).2)
       = Some restored
    /\ members restored = [mkMember 2 0 (num 1) false]
    /\ status restored = Forming.
Proof.
  destruct (remove_after_add_restores_group Scenario.clk (ByObjectId 7)
              Scenario.addRavi Demo.store
              (Group.mk 7 "GRP001" 1 6 0 Active
                 [mkMember 2 0 (num 1) false; mkMember 3 (Demo.day 1) (num 2) false]
                 (num 1)))
    as (group & scheme & restored & Hg & Hs & Hr & Hst & Hm & _ & _ & _ & _ & _ & _ & Hsame);
    [vm_compute; reflexivity |].
  vm_compute in Hg, Hs.
  injection Hg as <-. injection Hs as <-.
  exists restored. split; [exact Hr |]. split; [exact Hst |].
  split; [exact Hm |].
  apply Hsame; [intros _; compute_done | intros H; discriminate H].
Defined.

End GroupRoundTrips.

Section GroupAdvance.
Import Group GroupController GroupLifecycle.

Lemma withProgress_id g : withProgress g (status g) (current_month g) = g.
Proof. by destruct g. Qed.

Lemma groupValid_withProgress s g st month :
  groupValid s g -> groupValid s (withProgress g st month).
Proof. done. Qed.

Lemma groupValid_setGroups s l g : groupValid s g -> groupValid (setGroups s l) g.
Proof. done. Qed.

(** A group that is not [Active] is not advanced. *)
Lemma advanceGroupMonth_not_active p s group :
  findOneByParam _id p (groups s) = inr (Some group) ->
  status group <> Active ->
  advanceGroupMonth p s = (fail 400 "Group is not active", s).
Proof.
  intros Hg Hst. unfold advanceGroupMonth. rewrite Hg.
  by rewrite bool_decide_eq_false_2.
Qed.

Lemma advanceTimes_not_active k : forall p s group,
  findOneByParam _id p (groups s) = inr (Some group) ->
  status group <> Active ->
  advanceTimes k p s = s.
Proof.
  induction k as [|k IH]; intros p s group Hg Hst; [done |].
  unfold advanceTimes, handleAll. simpl.
  rewrite (advanceGroupMonth_not_active p s group Hg Hst). simpl.
  by apply (IH p s group).
Qed.

(** One advance of an active, valid group. *)
Lemma advanceGroupMonth_step p s group scheme :
  findOneByParam _id p (groups s) = inr (Some group) ->
  status group = Active ->
  findById Scheme._id (scheme_id group) (schemes s) = Some scheme ->
  groupValid s group ->
  let group' :=
    if bool_decide (Scheme.duration_months scheme ≤ current_month group)%Qc
    then withProgress group Completed (current_month group)
    else withProgress group Active (current_month group + 1)%Qc in
  (advanceGroupMonth p s).2 = setGroups s (replaceDoc _id group' (groups s))
  /\ statusCode (advanceGroupMonth p s).1 = 200%nat.
Proof.
  intros Hg Hst Hs Hv. unfold advanceGroupMonth. rewrite Hg, Hs.
  rewrite (bool_decide_eq_true_2 _ Hst). simpl.
  case_bool_decide.
  - fold (withProgress group Completed (current_month group)).
    by rewrite (Group_save_valid s _ (groupValid_withProgress s group _ _ Hv)).
  - rewrite Hst. fold (withProgress group Active (current_month group + 1)%Qc).
    by rewrite (Group_save_valid s _ (groupValid_withProgress s group _ _ Hv)).
Qed.

(** X3: an active group at month [c] of a scheme of [d] months ([c <= d])
    that passes the checks of its save hook (every payout month at least 1
    and at most [d], no payout month twice: [groupValid]) moves one month
    per advance up to month [d]; the advance requested at month [d] marks it
    [Completed] without moving the month; every later advance is refused
    and changes nothing. *)
Theorem advance_runs_to_completion (k : nat) : forall (p : IdParam) (s : Store)
    (group : Group.t) (scheme : Scheme.t) (c d : Z),
  findOneByParam _id p (groups s) = inr (Some group) ->
  status group = Active ->
  current_month group = num c ->
  findById Scheme._id (scheme_id group) (schemes s) = Some scheme ->
  Scheme.duration_months scheme = num d ->
  c <= d ->
  groupValid s group ->
  findOneByParam _id p (groups (advanceTimes k p s))
  = inr (Some (if bool_decide (Z.of_nat k <= d - c)
               then withProgress group Active (num (c + Z.of_nat k))
               else withProgress group Completed (num d))).
Proof.
  induction k as [|k IH]; intros p s group scheme c d Hg Hst Hc Hs Hd Hcd Hv.
  - rewrite bool_decide_eq_true_2 by lia. simpl.
    rewrite Z.add_0_r, <- Hc, <- Hst, withProgress_id. done.
  - unfold advanceTimes, handleAll. simpl.
    fold (handleAll (replicate k (AdvanceGroupMonth p)) (advanceGroupMonth p s).2).
    fold (advanceTimes k p (advanceGroupMonth p s).2).
    destruct (advanceGroupMonth_step p s group scheme Hg Hst Hs Hv) as [-> _].
    rewrite Hd, Hc.
    destruct (decide (d <= c)) as [Hle | Hlt].
    + assert (c = d) as -> by lia.
      rewrite (bool_decide_eq_true_2 (num d ≤ num d)%Qc) by (by apply Z2Qc_inj_le).
      rewrite (bool_decide_eq_false_2 (Z.of_nat (S k) <= d - d)) by lia.
      set (done_ := withProgress group Completed (num d)).
      assert (findOneByParam _id p
                (groups (setGroups s (replaceDoc _id done_ (groups s))))
              = inr (Some done_))
        as Hfound by (by apply (findOneByParam_replaceDoc _id p _ group)).
      by rewrite (advanceTimes_not_active k p _ done_ Hfound).
    + rewrite (bool_decide_eq_false_2 (num d ≤ num c)%Qc)
        by (intros H; apply Z2Qc_inj_le in H; lia).
      set (next := withProgress group Active (num c + 1)%Qc).
      assert (findOneByParam _id p
                (groups (setGroups s (replaceDoc _id next (groups s))))
              = inr (Some next))
        as Hfound by (by apply (findOneByParam_replaceDoc _id p _ group)).
      rewrite (IH p _ next scheme (c + 1) d Hfound); try done; try lia.
      * replace (c + 1 + Z.of_nat k) with (c + Z.of_nat (S k)) by lia.
        destruct (decide (Z.of_nat (S k) <= d - c)).
        -- by rewrite !bool_decide_eq_true_2 by lia.
        -- by rewrite !bool_decide_eq_false_2 by lia.
      * subst next. simpl. by rewrite Z2Qc_inj_add.
Qed.

Lemma advance_runs_to_completion_witness :
  (status <$> findById _id 7 (groups (advanceTimes 9 (ByObjectId 7) Scenario.active))
   = Some Active)
  /\ ((fun g => (status g, current_month g))
        <$> findById _id 7 (groups (advanceTimes 12 (ByObjectId 7) Scenario.active))
      = Some (Completed, num 10)).
Proof.
  pose (g := Group.mk 7 "GRP001" 1 6 0 Active
               [mkMember 2 0 (num 1) false; mkMember 3 (Demo.day 1) (num 2) false]
               (num 1)).
  pose (sch := Scheme.mk 6 "SCH001" (num 10) (num 2) (num 10) Scheme.Monthly).
  assert (groupValid Scenario.active g) as Hv.
  { split; [compute_done |]. split; [compute_done |].
    exists sch. split; [reflexivity | compute_done]. }
  pose proof (advance_runs_to_completion 9 (ByObjectId 7) Scenario.active g sch 1 10) as H9.
  pose proof (advance_runs_to_completion 12 (ByObjectId 7) Scenario.active g sch 1 10) as H12.
  split.
  - apply (f_equal (fun r => match r with inr (Some d) => Some (status d) | _ => None end)) in H9;
      [exact H9 | vm_compute; reflexivity | reflexivity | reflexivity
      | reflexivity | reflexivity | lia | exact Hv].
  - apply (f_equal (fun r => match r with
                             | inr (Some d) => Some (status d, current_month d)
                             | _ => None
                             end)) in H12;
      [exact H12 | vm_compute; reflexivity | reflexivity | reflexivity
      | reflexivity | reflexivity | lia | exact Hv].
Defined.

End GroupAdvance.

(** ** Installments: numbering *)

Section InstallmentNumbering.
Import Installment InstallmentController InstallmentCreation.









End InstallmentNumbering.

(** ** Payments: what is written, and in which order *)

Section PaymentEffects.
Import Installment InstallmentController.

(** What an accepted payment of a JSON number writes, and what it leaves
    alone. *)
Lemma recordPayment_accepted clk employee p b s installment x :
  findOneByParam _id p (installments s) = inr (Some installment) ->
  ~ (status installment = Paid /\ (pending_amount installment ≤ 0)%Qc) ->
  body_paid_amount b = Some (JNum x) ->
  exists r s' saved,
    recordPayment clk employee p b s = Some (r, s')
    /\ installments s' = replaceDoc _id saved (installments s)
    /\ findOneByParam _id p (installments s') = inr (Some saved)
    /\ _id saved = _id installment
    /\ amount saved = amount installment
    /\ due_date saved = due_date installment
    /\ paid_amount saved = (paid_amount installment + x)%Qc
    /\ pending_amount saved = (amount saved - paid_amount saved)%Qc
    /\ status saved
       = deriveStatus (now clk) (due_date saved) (amount saved) (paid_amount saved)
           (pending_amount saved)
           (if bool_decide (pending_amount installment ≤ x)%Qc then Paid
            else if bool_decide (0 < paid_amount saved)%Qc then Partial else Pending)
    /\ members s' = members s
    /\ branches s' = branches s
    /\ schemes s' = schemes s
    /\ (findById Member._id (member_id installment) (members s) = None ->
        statusCode r = 400%nat /\ receipts s' = receipts s).
Proof.
  intros Hf Hnot Hb. unfold recordPayment. rewrite Hf, Hb.
  destruct (bool_decide (status installment = Paid)
            && bool_decide (pending_amount installment ≤ 0)%Qc) eqn:Hc.
  { apply andb_true_iff in Hc as [H1 H2].
    apply bool_decide_eq_true in H1, H2. by destruct Hnot. }
  cbn [mbind option_bind addPayment JsValue.plus JsValue.number].
  unfold Installment_save.
  match goal with
  | |- context [InstallmentSchema_preSave clk s false ?u] =>
      set (updated := u); set (saved := InstallmentSchema_preSave clk s false updated)
  end.
  assert (findOneByParam _id p (replaceDoc _id saved (installments s))
          = inr (Some saved)) as Hfound
    by (by apply (findOneByParam_replaceDoc _id p _ installment)).
  match goal with
  | |- exists r s' saved0, Some ?X = Some (r, s') /\ _ =>
      exists X.1, X.2, saved; split; [by destruct X |]
  end.
  cbn [setInstallments members installments].
  destruct (findById Member._id _ _); [|by repeat split].
  destruct (Receipt_create _ _ _ _ _ _ _ _ _) as [e | [r s2]] eqn:Hr.
  { repeat split; try done. }
  unfold Receipt_create in Hr. cbn [branches receipts nextObjectId] in Hr.
  destruct (findById Branch._id _ _); [|done].
  case_bool_decide; [done |]. injection Hr as <- <-.
  repeat split; try done.
Qed.

(** X5: payments of JSON numbers add up.  When a first payment leaves
    something pending, a second payment is accepted and the installment then
    carries the sum of both on top of what had been paid before. *)
Theorem recordPayment_twice_adds_up (clk1 clk2 : Clock) (e1 e2 : ObjectId)
    (p : IdParam) (b1 b2 : PayBody) (s : Store) (installment : Installment.t)
    (x1 x2 : Number) :
  findOneByParam _id p (installments s) = inr (Some installment) ->
  ~ (status installment = Paid /\ (pending_amount installment ≤ 0)%Qc) ->
  body_paid_amount b1 = Some (JNum x1) ->
  body_paid_amount b2 = Some (JNum x2) ->
  (paid_amount installment + x1 < amount installment)%Qc ->
  exists r1 s1 r2 s2 saved,
    recordPayment clk1 e1 p b1 s = Some (r1, s1)
    /\ recordPayment clk2 e2 p b2 s1 = Some (r2, s2)
    /\ findById _id (_id installment) (installments s2) = Some saved
    /\ paid_amount saved = (paid_amount installment + x1 + x2)%Qc
    /\ pending_amount saved = (amount installment - paid_amount saved)%Qc.
Proof.
  intros Hf Hnot Hb1 Hb2 Hpartial.
  destruct (recordPayment_accepted clk1 e1 p b1 s installment x1 Hf Hnot Hb1)
    as (r1 & s1 & saved1 & Hr1 & _ & Hf1 & Hid1 & Ham1 & _ & Hpaid1 & Hpend1 & _).
  assert (~ (status saved1 = Paid /\ (pending_amount saved1 ≤ 0)%Qc)) as Hnot1.
  { intros [_ Hle]. rewrite Hpend1, Ham1, Hpaid1 in Hle.
    apply (Qcle_not_lt _ _ Hle). by apply Qclt_minus_iff in Hpartial. }
  destruct (recordPayment_accepted clk2 e2 p b2 s1 saved1 x2 Hf1 Hnot1 Hb2)
    as (r2 & s2 & saved2 & Hr2 & _ & Hf2 & Hid2 & Ham2 & _ & Hpaid2 & Hpend2 & _).
  exists r1, s1, r2, s2, saved2. split; [done |]. split; [done |].
  split.
  { destruct (findOneByParam_found _ _ _ _ Hf2) as (_ & _ & H).
    by rewrite Hid2, Hid1 in H. }
  rewrite Hpend2, Hpaid2, Hpaid1, Ham2, Ham1. done.
Qed.

Lemma recordPayment_twice_adds_up_witness :
  exists r1 r2 s2 saved,
    recordPayment Scenario.clk 9 (ByObjectId 8) (Scenario.pay 400) Demo.store
    = Some (r1, Scenario.paid)
    /\ recordPayment Scenario.clk 9 (ByObjectId 8) (Scenario.pay 100) Scenario.paid
       = Some (r2, s2)
    /\ findById _id 8 (installments s2) = Some saved
    /\ paid_amount saved = num 500
    /\ pending_amount saved = num 500.
Proof.
  destruct (recordPayment_twice_adds_up Scenario.clk Scenario.clk 9 9 (ByObjectId 8)
              (Scenario.pay 400) (Scenario.pay 100) Demo.store Scenario.firstInstallment
              (num 400) (num 100))
    as (r1 & s1 & r2 & s2 & saved & Hr1 & Hr2 & Hs & Hpaid & Hpend);
    [vm_compute; reflexivity | intros [H _]; discriminate H | reflexivity
    | reflexivity | compute_done |].
  assert (s1 = Scenario.paid) as ->
    by (unfold Scenario.paid; by rewrite Hr1).
  exists r1, r2, s2, saved. split; [exact Hr1 |]. split; [exact Hr2 |].
  split; [exact Hs |].
  rewrite Hpend, Hpaid. split; compute_done.
Defined.

(** X6: the payment is written before the receipt is attempted.  When the
    member of the installment no longer exists, a payment of a JSON number
    is answered 400, no receipt is created, and the installment
    nevertheless carries the payment. *)
Theorem recordPayment_without_member_keeps_payment (clk : Clock) (employee : ObjectId)
    (p : IdParam) (b : PayBody) (s : Store) (installment : Installment.t)
    (x : Number) :
  findOneByParam _id p (installments s) = inr (Some installment) ->
  ~ (status installment = Paid /\ (pending_amount installment ≤ 0)%Qc) ->
  body_paid_amount b = Some (JNum x) ->
  findById Member._id (member_id installment) (members s) = None ->
  exists r s' saved,
    recordPayment clk employee p b s = Some (r, s')
    /\ statusCode r = 400%nat
    /\ receipts s' = receipts s
    /\ findById _id (_id installment) (installments s') = Some saved
    /\ paid_amount saved = (paid_amount installment + x)%Qc.
Proof.
  intros Hf Hnot Hb Hm.
  destruct (recordPayment_accepted clk employee p b s installment x Hf Hnot Hb)
    as (r & s' & saved & Hr & _ & Hfs & Hid & _ & _ & Hpaid & _ & _ & _ & _ & _ & Hno).
  destruct (Hno Hm) as [H400 Hrec].
  exists r, s', saved. split; [done |]. split; [done |]. split; [done |].
  split; [| done].
  destruct (findOneByParam_found _ _ _ _ Hfs) as (_ & _ & H). by rewrite Hid in H.
Qed.

Lemma recordPayment_without_member_keeps_payment_witness :
  exists r s' saved,
    recordPayment Scenario.clk 9 (ByObjectId 8) (Scenario.pay 400) Scenario.noMembers
    = Some (r, s')
    /\ statusCode r = 400%nat
    /\ receipts s' = []
    /\ findById _id 8 (installments s') = Some saved
    /\ paid_amount saved = (0 + num 400)%Qc.
Proof.
  apply (recordPayment_without_member_keeps_payment Scenario.clk 9 (ByObjectId 8)
           (Scenario.pay 400) Scenario.noMembers Scenario.firstInstallment (num 400));
    [vm_compute; reflexivity | intros [H _]; discriminate H | reflexivity | reflexivity].
Defined.

(** X7: a request answered 200 has appended exactly one receipt, for the
    amount of the request read as a number, the member and the group of the
    installment and the branch of that member. *)
Theorem recordPayment_receipt (clk : Clock) (employee : ObjectId) (p : IdParam)
    (b : PayBody) (s : Store) (r : Response Payment) (s' : Store) :
  recordPayment clk employee p b s = Some (r, s') ->
  statusCode r = 200%nat ->
  exists installment member receipt received,
    findOneByParam _id p (installments s) = inr (Some installment)
    /\ findById Member._id (member_id installment) (members s) = Some member
    /\ body_paid_amount b ≫= JsValue.number = Some received
    /\ receipts s' = receipts s ++ [receipt]
    /\ Receipt.receipt_amount receipt = received
    /\ Receipt.member_id receipt = member_id installment
    /\ Receipt.group_id receipt = Some (group_id installment)
    /\ Receipt.branch_id receipt = Member.branch_id member
    /\ Receipt.status receipt = Receipt.Completed.
Proof.
  unfold recordPayment.
  destruct (findOneByParam _ _ _) as [e | [installment|]];
    [by intros [= <- <-] | | by intros [= <- <-]].
  destruct (_ && _); [by intros [= <- <-] |].
  destruct (body_paid_amount b) as [raw|]; [|discriminate].
  cbn [mbind option_bind].
  destruct (addPayment _ raw) as [paid'|]; [|discriminate].
  cbn [mbind option_bind].
  destruct (JsValue.number raw) as [received|]; [|discriminate].
  cbn [mbind option_bind].
  unfold Installment_save. cbn [setInstallments members].
  destruct (findById Member._id _ _) as [member|] eqn:Hm; [|by intros [= <- <-]].
  destruct (Receipt_create _ _ _ _ _ _ _ _ _) as [e | [rc s2]] eqn:Hr;
    [by intros [= <- <-] |].
  intros [= <- <-] _. exists installment, member, rc, received.
  split; [done |]. split; [done |]. split; [done |].
  unfold Receipt_create in Hr. cbn [branches receipts nextObjectId] in Hr.
  destruct (findById Branch._id _ _); [|done].
  case_bool_decide; [done |]. by injection Hr as <- <-.
Qed.

Lemma recordPayment_receipt_witness :
  exists r receipt,
    recordPayment Scenario.clk 9 (ByObjectId 8) (Scenario.pay 400) Demo.store
    = Some (r, Scenario.paid)
    /\ statusCode r = 200%nat
    /\ receipts Scenario.paid = [receipt]
    /\ Receipt.receipt_amount receipt = num 400
    /\ Receipt.member_id receipt = 2%nat
    /\ Receipt.branch_id receipt = 1%nat.
Proof.
  destruct (recordPayment Scenario.clk 9 (ByObjectId 8) (Scenario.pay 400) Demo.store)
    as [[r s']|] eqn:E; [| vm_compute in E; discriminate E].
  assert (s' = Scenario.paid) as -> by (unfold Scenario.paid; by rewrite E).
  assert (statusCode r = 200%nat) as H200.
  { pose proof (f_equal (fun o => match o with
                                  | Some (r0, _) => statusCode r0
                                  | None => 0%nat
                                  end) E) as E'.
    vm_compute in E'. symmetry. exact E'. }
  destruct (recordPayment_receipt Scenario.clk 9 (ByObjectId 8) (Scenario.pay 400)
              Demo.store r Scenario.paid E H200)
    as (installment & member & receipt & received & Hi & Hm & Hrec & Hr & Ha & Hmem
        & _ & Hb & _).
  exists r, receipt. split; [reflexivity |]. split; [exact H200 |].
  split; [exact Hr |].
  vm_compute in Hi. injection Hi as <-. vm_compute in Hm. injection Hm as <-.
  injection Hrec as <-.
  split; [exact Ha |]. split; [exact Hmem | exact Hb].
Defined.

(** X8: a payment of a JSON number that covers the amount leaves the
    installment [Paid] with nothing pending, also when it is overdue. *)
Theorem recordPayment_in_full_is_paid (clk : Clock) (employee : ObjectId) (p : IdParam)
    (b : PayBody) (s : Store) (installment : Installment.t) (x : Number) :
  findOneByParam _id p (installments s) = inr (Some installment) ->
  ~ (status installment = Paid /\ (pending_amount installment ≤ 0)%Qc) ->
  body_paid_amount b = Some (JNum x) ->
  (0 < amount installment)%Qc ->
  (amount installment ≤ paid_amount installment + x)%Qc ->
  exists r s' saved,
    recordPayment clk employee p b s = Some (r, s')
    /\ findById _id (_id installment) (installments s') = Some saved
    /\ status saved = Paid
    /\ (pending_amount saved ≤ 0)%Qc.
Proof.
  intros Hf Hnot Hb Hpos Hfull.
  destruct (recordPayment_accepted clk employee p b s installment x Hf Hnot Hb)
    as (r & s' & saved & Hr & _ & Hfs & Hid & Ham & _ & Hpaid & Hpend & Hst & _).
  exists r, s', saved. split; [done |].
  split.
  { destruct (findOneByParam_found _ _ _ _ Hfs) as (_ & _ & H). by rewrite Hid in H. }
  assert (pending_amount saved ≤ 0)%Qc as Hle.
  { rewrite Hpend, Ham, Hpaid. apply Qcle_minus_iff.
    replace (0 + - (amount installment - (paid_amount installment + x)))%Qc
      with (paid_amount installment + x + - amount installment)%Qc
      by ring.
    by apply (proj1 (Qcle_minus_iff _ _)). }
  split; [|done]. rewrite Hst, Hpend, deriveStatus_cases.
  rewrite <- Hpend.
  rewrite (bool_decide_eq_false_2 (0 < pending_amount saved)%Qc) by (by apply Qcle_not_lt).
  rewrite andb_false_r.
  rewrite (bool_decide_eq_true_2 (0 < paid_amount saved)%Qc).
  - by rewrite (bool_decide_eq_true_2 _ Hle).
  - rewrite Hpaid. by eapply Qclt_le_trans.
Qed.

Lemma recordPayment_in_full_is_paid_witness :
  exists r s' saved,
    recordPayment (mkClock (Demo.day 30) 2025) 9 (ByObjectId 8)
      (Scenario.pay 1000) Demo.store = Some (r, s')
    /\ findById _id 8 (installments s') = Some saved
    /\ status saved = Paid
    /\ (pending_amount saved ≤ 0)%Qc.
Proof.
  apply (recordPayment_in_full_is_paid (mkClock (Demo.day 30) 2025) 9 (ByObjectId 8)
           (Scenario.pay 1000) Demo.store Scenario.firstInstallment (num 1000));
    [vm_compute; reflexivity | intros [H _]; discriminate H | reflexivity
    | compute_done | compute_done].
Defined.

End PaymentEffects.

(** ** Transactions: what reversal requests do *)

Section TransactionRequests.
Import Transaction TransactionController TransactionCreation.

Lemma handleAll_acc rs : forall cs s,
  foldl (fun acc r => let '(code, s') := handle r acc.2 in (acc.1 ++ [code], s'))
    (cs, s) rs
  = (cs ++ (handleAll rs s).1, (handleAll rs s).2).
Proof.
  unfold handleAll.
  induction rs as [|r rs IH]; intros cs s; simpl.
  - by rewrite app_nil_r.
  - destruct (handle r s) as [code s'] eqn:E. simpl.
    rewrite (IH (cs ++ [code])), (IH [code]). simpl.
    by rewrite <- app_assoc.
Qed.

Lemma handleAll_cons r rs s :
  handleAll (r :: rs) s
  = ((handle r s).1 :: (handleAll rs (handle r s).2).1,
     (handleAll rs (handle r s).2).2).
Proof.
  unfold handleAll at 1. simpl. destruct (handle r s) as [code s'].
  apply handleAll_acc.
Qed.

(** A created transaction passed the [min: 0.01] validator. *)
Lemma createTransaction_amounts clk employee b s :
  Forall (fun t => (0 ≤ amount t)%Qc) (transactions s) ->
  Forall (fun t => (0 ≤ amount t)%Qc) (transactions (createTransaction clk employee b s).2).
Proof.
  intros Hs. unfold createTransaction.
  destruct (validateReferences _ _ _ _ _) as [e | []]; [done |].
  unfold mbind, Thrown_bind.
  destruct (_ && _); [done |]. destruct (_ && _); [done |].
  unfold Transaction_createFrom.
  destruct (body_branch_id b) as [branch|]; [|done].
  destruct (body_transaction_type b) as [type|]; [|done].
  destruct (body_amount b) as [value|]; [|done].
  destruct (requiredPaths _) as [e | []]; [done |].
  unfold mbind, Thrown_bind.
  destruct (validateAmount _) as [e | []] eqn:Hv; [done |].
  destruct (validateDate _ _) as [e | []]; [done |].
  destruct (preSaveReference _) as [e | []]; [done |].
  destruct (_ || _); [done |]. simpl.
  apply Forall_app. split; [done |]. apply Forall_singleton. simpl.
  unfold validateAmount in Hv. simpl in Hv.
  case_bool_decide as Hmin; [done |].
  apply Qcnot_lt_le in Hmin. etrans; [|exact Hmin]. done.
Qed.

(** On a store whose amounts are not negative, a reversal request is
    refused and writes nothing. *)
Lemma reverseTransaction_refused clk p s :
  Forall (fun t => (0 ≤ amount t)%Qc) (transactions s) ->
  (reverseTransaction clk p s).2 = s
  /\ (statusCode (reverseTransaction clk p s).1 = 400%nat
      \/ statusCode (reverseTransaction clk p s).1 = 404%nat).
Proof.
  intros Hs.
  destruct (findOneByParam _id p (transactions s)) as [e | [t|]] eqn:Hf.
  - unfold reverseTransaction. rewrite Hf. auto.
  - destruct (decide (status t = Reversed)) as [Hr | Hr].
    + rewrite (reverseTransaction_already_reversed _ _ _ _ Hf Hr). auto.
    + destruct (reverseTransaction_rejected_by_min clk p s t Hf Hr) as [e ->]; [|auto].
      apply findOneByParam_found in Hf as (_ & Hf & _).
      rewrite Forall_forall in Hs. by apply Hs.
  - unfold reverseTransaction. rewrite Hf. auto.
Qed.

(** X11: on a store whose transactions have no negative amount, whatever
    [createTransaction] and [reverseTransaction] requests arrive, every
    reversal request is answered 400 or 404 and the store ends up as if the
    reversal requests had never been sent. *)
Theorem reversal_requests_change_nothing (rs : list Request) (s : Store) :
  Forall (fun t => (0 ≤ amount t)%Qc) (transactions s) ->
  (handleAll rs s).2 = (handleAll (filter (fun r => isCreate r = true) rs) s).2
  /\ forall i clk p, rs !! i = Some (ReverseTransaction clk p) ->
       (handleAll rs s).1 !! i = Some 400%nat
       \/ (handleAll rs s).1 !! i = Some 404%nat.
Proof.
  revert s. induction rs as [|r rs IH]; intros s Hs.
  - split; [done |]. intros i clk p Hi. by destruct i.
  - rewrite handleAll_cons. destruct r as [clk employee b | clk p].
    + rewrite filter_cons_True by done. rewrite handleAll_cons.
      assert (handle (CreateTransaction clk employee b) s
              = (statusCode (createTransaction clk employee b s).1,
                 (createTransaction clk employee b s).2)) as ->
        by (simpl; by destruct (createTransaction clk employee b s)).
      cbn [fst snd].
      destruct (IH _ (createTransaction_amounts clk employee b s Hs)) as [IH1 IH2].
      split; [done |]. intros [|i] clk' p' Hi; [done |]. simpl in Hi.
      exact (IH2 i clk' p' Hi).
    + rewrite filter_cons_False by done.
      assert (handle (ReverseTransaction clk p) s
              = (statusCode (reverseTransaction clk p s).1,
                 (reverseTransaction clk p s).2)) as ->
        by (simpl; by destruct (reverseTransaction clk p s)).
      cbn [fst snd].
      destruct (reverseTransaction_refused clk p s Hs) as [-> Hcode].
      destruct (IH _ Hs) as [IH1 IH2].
      split; [done |]. intros [|i] clk' p' Hi; simpl in *.
      * destruct Hcode as [-> | ->]; auto.
      * exact (IH2 i clk' p' Hi).
Qed.

Lemma reversal_requests_change_nothing_witness :
  (handleAll [ReverseTransaction Scenario.clk (ByObjectId 4);
              CreateTransaction Scenario.clk 9 Scenario.depositBody;
              ReverseTransaction Scenario.clk (ByObjectId 20)] Demo.store).2
  = (handleAll [CreateTransaction Scenario.clk 9 Scenario.depositBody] Demo.store).2
  /\ (handleAll [ReverseTransaction Scenario.clk (ByObjectId 4);
                 CreateTransaction Scenario.clk 9 Scenario.depositBody;
                 ReverseTransaction Scenario.clk (ByObjectId 20)] Demo.store).1
     = [400; 201; 400]%nat.
Proof.
  destruct (reversal_requests_change_nothing
              [ReverseTransaction Scenario.clk (ByObjectId 4);
               CreateTransaction Scenario.clk 9 Scenario.depositBody;
               ReverseTransaction Scenario.clk (ByObjectId 20)] Demo.store)
    as [Hstore _]; [compute_done |].
  split; [exact Hstore | vm_compute; reflexivity].
Defined.

End TransactionRequests.

(** ** Updates behind a status filter *)

Section FindOneAndUpdate.
Context {D : Type}.
Implicit Types (filter : D -> bool) (update : D -> D) (c : list D).

Lemma findOneAndUpdate_Some filter update c d' c' :
  findOneAndUpdate filter update c = Some (d', c') ->
  exists i d, c !! i = Some d /\ filter d = true /\ d' = update d
              /\ c' = <[i := d']> c.
Proof.
  revert d' c'. induction c as [|x c IH]; intros d' c'; simpl; [done |].
  destruct (filter x) eqn:Hx.
  - intros [= <- <-]. by exists 0%nat, x.
  - destruct (findOneAndUpdate filter update c) as [[d'' c'']|]; [|done].
    intros [= <- <-]. destruct (IH _ _ eq_refl) as (i & d & Hi & Hd & -> & ->).
    by exists (S i), d.
Qed.

Lemma findOneAndUpdate_None filter update c :
  Forall (fun x => filter x = false) c -> findOneAndUpdate filter update c = None.
Proof.
  induction 1 as [|x c Hx _ IH]; simpl; [done |]. by rewrite Hx, IH.
Qed.

Lemma findOneAndUpdate_is_Some filter update c x :
  x ∈ c -> filter x = true ->
  exists d' c', findOneAndUpdate filter update c = Some (d', c').
Proof.
  induction c as [|y c IH]; intros Hin Hx; [by apply elem_of_nil in Hin |]. simpl.
  destruct (filter y) eqn:Hy; [by eexists _, _ |].
  apply elem_of_cons in Hin as [-> | Hin]; [congruence |].
  destruct (IH Hin Hx) as (d' & c' & ->). by eexists _, _.
Qed.

(** With [_id] unique, the document at a position is the one found under
    its [_id]. *)
Lemma findById_unique (oid : D -> ObjectId) i c j x :
  NoDup (oid <$> c) ->
  c !! j = Some x -> oid x = i ->
  findById oid i c = Some x.
Proof.
  intros Ho Hj Hx. unfold findById.
  destruct (List.find _ c) as [y|] eqn:Hy.
  - apply find_some in Hy as [Hin Hpy]. apply bool_decide_eq_true in Hpy.
    apply list_elem_of_In, list_elem_of_lookup in Hin as [k Hk].
    assert (k = j) as ->.
    { apply (NoDup_lookup _ k j i Ho); rewrite list_lookup_fmap.
      - by rewrite Hk; simpl; rewrite Hpy.
      - by rewrite Hj; simpl; rewrite Hx. }
    congruence.
  - assert (In x c) as Hin
      by (apply list_elem_of_In; by eapply list_elem_of_lookup_2).
    apply (find_none _ _ Hy) in Hin. simpl in Hin.
    by rewrite bool_decide_eq_true_2 in Hin.
Qed.

(** Once the document with the [_id] asked for has left the state the
    filter asks for, no document passes the filter any more. *)
Lemma findOneAndUpdate_settles (oid : D -> ObjectId) (open : D -> bool) i
    update update' c d' c' :
  NoDup (oid <$> c) ->
  (forall d, oid (update d) = oid d) ->
  (forall d, open (update d) = false) ->
  findOneAndUpdate (fun d => bool_decide (oid d = i) && open d) update c
  = Some (d', c') ->
  findOneAndUpdate (fun d => bool_decide (oid d = i) && open d) update' c' = None.
Proof.
  intros Hoid Hsame Hclosed Hf.
  apply findOneAndUpdate_Some in Hf as (k & d & Hk & Hd & -> & ->).
  apply andb_true_iff in Hd as [Hm _]. apply bool_decide_eq_true in Hm.
  apply findOneAndUpdate_None, Forall_lookup. intros j x Hj.
  destruct (decide (k = j)) as [<- | Hne].
  - rewrite list_lookup_insert_eq in Hj by (by eapply lookup_lt_Some).
    injection Hj as <-. by rewrite Hclosed, andb_false_r.
  - rewrite list_lookup_insert_ne in Hj by done.
    case_bool_decide as Hx; [|done].
    destruct Hne. apply (NoDup_lookup _ k j i Hoid); rewrite list_lookup_fmap.
    + by rewrite Hk; simpl; rewrite Hm.
    + by rewrite Hj; simpl; rewrite Hx.
Qed.

End FindOneAndUpdate.

(** ** Receipts *)

Section Receipts.
Import Receipt ReceiptController.

(** X12: [createReceipt] never accepts a receipt paid online or by bank
    transfer: whatever else the body carries (a transaction reference
    included), the request is answered 400 and nothing is stored. *)
Theorem createReceipt_refuses_online_and_bank_transfer (clk : Clock)
    (employee : ObjectId) (b : CreateBody) (s : Store) :
  body_payment_mode b = Some Online \/ body_payment_mode b = Some BankTransfer ->
  statusCode (createReceipt clk employee b s).1 = 400%nat
  /\ data (createReceipt clk employee b s).1 = None
  /\ (createReceipt clk employee b s).2 = s.
Proof.
  intros Hmode. unfold createReceipt.
  destruct (validateReferences _ _ _ _ _ _) as [e | []]; [done |].
  unfold mbind, Thrown_bind.
  rewrite (bool_decide_eq_false_2 (body_payment_mode b = Some Cheque))
    by (destruct Hmode as [-> | ->]; done).
  rewrite (bool_decide_eq_true_2 (body_payment_mode b ∈ _))
    by (destruct Hmode as [-> | ->]; set_solver).
  done.
Qed.

Lemma createReceipt_refuses_online_and_bank_transfer_witness :
  statusCode (createReceipt Scenario.clk 9 Scenario.onlineReceipt Demo.store).1 = 400%nat
  /\ data (createReceipt Scenario.clk 9 Scenario.onlineReceipt Demo.store).1 = None
  /\ (createReceipt Scenario.clk 9 Scenario.onlineReceipt Demo.store).2 = Demo.store.
Proof.
  apply (createReceipt_refuses_online_and_bank_transfer Scenario.clk 9
           Scenario.onlineReceipt Demo.store).
  left. reflexivity.
Defined.

(** X13: a receipt is cancelled at most once.  With the unique index on
    [_id] in force, a request that [cancelReceipt] answers 200 names the
    receipt by its [_id] and is answered with its [receipt_id]; any further
    cancellation of that receipt is answered 404 and leaves the store as it
    is, the remarks of the first cancellation included. *)
Theorem cancelReceipt_only_once (p : IdParam) (remarks remarks' : option string)
    (s s1 : Store) (r : Response (string * Status)) :
  NoDup (_id <$> receipts s) ->
  cancelReceipt p remarks s = (r, s1) -> statusCode r = 200%nat ->
  (exists i, p = ByObjectId i
             /\ data r = (fun d => (receipt_id d, Cancelled))
                           <$> findById _id i (receipts s))
  /\ cancelReceipt p remarks' s1
     = (fail 404 "Receipt not found or already cancelled", s1).
Proof.
  intros Hoid Hc Hr. unfold cancelReceipt in Hc |- *.
  destruct p as [i | code]; [| injection Hc as <- <-; done].
  cbn [castParam] in Hc |- *.
  destruct (findOneAndUpdate _ _ (receipts s)) as [[receipt l]|] eqn:Hf;
    [| injection Hc as <- <-; done].
  injection Hc as <- <-. split.
  - exists i. split; [done |]. pose proof Hf as Hf'.
    apply findOneAndUpdate_Some in Hf' as (k & d & Hk & Hd & -> & ->).
    apply andb_true_iff in Hd as [Hm _]. apply bool_decide_eq_true in Hm. simpl.
    by rewrite (findById_unique _id i _ k d Hoid Hk Hm).
  - cbn [receipts setReceipts].
    eapply (findOneAndUpdate_settles _id
              (fun d => negb (bool_decide (status d = Cancelled))) i) in Hf;
      [by rewrite Hf | done | done | done].
Qed.

Lemma cancelReceipt_only_once_witness :
  exists i r s1,
    Receipt._id <$> receipts Scenario.paid = [i]
    /\ cancelReceipt (ByObjectId i) None Scenario.paid = (r, s1)
    /\ statusCode r = 200%nat
    /\ data r = Some ("RCP001", Cancelled)
    /\ cancelReceipt (ByObjectId i) (Some "again") s1
       = (fail 404 "Receipt not found or already cancelled", s1).
Proof.
  eexists _, _, _. split; [vm_compute; reflexivity |].
  split; [vm_compute; reflexivity |]. split; [reflexivity |].
  edestruct (cancelReceipt_only_once (ByObjectId 20) None (Some "again") Scenario.paid)
    as [(i & Hi & Hd) H404];
    [compute_done | vm_compute; reflexivity | reflexivity |].
  split; [| exact H404]. rewrite Hd. injection Hi as <-. vm_compute. reflexivity.
Defined.

End Receipts.

(** ** Payouts *)

Section Payouts.
Import Payout PayoutController.

Lemma handle_payouts r ps i d :
  payouts ps !! i = Some d -> status d <> Pending ->
  payouts (handle ps r) !! i = Some d.
Proof.
  intros Hi Hd. destruct r as [b | clk p t | clk p]; simpl.
  - unfold createPayout.
    destruct (validateReferences _ _ _) as [e | [group member]]; [done |].
    unfold mbind, Thrown_bind. destruct (negb _); [done |].
    unfold Payout_create.
    destruct (body_month_number b); [|done].
    destruct (body_payout_amount b); [|done].
    destruct (_ || _); [done |]. simpl. by apply lookup_app_l_Some.
  - unfold processPayout. destruct (_ ≫= _); [|done].
    destruct (castParam p) as [e | k]; [done |].
    destruct (findOneAndUpdate _ _ _) as [[payout l]|] eqn:Hf; [|done].
    apply findOneAndUpdate_Some in Hf as (j & x & Hj & Hx & -> & ->).
    assert (<[j := mk (_id x) (payout_id x) (group_id x) (month_number x)
                      (member_id x) (payout_amount x) (processing_fee x) Paid
                      (Some (now clk)) t]> (payouts ps) !! i = Some d) as Hgoal;
      [| by destruct (serialises _ _)].
    rewrite list_lookup_insert_ne; [done |]. intros <-.
    rewrite Hi in Hj. injection Hj as <-.
    apply andb_true_iff in Hx as [_ Hx]. by apply bool_decide_eq_true in Hx.
  - unfold skipPayout.
    destruct (castParam p) as [e | k]; [done |].
    destruct (findOneAndUpdate _ _ _) as [[payout l]|] eqn:Hf; [|done].
    apply findOneAndUpdate_Some in Hf as (j & x & Hj & Hx & -> & ->). simpl.
    rewrite list_lookup_insert_ne; [done |]. intros <-.
    rewrite Hi in Hj. injection Hj as <-.
    apply andb_true_iff in Hx as [_ Hx]. by apply bool_decide_eq_true in Hx.
Qed.

(** X14: a payout that has been paid or skipped is final: whatever
    [createPayout], [processPayout] and [skipPayout] requests follow, the
    stored payout stays exactly as it is (status, payment date and
    transaction included). *)
Theorem settled_payout_is_final (rs : list Request) (ps : PayoutStore)
    (i : nat) (d : Payout.t) :
  payouts ps !! i = Some d -> status d <> Pending ->
  payouts (handleAll rs ps) !! i = Some d.
Proof.
  revert ps. unfold handleAll.
  induction rs as [|r rs IH]; intros ps Hi Hd; simpl; [done |].
  apply IH; [|done]. by apply handle_payouts.
Qed.

Lemma settled_payout_is_final_witness :
  payouts (handleAll [SkipPayout Scenario.clk (ByObjectId 30);
                      ProcessPayout Scenario.clk (ByObjectId 30) (Some 4%nat);
                      SkipPayout Scenario.clk (ByObjectId 31)]
             Scenario.payoutStore) !! 0%nat
  = Some (Payout.mk 30 "PYT001" 7 (num 1) 2 (num 9000) 0 Paid
            (Some (Demo.day 2)) (Some 4%nat)).
Proof.
  apply (settled_payout_is_final _ Scenario.payoutStore 0);
    [reflexivity | discriminate].
Defined.

(** X15: what [processPayout] does to a pending payout.  With the unique
    index on [_id] in force, a request that names a pending payout by its
    [_id] and an existing transaction marks the payout [Paid], with the
    transaction of the body and the time of the request, and changes
    nothing else of it.  The answer is nevertheless 400 without data: the
    serialisation of the populated transaction throws once the update is
    written.  Processing the payout again is refused and skipping it is
    answered 404, both without a write. *)
Theorem processPayout_pays_once (clk clk' : Clock) (i t : ObjectId)
    (t' : option ObjectId) (ps : PayoutStore) (d : Payout.t) (txn : Transaction.t) :
  NoDup (_id <$> payouts ps) ->
  findById _id i (payouts ps) = Some d ->
  status d = Pending ->
  findById Transaction._id t (transactions (store ps)) = Some txn ->
  exists r ps1,
    processPayout clk (ByObjectId i) (Some t) ps = (r, ps1)
    /\ statusCode r = 400%nat
    /\ data r = None
    /\ store ps1 = store ps
    /\ length (payouts ps1) = length (payouts ps)
    /\ findById _id i (payouts ps1)
       = Some (mk (_id d) (payout_id d) (group_id d) (month_number d)
                 (member_id d) (payout_amount d) (processing_fee d)
                 Paid (Some (now clk)) (Some t))
    /\ statusCode (processPayout clk' (ByObjectId i) t' ps1).1 <> 200%nat
    /\ (processPayout clk' (ByObjectId i) t' ps1).2 = ps1
    /\ skipPayout clk' (ByObjectId i) ps1 = (fail 404 "Pending payout not found", ps1).
Proof.
  intros Hoid Hd Hst Ht. unfold processPayout at 1.
  cbn [mbind option_bind castParam]. rewrite Ht.
  destruct (findById_elem _ _ _ _ Hd) as [Hin Hid].
  destruct (findOneAndUpdate_is_Some
              (fun d => bool_decide (_id d = i) && bool_decide (status d = Pending))
              (fun d => mk (_id d) (payout_id d) (group_id d) (month_number d)
                          (member_id d) (payout_amount d) (processing_fee d)
                          Paid (Some (now clk)) (Some t))
              (payouts ps) d Hin) as (payout & l & Hf).
  { by rewrite !bool_decide_eq_true_2. }
  rewrite Hf. pose proof Hf as Hf'.
  apply findOneAndUpdate_Some in Hf' as (k & d0 & Hk & Hd0 & -> & ->).
  apply andb_true_iff in Hd0 as [Hm _]. apply bool_decide_eq_true in Hm.
  assert (d0 = d) as ->.
  { pose proof (findById_unique _id i _ k d0 Hoid Hk Hm) as H. congruence. }
  assert (serialises (store ps)
            (mk (_id d) (payout_id d) (group_id d) (month_number d) (member_id d)
               (payout_amount d) (processing_fee d) Paid (Some (now clk)) (Some t))
          = false) as ->.
  { unfold serialises. cbn [transaction_id mbind option_bind]. by rewrite Ht. }
  eexists _, _. split; [reflexivity |]. split; [done |]. split; [done |].
  split; [done |]. cbn [payouts store].
  split; [by rewrite length_insert |].
  split.
  { apply (findById_unique _id i _ k); [| | done].
    - rewrite list_fmap_insert. cbn [_id]. rewrite list_insert_id; [done |].
      by rewrite list_lookup_fmap, Hk.
    - apply list_lookup_insert_eq. by eapply lookup_lt_Some. }
  assert (forall update',
             findOneAndUpdate
               (fun d => bool_decide (_id d = i) && bool_decide (status d = Pending))
               update'
               (<[k := mk (_id d) (payout_id d) (group_id d) (month_number d)
                         (member_id d) (payout_amount d) (processing_fee d)
                         Paid (Some (now clk)) (Some t)]> (payouts ps)) = None)
    as Hnone.
  { intros update'.
    eapply (findOneAndUpdate_settles _id
              (fun d => bool_decide (status d = Pending)) i);
      [exact Hoid | | | exact Hf]; done. }
  split; [| split].
  - unfold processPayout. cbn [payouts store castParam].
    destruct (t' ≫= _); [|done]. by rewrite Hnone.
  - unfold processPayout. cbn [payouts store castParam].
    destruct (t' ≫= _); [|done]. by rewrite Hnone.
  - unfold skipPayout. cbn [payouts store castParam]. by rewrite Hnone.
Qed.

Lemma processPayout_pays_once_witness :
  exists r ps1,
    processPayout Scenario.clk (ByObjectId 31) (Some 4%nat) Scenario.payoutStore
    = (r, ps1)
    /\ statusCode r = 400%nat
    /\ (fun d => (payout_id d, status d, transaction_id d))
         <$> findById _id 31 (payouts ps1)
       = Some ("PYT002", Paid, Some 4%nat)
    /\ statusCode (processPayout Scenario.clk (ByObjectId 31) (Some 4%nat) ps1).1
       <> 200%nat
    /\ skipPayout Scenario.clk (ByObjectId 31) ps1
       = (fail 404 "Pending payout not found", ps1).
Proof.
  edestruct (processPayout_pays_once Scenario.clk Scenario.clk 31 4
               (Some 4%nat) Scenario.payoutStore)
    as (r & ps1 & Hp & H400 & _ & _ & _ & Hd & Hagain & _ & Hskip);
    [compute_done | vm_compute; reflexivity | reflexivity | vm_compute; reflexivity |].
  exists r, ps1. split; [exact Hp |]. split; [exact H400 |].
  split; [by rewrite Hd |]. split; [exact Hagain | exact Hskip].
Defined.

End Payouts.

(** ** Routers and authorisation *)

Section Routers.
Import AuthMiddleware Express.

Lemma toLowerCase_nonempty s x : s <> "" -> toLowerCase s = toLowerCase x -> x <> "".
Proof. intros Hs E ->. by destruct s. Qed.

(** X16: the statistics handler of the ledger router can never run.  The
    route [GET /stats] is registered after [GET /:id], which takes every
    one-segment path first: whatever the request, [getLedgerStats] is not
    the handler that answers, and [GET /stats] from a caller that passes
    [protect] is handled by [getLedgerEntryById] with [id = "stats"]. *)
Theorem ledger_stats_route_is_unreachable (env : Env) (req : Req) :
  (forall method path params req',
      dispatch env ledgerRouter method path req <> Handled getLedgerStats params req')
  /\ dispatch env ledgerRouter GET ["stats"] req
     = match run env protect req with
       | inl req' => Handled getLedgerEntryById [("id", "stats")] req'
       | inr code => Refused protect code
       end.
Proof.
  split;
    [| cbn [dispatch ledgerRouter];
       destruct (run env protect req) as [req1 | code]; reflexivity].
  intros method path params req'. cbn [dispatch ledgerRouter].
  destruct (run env protect req) as [req1 | code]; [|done].
  destruct path as [|x [|y [|z [|w path]]]];
    destruct method; cbn -[run toLowerCase];
    repeat first
      [ done
      | match goal with
        | |- context [run env ?mw ?r] => destruct (run env mw r)
        | |- context [bool_decide ?P] =>
            destruct (decide P);
            [ rewrite (bool_decide_eq_true_2 P) by done
            | rewrite (bool_decide_eq_false_2 P) by done ];
            cbn -[run toLowerCase]
        end ];
    try (subst; done).
Qed.

(** The three role checks are nested: what [admin] lets through, [manager]
    lets through, and what [manager] lets through, [employee] does. *)
Lemma role_checks_nested env req :
  (run env admin req = inl req -> run env manager req = inl req)
  /\ (run env manager req = inl req -> run env employeeOnly req = inl req).
Proof.
  simpl. split.
  - destruct (bool_decide (_ = Some "Admin")); [by rewrite orb_true_r | done].
  - destruct (bool_decide (_ = Some "Employee")),
      (bool_decide (_ = Some "Manager")), (bool_decide (_ = Some "Admin")); done.
Qed.

Lemma run_protect_inl env req req' :
  run env protect req = inl req' ->
  exists header token,
    authorization req = Some header
    /\ Js.startsWith "Bearer" header = true
    /\ split " " header !! 1%nat = Some token
    /\ exists decoded_id,
         verify env token = Some decoded_id
         /\ req' = mkReq (authorization req)
                     (decoded_id ≫= fun i => findById _id i (accounts env)).
Proof.
  cbn [run]. destruct (authorization req) as [header|]; [|done].
  destruct (Js.startsWith "Bearer" header) eqn:Hb; [|done].
  destruct (split " " header !! 1%nat) as [token|] eqn:Ht; [|done].
  cbn [mbind option_bind].
  destruct (verify env token) as [decoded_id|] eqn:Hv; [|done].
  intros [= <-]. exists header, token. repeat split; try done. by exists decoded_id.
Qed.

Lemma run_manager_inl env req req' :
  run env manager req = inl req' ->
  req' = req
  /\ exists account, employee req = Some account
       /\ (role account = "Manager" \/ role account = "Admin").
Proof.
  cbn [run]. intros H.
  destruct (bool_decide (role <$> employee req = Some "Manager")) eqn:E1;
    [| destruct (bool_decide (role <$> employee req = Some "Admin")) eqn:E2;
       [| done] ];
    cbn [orb] in H; injection H as <-; (split; [done |]).
  - apply bool_decide_eq_true in E1.
    destruct (employee req) as [account|]; [|done].
    injection E1 as E1. eauto.
  - apply bool_decide_eq_true in E2.
    destruct (employee req) as [account|]; [|done].
    injection E2 as E2. eauto.
Qed.

Lemma runRoute_protect_manager {H} env (h h' : H) params params' req e :
  runRoute env [protect; manager] h params req = Handled h' params' e ->
  h' = h
  /\ exists header token account,
       authorization req = Some header
       /\ split " " header !! 1%nat = Some token
       /\ verify env token = Some (Some (_id account))
       /\ account ∈ accounts env
       /\ employee e = Some account
       /\ (role account = "Manager" \/ role account = "Admin").
Proof.
  cbn [runRoute].
  destruct (run env protect req) as [req1 | code] eqn:Hp; [|done].
  destruct (run env manager req1) as [req2 | code] eqn:Hm; [|done].
  intros [= <- <- <-]. split; [done |].
  apply run_protect_inl in Hp
    as (header & token & Hh & _ & Ht & decoded_id & Hv & ->).
  apply run_manager_inl in Hm as (-> & account & He & Hrole).
  simpl in He. destruct decoded_id as [i|]; [|done]. simpl in He.
  pose proof He as Hfound.
  unfold findById in He. apply find_some in He as [Hin Hi].
  apply bool_decide_eq_true in Hi as <-.
  exists header, token, account.
  split; [done |]. split; [done |]. split; [done |].
  split; [by apply list_elem_of_In |]. split; [exact Hfound | done].
Qed.

(** X17: the writing handlers of the installment router ([createInstallment],
    [recordPayment], [updateInstallment]) only run for a request whose
    [Authorization] header carries, after the first space, a token that
    verifies and names a stored employee with role [Manager] or [Admin];
    that employee is the [req.employee] the handler sees. *)
Theorem installment_writes_need_a_manager (env : Env) (method : Method)
    (path : list string) (req e : Req) (h : InstallmentHandler)
    (params : list (string * string)) :
  dispatch env installmentRouter method path req = Handled h params e ->
  h ∈ [createInstallment; recordPayment; updateInstallment] ->
  exists header token account,
    authorization req = Some header
    /\ split " " header !! 1%nat = Some token
    /\ verify env token = Some (Some (_id account))
    /\ account ∈ accounts env
    /\ employee e = Some account
    /\ (role account = "Manager" \/ role account = "Admin").
Proof.
  intros Hd Hh. cbn [dispatch installmentRouter] in Hd.
  repeat match type of Hd with
  | match ?m with Some _ => _ | None => _ end = _ =>
      destruct m as [ps|] eqn:?
  end;
  first
    [ by apply runRoute_protect_manager in Hd as [_ Hd]
    | cbn [runRoute] in Hd; destruct (run env protect req); [|done];
      injection Hd as <- <- <-;
      repeat (apply elem_of_cons in Hh as [Hh | Hh]; [discriminate |]);
      by apply elem_of_nil in Hh
    | done ].
Qed.

Lemma installment_writes_need_a_manager_witness :
  exists account,
    dispatch Scenario.env installmentRouter POST ["INS001"; "pay"]
      (mkReq (Some "Bearer t1") None)
    = Handled recordPayment [("id", "INS001")] (mkReq (Some "Bearer t1") (Some account))
    /\ role account = "Manager".
Proof.
  destruct (installment_writes_need_a_manager Scenario.env POST ["INS001"; "pay"]
              (mkReq (Some "Bearer t1") None)
              (mkReq (Some "Bearer t1") (Some (mkAccount 9 "Manager")))
              recordPayment [("id", "INS001")])
    as (header & token & account & _ & _ & _ & _ & He & _);
    [vm_compute; reflexivity | by apply list_elem_of_further, list_elem_of_here |].
  injection He as <-. exists (mkAccount 9 "Manager").
  split; [vm_compute; reflexivity | reflexivity].
Defined.

(** X18: the ledger router asks for no account.  A request whose token
    verifies reaches [createLedgerEntry] whether or not the token names a
    stored employee; in that case the handler runs with no [req.employee]. *)
Theorem ledger_post_needs_no_account (env : Env) (req : Req) (header token : string)
    (decoded_id : option ObjectId) :
  authorization req = Some header ->
  Js.startsWith "Bearer" header = true ->
  split " " header !! 1%nat = Some token ->
  verify env token = Some decoded_id ->
  (decoded_id ≫= fun i => findById _id i (accounts env)) = None ->
  dispatch env ledgerRouter POST [] req
  = Handled createLedgerEntry [] (mkReq (Some header) None).
Proof.
  intros Hh Hb Ht Hv He. cbn [dispatch ledgerRouter run].
  rewrite Hh, Hb, Ht. cbn [mbind option_bind]. rewrite Hv, He. reflexivity.
Qed.

Lemma ledger_post_needs_no_account_witness :
  dispatch Scenario.env ledgerRouter POST [] (mkReq (Some "Bearer t2") None)
  = Handled createLedgerEntry [] (mkReq (Some "Bearer t2") None).
Proof.
  apply (ledger_post_needs_no_account Scenario.env _ "Bearer t2" "t2" None);
    reflexivity.
Defined.

End Routers.

(** ** The id generator below its thousandth id *)

Section SequentialIdsInOrder.
Import Js.
Local Arguments String.append !_ _ / : simpl nomatch.

Lemma ascii_compare_refl (c : ascii) : Ascii.compare c c = Eq.
Proof.
  destruct (Ascii.compare c c) eqn:E; [done | |];
    pose proof (Ascii.compare_antisym c c) as H; rewrite E in H; done.
Qed.

Lemma compare_app_prefix (p a b : string) :
  String.compare (p +:+ a) (p +:+ b) = String.compare a b.
Proof.
  induction p as [|c p IH]; [done |].
  cbn [String.append]. cbn [String.compare]. by rewrite ascii_compare_refl.
Qed.

Lemma le_app_prefix (p a b : string) : String.le a b -> String.le (p +:+ a) (p +:+ b).
Proof. unfold String.le, String.leb. by rewrite compare_app_prefix. Qed.

(** Three-digit numbers sort as strings the way they sort as numbers. *)
Lemma padded_le_succ (k : nat) :
  (1 <= k < 999)%nat ->
  String.le (padStart 3 "0" (decimal (Z.of_nat k)))
    (padStart 3 "0" (decimal (Z.of_nat (S k)))).
Proof.
  intros Hk.
  assert (forallb (fun k => String.leb (padStart 3 "0" (decimal (Z.of_nat k)))
                              (padStart 3 "0" (decimal (Z.of_nat (S k)))))
            (seq 1 998) = true) as Hall by (vm_compute; reflexivity).
  rewrite forallb_forall in Hall. apply Is_true_true, Hall, in_seq. lia.
Qed.

Lemma padded_le (i n : nat) :
  (1 <= i <= n)%nat -> (n <= 999)%nat ->
  String.le (padStart 3 "0" (decimal (Z.of_nat i)))
    (padStart 3 "0" (decimal (Z.of_nat n))).
Proof.
  intros Hi Hn. induction n as [|n IH]; [lia |].
  destruct (decide (i = S n)) as [-> | Hne]; [done |].
  etrans; [apply IH; lia |]. apply padded_le_succ. lia.
Qed.

Lemma elem_of_idsUpTo prefix k x :
  x ∈ idsUpTo prefix k
  <-> exists i, (1 <= i <= k)%nat
                /\ x = prefix +:+ padStart 3 "0" (decimal (Z.of_nat i)).
Proof.
  unfold idsUpTo. rewrite list_elem_of_fmap. split.
  - intros (i & -> & Hi). apply elem_of_seq in Hi. exists i. split; [lia | done].
  - intros (i & Hi & ->). exists i. split; [done |]. apply elem_of_seq. lia.
Qed.

Lemma findLastId_idsUpTo prefix n :
  (1 <= n <= 999)%nat ->
  findLastId (idsUpTo prefix n)
  = Some (prefix +:+ padStart 3 "0" (decimal (Z.of_nat n))).
Proof.
  intros Hn.
  destruct (findLastId (idsUpTo prefix n)) as [m|] eqn:Hm.
  - apply findLastId_greatest in Hm as [Hin Hmax]. f_equal.
    apply (anti_symm String.le).
    + apply elem_of_idsUpTo in Hin as (i & Hi & ->).
      apply le_app_prefix, padded_le; lia.
    + apply Hmax, elem_of_idsUpTo. exists n. split; [lia | done].
  - exfalso. unfold idsUpTo in Hm.
    destruct n as [|n]; [lia |]. simpl in Hm.
    by destruct (findLastId _) as [j|]; [destruct (String.ltb _ _) |].
Qed.

(** X19: below its thousandth id the generator counts.  For every prefix,
    [n <= 999] creations in a row on an empty collection all succeed and
    give the ids [<PREFIX>001 .. <PREFIX>n], in that order. *)
Theorem sequential_ids_count_up_to_999 (prefix : string) (n : nat) :
  (n <= 999)%nat -> createMany prefix n [] = inr (idsUpTo prefix n).
Proof.
  induction n as [|n IH]; intros Hn; [done |].
  rewrite createMany_snoc, IH by lia.
  unfold createWithId, insertUnique.
  assert (preSaveId prefix (idsUpTo prefix n) true ""
          = prefix +:+ padStart 3 "0" (decimal (Z.of_nat (S n)))) as ->.
  { destruct n as [|n]; [apply sequential_id_first |].
    replace (Z.of_nat (S (S n))) with (Z.of_nat (S n) + 1) by lia.
    apply sequential_id_step; [lia |]. apply findLastId_idsUpTo. lia. }
  rewrite bool_decide_eq_false_2.
  - f_equal. unfold idsUpTo. by rewrite seq_S, fmap_app.
  - intros (i & Hi & Heq)%elem_of_idsUpTo.
    apply append_inj_l in Heq.
    apply (f_equal parseInt) in Heq. rewrite !parseInt_padded in Heq by lia.
    injection Heq as Heq. lia.
Qed.

Lemma sequential_ids_count_up_to_999_witness :
  createMany "GRP" 3 [] = inr ["GRP001"; "GRP002"; "GRP003"].
Proof.
  apply (sequential_ids_count_up_to_999 "GRP" 3). lia.
Defined.

End SequentialIdsInOrder.

(** ** Ledger updates with plain bodies *)

Section LedgerPlainUpdates.
Import LedgerController.

Lemma sameProtected_refl e : sameProtected e e.
Proof. by repeat split. Qed.

Lemma sameProtected_trans e1 e2 e3 :
  sameProtected e1 e2 -> sameProtected e2 e3 -> sameProtected e1 e3.
Proof.
  unfold sameProtected.
  intros (? & ? & ? & ? & ?) (? & ? & ? & ? & ?). repeat split; congruence.
Qed.

Lemma replaceDoc_ids {D} (oid : D -> ObjectId) d (l : list D) :
  oid <$> replaceDoc oid d l = oid <$> l.
Proof.
  unfold replaceDoc. rewrite <- list_fmap_compose.
  apply list_fmap_ext. intros i x _. simpl. by case_bool_decide.
Qed.

Lemma replaceDoc_sameProtected found e' l :
  NoDup (Ledger._id <$> l) -> found ∈ l ->
  Ledger._id e' = Ledger._id found -> sameProtected found e' ->
  Forall2 sameProtected l (replaceDoc Ledger._id e' l).
Proof.
  intros Hnd Hin Hid Hsame. unfold replaceDoc.
  apply Forall2_fmap_r. apply Forall2_same_length_lookup_2; [done |].
  intros i x y Hx Hy. rewrite Hx in Hy. injection Hy as <-.
  unfold compose. case_bool_decide as Hi; [| apply sameProtected_refl].
  apply list_elem_of_lookup in Hin as [j Hj].
  assert (i = j) as ->; [| by rewrite Hx in Hj; injection Hj as ->].
  apply (NoDup_lookup _ i j (Ledger._id e') Hnd); rewrite list_lookup_fmap.
  - by rewrite Hx; simpl; rewrite Hi.
  - by rewrite Hj; simpl; rewrite Hid.
Qed.

(** X20: the five protected paths survive plain updates.  With the unique
    [_id]s in force, after any sequence of [updateLedgerEntry] requests
    whose bodies carry field names only (no update operator), every ledger
    entry still has the [ledger_id], [branch_id], [member_id],
    [transaction_id] and [balance] it had, whatever the bodies asked for. *)
Theorem plain_updates_keep_protected_paths
    (reqs : list (IdParam * gmap string Value)) (s : Store) :
  NoDup (Ledger._id <$> ledgers s) ->
  Forall (fun r => plainBody r.2) reqs ->
  exists s', updateLedgerEntries reqs s = Some s'
             /\ Forall2 sameProtected (ledgers s) (ledgers s').
Proof.
  revert s. induction reqs as [|[p body] reqs IH]; intros s Hnd Hplain.
  - exists s. split; [done |]. apply Forall_Forall2_diag, Forall_forall.
    intros e _. apply sameProtected_refl.
  - apply Forall_cons in Hplain as [Hbody Hplain]. simpl in Hbody.
    cbn [updateLedgerEntries].
    assert (castUpdate (delete "balance" (delete "transaction_id" (delete "member_id"
              (delete "branch_id" (delete "ledger_id" body))))) <> None) as Hcast.
    { unfold castUpdate.
      set (updateData := delete "balance" _).
      assert (forall k, is_Some (updateData !! k) -> isOperator k = false) as Hup.
      { intros k [v Hk]. apply Hbody. exists v. subst updateData.
        repeat (apply lookup_delete_Some in Hk as [_ Hk]). done. }
      assert (filter (fun kv => isOperator kv.1 = true) (delete "$set" updateData) = ∅)
        as ->.
      { apply map_empty. intros k. apply map_lookup_filter_None. right.
        intros v Hk. simpl. apply lookup_delete_Some in Hk as [_ Hk].
        rewrite (Hup k) by (by exists v). done. }
      rewrite bool_decide_eq_true_2 by done.
      destruct (updateData !! "$set") eqn:E; [|done].
      by specialize (Hup "$set" (ltac:(by eexists))). }
    destruct (findOneByParam Ledger._id p (ledgers s)) as [e | [found|]] eqn:Hf.
    + assert (exists r, updateLedgerEntry p body s = Some (r, s)) as [r ->];
        [| by apply IH].
      unfold updateLedgerEntry. destruct (castUpdate _) as [sets|]; [|done].
      cbn [mbind option_bind]. rewrite Hf. destruct (castSet sets); eauto.
    + destruct (updateLedgerEntry_plain_body p body s found Hbody Hf)
        as (r & s1 & -> & [[_ ->] | (e' & _ & Hsame & Hid & Hl)]); [by apply IH |].
      destruct (IH s1) as (s' & Hs' & Hall); [by rewrite Hl, replaceDoc_ids | done |].
      exists s'. split; [done |].
      assert (Forall2 sameProtected (ledgers s) (ledgers s1)) as H1.
      { rewrite Hl. apply (replaceDoc_sameProtected found); try done.
        by eapply findOneByParam_found. }
      clear -H1 Hall. revert Hall. generalize (ledgers s').
      induction H1 as [|x y l k Hxy _ IHl]; intros l' Hall;
        inversion Hall; subst; constructor; eauto using sameProtected_trans.
    + assert (exists r, updateLedgerEntry p body s = Some (r, s)) as [r ->];
        [| by apply IH].
      unfold updateLedgerEntry. destruct (castUpdate _) as [sets|]; [|done].
      cbn [mbind option_bind]. rewrite Hf. destruct (castSet sets); eauto.
Qed.

Lemma plain_updates_keep_protected_paths_witness :
  exists s',
    updateLedgerEntries [(ByObjectId 22, Scenario.balanceBody)] Demo.posted = Some s'
    /\ Forall2 sameProtected (ledgers Demo.posted) (ledgers s').
Proof.
  apply (plain_updates_keep_protected_paths
           [(ByObjectId 22, Scenario.balanceBody)] Demo.posted); [compute_done |].
  apply Forall_singleton. intros k [v Hk]. cbn [snd] in Hk.
  unfold Scenario.balanceBody in Hk.
  apply lookup_singleton_Some in Hk as [<- _]. reflexivity.
Defined.

End LedgerPlainUpdates.

